(** * crseg: crossroad region growing and crossroad connections

    A shallow embedding of [crseg/crossroad.py],
    [crseg/crossroad_connections.py] and the control flow of
    [get-crossroad-description.py], followed by the properties of the
    region grower, the branch extractor, the crossroad builder, the
    proximity clustering, the connection graph builder, the search for
    cycles and the command line script. *)

From Stdlib Require Import ZArith QArith Lia List.
From Stdlib Require Import Floats.PrimFloat.
From Stdlib Require Numbers.Cyclic.Int63.Uint63.
From stdpp Require Import gmap strings list.

Local Open Scope Z_scope.

(** ** Python values, exceptions and containers *)

Module Py.

(** The exceptions the embedded code can raise.  [OutOfFuel] is not a
    Python exception: it marks a [while] loop cut by the fuel bound. *)
Inductive exn := KeyError | IndexError | TypeError | NetworkXError | OutOfFuel.

Inductive res (A : Type) : Type :=
| Ok (a : A)
| Raise (e : exn).
Global Arguments Ok {A} a.
Global Arguments Raise {A} e.

Definition bind {A B} (m : res A) (k : A -> res B) : res B :=
  match m with
  | Ok a => k a
  | Raise e => Raise e
  end.

(** [True], [False] and [None] as results of a predicate method. *)
Inductive truth := PyTrue | PyFalse | PyNone.

Definition truthy (v : truth) : bool :=
  match v with PyTrue => true | _ => false end.

Definition of_bool (b : bool) : truth := if b then PyTrue else PyFalse.

(** [l[i]], negative indices counting from the end. *)
Definition index {A} (l : list A) (i : Z) : res A :=
  let n := Z.of_nat (length l) in
  let j := if i <? 0 then i + n else i in
  if (0 <=? j) && (j <? n)
  then match l !! Z.to_nat j with
       | Some x => Ok x
       | None => Raise IndexError
       end
  else Raise IndexError.

(** [zip(path, path[1:])] *)
Fixpoint pairs {A} (l : list A) : list (A * A) :=
  match l with
  | a :: ((b :: _) as tl) => (a, b) :: pairs tl
  | _ => []
  end.

(** A [dict] with its insertion order: [d[k] = v] replaces the value of
    a key already present and appends a new key at the end. *)
Section Dict.
Context {K V : Type} `{EqDecision K}.

Fixpoint get (d : list (K * V)) (k : K) : option V :=
  match d with
  | [] => None
  | (k', v) :: d' => if decide (k' = k) then Some v else get d' k
  end.

Definition contains (d : list (K * V)) (k : K) : bool :=
  match get d k with Some _ => true | None => false end.

Fixpoint set (d : list (K * V)) (k : K) (v : V) : list (K * V) :=
  match d with
  | [] => [(k, v)]
  | (k', v') :: d' =>
      if decide (k' = k) then (k', v) :: d' else (k', v') :: set d' k v
  end.

Definition getitem (d : list (K * V)) (k : K) : res V :=
  match get d k with Some v => Ok v | None => Raise KeyError end.
End Dict.

(** [x in l] for a list *)
Definition mem {A} `{EqDecision A} (x : A) (l : list A) : bool :=
  bool_decide (x ∈ l).

Definition Qltb (x y : Q) : bool := negb (Qle_bool y x).

(** A Python [float] is an IEEE 754 binary64 number, as a primitive
    float is: [+], [*] and [/] round to the nearest float, ties to
    even, and [<] is false when an operand is NaN. *)

(** [float(n)] for an int [n] below 2^63 in absolute value: exact below
    2^53, rounded to the nearest float above. *)
Definition float_of_int (n : Z) : float :=
  if n <? 0 then PrimFloat.opp (PrimFloat.of_uint63 (Uint63.of_Z (- n)))
  else PrimFloat.of_uint63 (Uint63.of_Z n).

(** The float of a number held as a rational [n / d], [n] and [d] below
    2^53 in absolute value: [n] itself when [d] is 1. *)
Definition float_of_Q (q : Q) : float :=
  PrimFloat.div (float_of_int (Qnum q)) (float_of_int (Zpos (Qden q))).

(** [max([a, b])] keeps the first item unless the second is greater. *)
Definition max2 (a b : float) : float := if PrimFloat.ltb a b then b else a.

(** [sum(l)] from left to right, each addition rounded. *)
Definition sum_left (l : list float) : float := fold_left PrimFloat.add l 0%float.

End Py.

Import Py.

Global Instance res_ret : MRet Py.res := @Py.Ok.
Global Instance res_bind : MBind Py.res := fun A B k m => Py.bind m k.

(** ** The road graph (a networkx undirected multigraph) *)

Definition node := Z.

Module Graph.

(** [nodes] is [G.nodes] in iteration order; [adj] maps a node to its
    adjacency in iteration order, each neighbour with the attribute
    dictionary of the edge of key 0, [G[a][b][0]]. *)
Record t := {
  nodes : list node;
  adj : gmap node (list (node * gmap string string));
}.

(** [G.neighbors(n)] *)
Definition neighbors (G : t) (n : node) : res (list node) :=
  match adj G !! n with
  | Some l => Ok (l.*1)
  | None => Raise NetworkXError
  end.

(** [G[a][b][0]] *)
Definition edge (G : t) (a b : node) : res (gmap string string) :=
  match adj G !! a with
  | Some l => Py.getitem l b
  | None => Raise KeyError
  end.

End Graph.

(** ** External collaborators, taken as parameters *)

Module Util.
(** [utils.Util]: geometry of the graph.  Lengths and bearings, floats
    in the source, are only compared or handed on, and stand as
    rationals.  Distances are added and divided by [get_radius]: they
    are floats, and [sum] is the builtin [sum] on a list of them, whose
    rounding depends on the float type [distance] returns and on the
    interpreter (from left to right, each addition rounded, for NumPy
    floats and up to CPython 3.11; with a compensation term for Python
    floats from CPython 3.12 on).  [None] as third argument of
    [get_path_to_biffurcation] is the call without radius. *)
Record t := {
  distance : node -> node -> float;
  sum : list float -> float;
  bearing : node -> node -> Q;
  length : list node -> Q;
  get_path_to_biffurcation : node -> node -> option float -> list node;
}.
End Util.

Module Reliability.
(** [reliability.Reliability]: the confidence predicates. *)
Record t := {
  is_weakly_boundary : node -> bool;
  is_strong_boundary : node -> bool;
  is_weakly_in_crossroad : node -> bool;
  is_strong_in_crossroad : node -> bool;
  is_weakly_in_crossroad_edge : node * node -> bool;
}.
End Reliability.

Module BranchDescription.
(** [branch_description.BranchDescription(angle, name)] *)
Record t := { angle : Q; name : option string }.

(** The two predicates of the class, absent from the sources. *)
Record ops := {
  is_similar : t -> t -> bool;
  is_orthogonal : t -> Q -> bool;
}.
End BranchDescription.

(** The value of a tag in an attribute dictionary: a string, or a list
    of strings where edges with different values were merged. *)
Inductive tag :=
| Str (s : string)
| Strs (l : list string).

(** The argument of [get_highway_classification]: its callers pass the
    pair of nodes [(center, nb)], the body reads it as an attribute
    dictionary. *)
Inductive edge_arg :=
| EdgeNodes (a b : node)
| EdgeAttrs (d : gmap string tag).

(** ** Regions *)

Module Region.

(** Modelled from the spec: [region.py] is absent from the sources.  A
    Region owns a list of member nodes and a list of member edges and
    has a unique id assigned at creation; the graph carries, for each
    node and each edge, the label of the region that claims it (the
    [label_region] attribute), and a node or edge without label is in
    no known region. *)
Record t := {
  id : Z;
  nodes : list node;
  edges : list (node * node);
}.

(** Modelled from the spec: the mutable state shared by all regions,
    that is the labels stored in the graph and the class counter
    [Region.id_region] that numbers the regions; [stdout] collects the
    lines printed. *)
Record world := {
  node_label : gmap node Z;
  edge_label : gmap (node * node) Z;
  id_region : Z;
  stdout : list string;
}.

(** Modelled from the spec: no node or edge is labelled yet. *)
Definition empty_world : world :=
  {| node_label := ∅; edge_label := ∅; id_region := 0; stdout := [] |}.

(** [print(line)] *)
Definition print (line : string) (w : world) : world :=
  {| node_label := node_label w; edge_label := edge_label w;
     id_region := id_region w; stdout := stdout w ++ [line] |}.

(** Modelled from the spec: the graph is undirected, both orientations
    of a pair of nodes name the same edge. *)
Definition ekey (e : node * node) : node * node :=
  if e.1 <=? e.2 then e else (e.2, e.1).

(** Modelled from the spec: [Region.__init__], a fresh unique id. *)
Definition init (w : world) : t * world :=
  ({| id := id_region w; nodes := []; edges := [] |},
   {| node_label := node_label w; edge_label := edge_label w;
      id_region := id_region w + 1; stdout := stdout w |}).

(** Modelled from the spec: [unknown_region_node_in_graph(G, n)], the
    node is in no known region. *)
Definition unknown_region_node_in_graph (w : world) (n : node) : bool :=
  bool_decide (node_label w !! n = None).

(** Modelled from the spec: [unknown_region_node(n)]. *)
Definition unknown_region_node (self : t) (w : world) (n : node) : bool :=
  unknown_region_node_in_graph w n.

(** Modelled from the spec: [unknown_region_edge(e)]. *)
Definition unknown_region_edge (self : t) (w : world) (e : node * node) : bool :=
  bool_decide (edge_label w !! ekey e = None).

(** Modelled from the spec: [has_edge(e)], the edge is a member. *)
Definition has_edge (self : t) (e : node * node) : bool :=
  Py.mem (ekey e) (ekey <$> edges self).

(** Modelled from the spec: the node is a member. *)
Definition has_node (self : t) (n : node) : bool := Py.mem n (nodes self).

(** Modelled from the spec: [add_node(n)], the node becomes a member
    and is labelled with the region. *)
Definition add_node (self : t) (w : world) (n : node) : t * world :=
  ({| id := id self;
      nodes := if has_node self n then nodes self else nodes self ++ [n];
      edges := edges self |},
   {| node_label := <[ n := id self ]> (node_label w);
      edge_label := edge_label w;
      id_region := id_region w; stdout := stdout w |}).

(** Modelled from the spec: the edge becomes a member and is labelled
    with the region. *)
Definition add_edge (self : t) (w : world) (e : node * node) : t * world :=
  ({| id := id self;
      nodes := nodes self;
      edges := if has_edge self e then edges self else edges self ++ [e] |},
   {| node_label := node_label w;
      edge_label := <[ ekey e := id self ]> (edge_label w);
      id_region := id_region w; stdout := stdout w |}).

(** Modelled from the spec: [add_path(path)], path insertion: every
    node and every edge of the path becomes a member. *)
Definition add_path (self : t) (w : world) (path : list node) : t * world :=
  let rw := fold_left (fun rw n => add_node rw.1 rw.2 n) path (self, w) in
  fold_left (fun rw e => add_edge rw.1 rw.2 e) (Py.pairs path) rw.

(** Modelled from the spec: [clear_region()], the region releases its
    claim on its nodes and edges. *)
Definition clear_region (self : t) (w : world) : t * world :=
  ({| id := id self; nodes := []; edges := [] |},
   {| node_label := fold_left (fun m n => delete n m) (nodes self) (node_label w);
      edge_label := fold_left (fun m e => delete (ekey e) m) (edges self) (edge_label w);
      id_region := id_region w; stdout := stdout w |}).

End Region.

(** ** [crossroad.py] *)

Module Crossroad.

Definition max_distance_boundary_polyline : gmap string Q :=
  list_to_map
    [ ("motorway", 100%Q); ("trunk", 100%Q); ("primary", 80%Q);
      ("secondary", 80%Q); ("tertiary", 50%Q); ("unclassified", 30%Q);
      ("residential", 30%Q); ("living_street", 25%Q); ("service", 25%Q);
      ("default", 25%Q) ].

Definition min_distance_boundary_polyline : gmap string Q :=
  list_to_map
    [ ("motorway", 100%Q); ("trunk", 100%Q); ("primary", 50%Q);
      ("secondary", 30%Q); ("tertiary", 25%Q); ("unclassified", 16%Q);
      ("residential", 16%Q); ("living_street", 16%Q); ("service", 12%Q);
      ("default", 12%Q) ].

(** [table[k]] *)
Definition table_get (table : gmap string Q) (k : option string) : res Q :=
  match k with
  | Some s => match table !! s with Some v => Ok v | None => Raise KeyError end
  | None => Raise KeyError
  end.

Definition in_table (k : string) (table : gmap string Q) : bool :=
  bool_decide (is_Some (table !! k)).

(** [get_highway_classification]: on a pair of integer node ids
    ["highway" in edge] compares a string with the two ids and is
    false; on a list of strings [highway + "_link"] raises
    [TypeError]. *)
Definition get_highway_classification (edge : edge_arg) : res string :=
  match edge with
  | EdgeNodes _ _ => mret "default"
  | EdgeAttrs d =>
      match d !! "highway" with
      | None => mret "default"
      | Some (Strs _) => Raise TypeError
      | Some (Str highway) =>
          let highway_link := highway +:+ "_link" in
          let highway :=
            if in_table highway_link max_distance_boundary_polyline
            then highway_link else highway in
          let highway :=
            if negb (in_table highway max_distance_boundary_polyline)
            then "default" else highway in
          mret highway
      end
  end.

(** A [Crossroad] is a [Region] with its branches. *)
Record t := {
  region : Region.t;
  branches : list BranchDescription.t;
}.

Section Methods.

Variable G : Graph.t.
Variable U : Util.t.
Variable R : Reliability.t.
(** [Region.is_boundary_node], of which the specification only gives
    the name. *)
Variable is_boundary_node : Region.t -> node -> bool.
Variable B : BranchDescription.ops.

Definition getCenter (self : Region.t) : res node :=
  Py.index (Region.nodes self) 0.

Definition get_branch_description_from_edge (self : Region.t)
    (edge : node * node) : res BranchDescription.t :=
  e ← Graph.edge G edge.1 edge.2;
  center ← getCenter self;
  let angle := Util.bearing U center edge.2 in
  let name := e !! "name" in
  mret {| BranchDescription.angle := angle; BranchDescription.name := name |}.

Definition get_branches_description_from_node (self : Region.t)
    (border : node) : res (list BranchDescription.t) :=
  nbs ← Graph.neighbors G border;
  let edges :=
    (fun nb => (nb, border))
      <$> List.filter (fun nb => Region.has_edge self (nb, border)) nbs in
  mapM (get_branch_description_from_edge self) edges.

Fixpoint get_radius_loop (center : node) (nbs : list node) (radius : Q)
    : res Q :=
  match nbs with
  | [] => mret radius
  | nb :: nbs =>
      c ← get_highway_classification (EdgeNodes center nb);
      v ← table_get min_distance_boundary_polyline (Some c);
      get_radius_loop center nbs (if Py.Qltb radius v then v else radius)
  end.

(** The radius is an int of the table when the region has no border,
    a float otherwise; the int is held as the float equal to it. *)
Definition get_radius (self : Region.t) : res float :=
  let borders := List.filter (is_boundary_node self) (Region.nodes self) in
  center ← getCenter self;
  if (length borders =? 0)%nat then
    nbs ← Graph.neighbors G center;
    radius ← get_radius_loop center nbs 0%Q;
    mret (Py.float_of_Q radius)
  else
    mret (PrimFloat.div (Util.sum U (Util.distance U center <$> borders))
                        (Py.float_of_int (Z.of_nat (length borders)))).

Definition get_open_paths (self : Region.t) (point : node) (radius : float)
    : res (list (list node)) :=
  nbs ← Graph.neighbors G point;
  mret ((fun nb => Util.get_path_to_biffurcation U point nb (Some radius))
          <$> List.filter (fun nb => negb (Region.has_edge self (nb, point))) nbs).

Definition branch_of_open_path (self : Region.t) (ob : list node)
    : res BranchDescription.t :=
  a ← Py.index ob (Z.of_nat (length ob) - 2);
  b ← Py.index ob (Z.of_nat (length ob) - 1);
  get_branch_description_from_edge self (a, b).

(** The body of the loop [for b in borders] of
    [build_branches_description]: the branches one border adds. *)
Definition branches_of_border (self : Region.t) (center : node) (radius : float)
    (b : node) : res (list BranchDescription.t) :=
  if decide (b ≠ center) then get_branches_description_from_node self b
  else
    open_branches ← get_open_paths self center radius;
    mapM (branch_of_open_path self) open_branches.

Fixpoint build_branches_loop (self : Region.t) (center : node) (radius : float)
    (borders : list node) (branches : list BranchDescription.t)
    : res (list BranchDescription.t) :=
  match borders with
  | [] => mret branches
  | b :: borders =>
      bs ← branches_of_border self center radius b;
      build_branches_loop self center radius borders (branches ++ bs)
  end.

Definition build_branches_description (self : Region.t)
    : res (list BranchDescription.t) :=
  center ← getCenter self;
  radius ← get_radius self;
  let borders := List.filter (is_boundary_node self) (Region.nodes self) in
  build_branches_loop self center radius borders [].

Fixpoint is_straight_crossing_loop (ns : list node) : res bool :=
  match ns with
  | [] => mret true
  | n :: ns =>
      nbs ← Graph.neighbors G n;
      if (2 <? length nbs)%nat then mret false
      else is_straight_crossing_loop ns
  end.

Definition is_straight_crossing (self : Region.t) : res bool :=
  is_straight_crossing_loop (Region.nodes self).

Definition is_reliable_crossroad_node (n : node) : res bool :=
  if Reliability.is_weakly_in_crossroad R n then mret true
  else
    nbs ← Graph.neighbors G n;
    mret (existsb (fun nb => Reliability.is_weakly_in_crossroad_edge R (nb, n)) nbs).

Definition is_correct_inner_node (n : node) : bool :=
  negb (Reliability.is_weakly_boundary R n).

Fixpoint max_highway_loop (center : node) (path : list node)
    (nbs : list node) (result : string) (value : Q) : res string :=
  match nbs with
  | [] => mret result
  | nb :: nbs =>
      p1 ← Py.index path 1;
      if decide (nb ≠ p1) then
        c ← get_highway_classification (EdgeNodes center nb);
        v ← table_get max_distance_boundary_polyline (Some c);
        if Py.Qltb value v then max_highway_loop center path nbs c v
        else max_highway_loop center path nbs result value
      else max_highway_loop center path nbs result value
  end.

Definition get_max_highway_classification_other (self : Region.t)
    (path : list node) : res (option string) :=
  if (length (Region.nodes self) =? 0)%nat then mret None
  else
    let result := "default" in
    value ← table_get max_distance_boundary_polyline (Some result);
    center ← getCenter self;
    nbs ← Graph.neighbors G center;
    result ← max_highway_loop center path nbs result value;
    mret (Some result).

Fixpoint closest_biffurcation_loop (point : node) (nbs : list node)
    (result : node) (length : Q) : res node :=
  match nbs with
  | [] => mret result
  | nb :: nbs =>
      let path := Util.get_path_to_biffurcation U point nb None in
      let l := Util.length U path in
      if Py.Qltb length 0%Q || Py.Qltb l length then
        last ← Py.index path (Z.of_nat (List.length path) - 1);
        closest_biffurcation_loop point nbs last l
      else closest_biffurcation_loop point nbs result length
  end.

Definition get_closest_possible_biffurcation (point : node) : res node :=
  nbs ← Graph.neighbors G point;
  closest_biffurcation_loop point nbs (-1) (-1)%Q.

Fixpoint is_inner_path_by_osmdata_loop (ps : list (node * node)) : res bool :=
  match ps with
  | [] => mret true
  | (p1, p2) :: ps =>
      e ← Graph.edge G p1 p2;
      if negb (bool_decide (is_Some (e !! "junction"))) then mret false
      else is_inner_path_by_osmdata_loop ps
  end.

Definition is_inner_path_by_osmdata (path : list node) : res bool :=
  is_inner_path_by_osmdata_loop (Py.pairs path).

Definition is_correct_inner_path (self : Region.t) (path : list node)
    : res Py.truth :=
  if (length path <? 2)%nat then mret PyFalse
  else
    p0 ← Py.index path 0;
    pn ← Py.index path (Z.of_nat (length path) - 1);
    if decide (p0 = pn) then mret PyFalse
    else
      osm ← is_inner_path_by_osmdata path;
      if (osm : bool) then mret PyTrue
      else
        first ← Py.index path 0;
        last ← Py.index path (Z.of_nat (length path) - 1);
        if Reliability.is_weakly_in_crossroad R first
           && Reliability.is_weakly_boundary R last
        then
          let d := Util.length U path in
          nbs ← Graph.neighbors G first;
          let r := if (4 <? length nbs)%nat then 2%Q else 1%Q in
          highway ← get_max_highway_classification_other self path;
          dmin ← table_get min_distance_boundary_polyline highway;
          if Py.Qltb d (dmin * r)%Q then mret PyTrue
          else
            dmax ← table_get max_distance_boundary_polyline highway;
            if Py.Qltb d (dmax * r)%Q then
              b ← get_closest_possible_biffurcation last;
              mret (Py.of_bool (bool_decide (b = first)))
            else mret PyFalse
        else mret PyNone.

Definition is_middle_path_node (n : node) (strong : bool) : res bool :=
  nbs ← Graph.neighbors G n;
  if negb (length nbs =? 2)%nat then mret false
  else if strong then
    mret (negb (Reliability.is_strong_boundary R n
                || Reliability.is_strong_in_crossroad R n))
  else
    mret (negb (Reliability.is_weakly_boundary R n
                || Reliability.is_weakly_in_crossroad R n)).

Definition get_next_node_along_polyline (current pred : node)
    : res (option node) :=
  nbs ← Graph.neighbors G current;
  mret (List.find (fun n => bool_decide (n ≠ pred)) nbs).

(** The outcome of one [while] loop of [get_possible_paths]: the
    loop ends (its condition fails or it reaches a known region), or
    the polyline cannot be followed and the function returns. *)
Inductive walk :=
| Walked (path : list node)
| CannotFollow.

Fixpoint follow_polyline (fuel : nat) (strong : bool) (self : Region.t)
    (w : Region.world) (path : list node) : res walk :=
  last ← Py.index path (Z.of_nat (length path) - 1);
  middle ← is_middle_path_node last strong;
  if (middle : bool) then
    match fuel with
    | O => Raise OutOfFuel
    | S fuel =>
        pred ← Py.index path (Z.of_nat (length path) - 2);
        next ← get_next_node_along_polyline last pred;
        match next with
        | None => mret CannotFollow
        | Some next =>
            let path := path ++ [next] in
            if negb (Region.unknown_region_node self w next)
            then mret (Walked path)
            else follow_polyline fuel strong self w path
        end
    end
  else mret (Walked path).

Definition get_possible_paths (fuel : nat) (self : Region.t)
    (w : Region.world) (n1 n2 : node)
    : res (list (list node) * Region.world) :=
  first_walk ← follow_polyline fuel false self w [n1; n2];
  match first_walk with
  | CannotFollow => mret ([], Region.print "ERROR: cannot follow a path" w)
  | Walked path =>
      let results := [path] in
      last ← Py.index path (Z.of_nat (length path) - 1);
      middle ← is_middle_path_node last true;
      if negb middle then mret (results, w)
      else
        second_walk ← follow_polyline fuel true self w path;
        match second_walk with
        | CannotFollow =>
            mret (results, Region.print "ERROR: cannot follow a path" w)
        | Walked path => mret (results ++ [path], w)
        end
  end.

(** [for path in paths[::-1]]: the first accepted path is added and
    the loop left.  A path is a list, never [None]. *)
Fixpoint try_paths (self : Region.t) (w : Region.world)
    (paths : list (list node)) : res (Region.t * Region.world) :=
  match paths with
  | [] => mret (self, w)
  | path :: paths =>
      ok ← is_correct_inner_path self path;
      if Py.truthy ok then mret (Region.add_path self w path)
      else try_paths self w paths
  end.

Fixpoint propagate_loop (fuel : nat) (self : Region.t) (w : Region.world)
    (n : node) (nbs : list node) : res (Region.t * Region.world) :=
  match nbs with
  | [] => mret (self, w)
  | nb :: nbs =>
      if Region.unknown_region_edge self w (n, nb) then
        '(paths, w) ← get_possible_paths fuel self w n nb;
        '(self, w) ← try_paths self w (rev paths);
        propagate_loop fuel self w n nbs
      else propagate_loop fuel self w n nbs
  end.

Definition propagate (fuel : nat) (self : Region.t) (w : Region.world)
    (n : node) : res (Region.t * Region.world) :=
  let '(self, w) := Region.add_node self w n in
  nbs ← Graph.neighbors G n;
  propagate_loop fuel self w n nbs.

(** [Crossroad(G, node)] *)
Definition init (fuel : nat) (w : Region.world) (n : node)
    : res (t * Region.world) :=
  let '(self, w) := Region.init w in
  '(self, w) ← propagate fuel self w n;
  bs ← build_branches_description self;
  mret ({| region := self; branches := bs |}, w).

Fixpoint build_crossroads_loop (fuel : nat) (ns : list node)
    (w : Region.world) (crossroads : list t)
    : res (list t * Region.world) :=
  match ns with
  | [] => mret (crossroads, w)
  | n :: ns =>
      if Region.unknown_region_node_in_graph w n then
        reliable ← is_reliable_crossroad_node n;
        if (reliable : bool) then
          '(c, w) ← init fuel w n;
          straight ← is_straight_crossing (region c);
          if (straight : bool) then
            let '(_, w) := Region.clear_region (region c) w in
            build_crossroads_loop fuel ns w crossroads
          else build_crossroads_loop fuel ns w (crossroads ++ [c])
        else build_crossroads_loop fuel ns w crossroads
      else build_crossroads_loop fuel ns w crossroads
  end.

Definition build_crossroads (fuel : nat) (w : Region.world)
    : res (list t * Region.world) :=
  build_crossroads_loop fuel (Graph.nodes G) w [].

Fixpoint neighborhood_loop (self : t) (center : node) (radius : float)
    (crossroads : list t) (result : list t) : res (list t) :=
  match crossroads with
  | [] => mret result
  | c :: crossroads =>
      if bool_decide (Region.id (region c) ≠ Region.id (region self)) then
        cc ← getCenter (region c);
        if PrimFloat.ltb (Util.distance U center cc) radius
        then neighborhood_loop self center radius crossroads (result ++ [c])
        else neighborhood_loop self center radius crossroads result
      else neighborhood_loop self center radius crossroads result
  end.

Definition get_crossroads_in_neighborhood (self : t) (crossroads : list t)
    : res (list t) :=
  center ← getCenter (region self);
  r ← get_radius (region self);
  let radius := PrimFloat.mul r 4 in
  neighborhood_loop self center radius crossroads [].

Definition in_same_cluster (self crossroad : t) : res bool :=
  c1 ← getCenter (region self);
  c2 ← getCenter (region crossroad);
  let angle := Util.bearing U c1 c2 in
  mret (existsb
          (fun b1 =>
             existsb
               (fun b2 =>
                  BranchDescription.is_similar B b1 b2
                  && BranchDescription.is_orthogonal B b1 angle)
               (branches crossroad))
          (branches self)).

(** [cr in c]: crossroads are compared by identity, and a region is
    identified by its unique id. *)
Definition cr_in (cr : t) (c : list t) : bool :=
  existsb (fun x => Region.id (region x) =? Region.id (region cr)) c.

(** The [else] branch of [get_clusters], "merge clusters". *)
Definition merge_clusters (cr : t) (result : list (list t))
    (cluster : list t) (out : list string)
    : list (list t) * list t * list string :=
  let other_cluster := List.filter (cr_in cr) result in
  if negb (length other_cluster =? 1)%nat then
    (result, cluster, out ++ ["Error while merging two clusters"])
  else
    let other_cluster := hd [] other_cluster in
    (List.filter (fun c => negb (cr_in cr c)) result,
     cluster ++ other_cluster, out).

Fixpoint cluster_loop (crossroad : t) (crs : list t) (visited : list Z)
    (cluster : list t) (result : list (list t)) (out : list string)
    : res (list Z * list t * list (list t) * list string) :=
  match crs with
  | [] => mret (visited, cluster, result, out)
  | cr :: crs =>
      same ← in_same_cluster crossroad cr;
      if (same : bool) then
        if negb (Py.mem (Region.id (region cr)) visited) then
          cluster_loop crossroad crs (visited ++ [Region.id (region cr)])
            (cluster ++ [cr]) result out
        else
          let '(result, cluster, out) := merge_clusters cr result cluster out in
          cluster_loop crossroad crs visited cluster result out
      else cluster_loop crossroad crs visited cluster result out
  end.

Fixpoint get_clusters_loop (all todo : list t) (visited : list Z)
    (result : list (list t)) (out : list string)
    : res (list (list t) * list string) :=
  match todo with
  | [] => mret (result, out)
  | crossroad :: todo =>
      if negb (Py.mem (Region.id (region crossroad)) visited) then
        let visited := visited ++ [Region.id (region crossroad)] in
        let cluster := [crossroad] in
        cr_in_neigborhood ← get_crossroads_in_neighborhood crossroad all;
        '(visited, cluster, result, out) ←
          cluster_loop crossroad cr_in_neigborhood visited cluster result out;
        if (1 <? length cluster)%nat
        then get_clusters_loop all todo visited (result ++ [cluster]) out
        else get_clusters_loop all todo visited result out
      else get_clusters_loop all todo visited result out
  end.

(** [get_clusters(crossroads)], with the lines it prints. *)
Definition get_clusters (crossroads : list t)
    : res (list (list t) * list string) :=
  get_clusters_loop crossroads crossroads [] [] [].

End Methods.

End Crossroad.

(** ** [crossroad_connections.py] *)

Module CrossroadConnections.

(** What [CrossroadConnections] reads of a region: its id, its nodes,
    its kind, and the two methods [max_branch_width()] and
    [get_path(fromNodes, toNodes)], which returns a path and its
    length.  The width and the length are floats. *)
Record region := {
  id : Z;
  nodes : list node;
  is_crossroad : bool;
  is_link : bool;
  max_branch_width : float;
  get_path : list node -> list node -> list node * float;
}.

Definition typology_crossroad : Z := 1.
Definition typology_link : Z := 2.
Definition typology_unknown : Z := 0.

(** A piece of evidence [(path, l)] and a connection
    [(cr, cr2, evidence)]. *)
Definition evidence : Type := list node * Z.
Definition connection : Type := Z * Z * list evidence.

(** The attributes of the object; dictionaries keep their insertion
    order.  The threshold is a float, or an int held as the float equal
    to it. *)
Record t := {
  regions : list (Z * region);
  connection_threshold : float;
  crossroads : list Z;
  links : list Z;
  regionsByNode : list (node * list Z);
  adjacencies : list (Z * list (Z * list node));
  connected_crossroads : list connection;
}.

Section Init.

Variable regions_ : list (Z * region).
Variable connection_threshold_ : float.

Fixpoint classify (rids : list Z) (crossroads links : list Z)
    : res (list Z * list Z) :=
  match rids with
  | [] => mret (crossroads, links)
  | rid :: rids =>
      r ← Py.getitem regions_ rid;
      if is_crossroad r then classify rids (crossroads ++ [rid]) links
      else if is_link r then classify rids crossroads (links ++ [rid])
      else classify rids crossroads links
  end.

Definition add_node_region (regionsByNode : list (node * list Z))
    (rid : Z) (nid : node) : list (node * list Z) :=
  let regionsByNode :=
    if negb (Py.contains regionsByNode nid)
    then Py.set regionsByNode nid [] else regionsByNode in
  match Py.get regionsByNode nid with
  | Some l => Py.set regionsByNode nid (l ++ [rid])
  | None => regionsByNode
  end.

Fixpoint index_nodes (rids : list Z) (regionsByNode : list (node * list Z))
    : res (list (node * list Z)) :=
  match rids with
  | [] => mret regionsByNode
  | rid :: rids =>
      r ← Py.getitem regions_ rid;
      index_nodes rids
        (fold_left (fun m n => add_node_region m rid n) (nodes r) regionsByNode)
  end.

Section WithKinds.

Variable crossroads_ links_ : list Z.

Definition get_typology (rid : Z) : Z :=
  if Py.mem rid crossroads_ then typology_crossroad
  else if Py.mem rid links_ then typology_link
  else typology_unknown.

Fixpoint add_adjacencies_loop (r1 : Z) (n : node) (rs : list Z)
    (adj1 : list (Z * list node)) : list (Z * list node) :=
  match rs with
  | [] => adj1
  | r2 :: rs =>
      if bool_decide (r2 ≠ r1)
         && bool_decide (get_typology r1 ≠ get_typology r2)
      then
        let adj1 :=
          if negb (Py.contains adj1 r2) then Py.set adj1 r2 [] else adj1 in
        let adj1 :=
          match Py.get adj1 r2 with
          | Some l => Py.set adj1 r2 (l ++ [n])
          | None => adj1
          end in
        add_adjacencies_loop r1 n rs adj1
      else add_adjacencies_loop r1 n rs adj1
  end.

Definition add_adjacencies (adjacencies : list (Z * list (Z * list node)))
    (r1 : Z) (n : node) (rs : list Z) : list (Z * list (Z * list node)) :=
  let adjacencies :=
    if negb (Py.contains adjacencies r1)
    then Py.set adjacencies r1 [] else adjacencies in
  match Py.get adjacencies r1 with
  | Some adj1 => Py.set adjacencies r1 (add_adjacencies_loop r1 n rs adj1)
  | None => adjacencies
  end.

Definition build_adjacencies (regionsByNode : list (node * list Z))
    : list (Z * list (Z * list node)) :=
  fold_left
    (fun adjacencies '(n, rs) =>
       fold_left (fun adjacencies r1 => add_adjacencies adjacencies r1 n rs)
                 rs adjacencies)
    regionsByNode [].

End WithKinds.

Variable regionsByNode_ : list (node * list Z).
Variable adjacencies_ : list (Z * list (Z * list node)).

Fixpoint nodes_shared_with (cr : Z) (ns : list node) : res (list node) :=
  match ns with
  | [] => mret []
  | n :: ns =>
      rs ← Py.getitem regionsByNode_ n;
      rest ← nodes_shared_with cr ns;
      mret (if Py.mem cr rs then n :: rest else rest)
  end.

Definition get_path_in_link (l cr1 cr2 : Z) : res (list node * float) :=
  rl ← Py.getitem regions_ l;
  cr1n ← nodes_shared_with cr1 (nodes rl);
  cr2n ← nodes_shared_with cr2 (nodes rl);
  mret (get_path rl cr1n cr2n).

Fixpoint connections_of_link (cr l : Z) (cr2s : list Z)
    (acc : list (Z * Z * evidence)) : res (list (Z * Z * evidence)) :=
  match cr2s with
  | [] => mret acc
  | cr2 :: cr2s =>
      r ← Py.getitem regions_ cr;
      r2 ← Py.getitem regions_ cr2;
      if id r <? id r2 then
        '(path, distance) ← get_path_in_link l cr cr2;
        if PrimFloat.ltb distance
             (PrimFloat.mul (Py.max2 (max_branch_width r) (max_branch_width r2))
                            connection_threshold_)
        then connections_of_link cr l cr2s (acc ++ [(cr, cr2, (path, l))])
        else connections_of_link cr l cr2s acc
      else connections_of_link cr l cr2s acc
  end.

Fixpoint connections_of_crossroad (cr : Z) (ls : list Z)
    (acc : list (Z * Z * evidence)) : res (list (Z * Z * evidence)) :=
  match ls with
  | [] => mret acc
  | l :: ls =>
      adjl ← Py.getitem adjacencies_ l;
      acc ← connections_of_link cr l (adjl.*1) acc;
      connections_of_crossroad cr ls acc
  end.

Fixpoint compute_initial_connections_loop (crs : list Z)
    (acc : list (Z * Z * evidence)) : res (list (Z * Z * evidence)) :=
  match crs with
  | [] => mret acc
  | cr :: crs =>
      adjcr ← Py.getitem adjacencies_ cr;
      acc ← connections_of_crossroad cr (adjcr.*1) acc;
      compute_initial_connections_loop crs acc
  end.

Definition compute_initial_connections (crossroads_ : list Z)
    : res (list (Z * Z * evidence)) :=
  compute_initial_connections_loop crossroads_ [].

(** The dictionary [merged] of [compute_connected_crossroads]. *)
Definition merge_connection (merged : list (Z * Z * list evidence))
    (c : Z * Z * evidence) : list (Z * Z * list evidence) :=
  let '(c0, c1, c2) := c in
  match Py.get merged (c0, c1) with
  | Some l => Py.set merged (c0, c1) (l ++ [c2])
  | None => Py.set merged (c0, c1) [c2]
  end.

Definition compute_connected_crossroads (crossroads_ : list Z)
    : res (list connection) :=
  initial ← compute_initial_connections crossroads_;
  let merged := fold_left merge_connection initial [] in
  mret ((fun '(c, ev) => (c.1, c.2, ev)) <$> merged).

End Init.

(** [CrossroadConnections(regions, connection_threshold)] *)
Definition init (regions_ : list (Z * region)) (connection_threshold_ : float)
    : res t :=
  '(crossroads_, links_) ← classify regions_ (regions_.*1) [] [];
  regionsByNode_ ← index_nodes regions_ (regions_.*1) [];
  let adjacencies_ := build_adjacencies crossroads_ links_ regionsByNode_ in
  connected ←
    compute_connected_crossroads regions_ connection_threshold_
      regionsByNode_ adjacencies_ crossroads_;
  mret {| regions := regions_;
          connection_threshold := connection_threshold_;
          crossroads := crossroads_;
          links := links_;
          regionsByNode := regionsByNode_;
          adjacencies := adjacencies_;
          connected_crossroads := connected |}.

Definition get_pairs (self : t) : list connection :=
  List.filter (fun connected => (1 <? length connected.2)%nat)
              (connected_crossroads self).

Definition get_connected_crossroads (self : t) (cr : Z)
    : list (Z * list evidence) :=
  flat_map
    (fun connected : connection =>
       let '(c0, c1, c2) := connected in
       if bool_decide (c0 = cr) then [(c1, c2)]
       else if bool_decide (c1 = cr) then [(c0, c2)]
       else [])
    (connected_crossroads self).

Definition contains_link (nextpathlinks : list evidence)
    (path : list (Z * list evidence)) : bool :=
  let n_links := snd <$> nextpathlinks in
  existsb (fun p => existsb (fun l : evidence => Py.mem l.2 n_links) p.2) path.

(** A cycle, and a partial walk: pairs of a crossroad and the evidence
    of the connection that leads to it. *)
Definition cycle : Type := list (Z * list evidence).

Fixpoint extend_path (p : cycle) (nexts : list (Z * list evidence))
    (results new_paths : list cycle) : res (list cycle * list cycle) :=
  match nexts with
  | [] => mret (results, new_paths)
  | next :: nexts =>
      go ←
        (if (length p =? 1)%nat then mret true
         else
           before ← Py.index p (-2);
           mret (bool_decide (before.1 ≠ next.1)
                 && negb (contains_link next.2 p)));
      if (go : bool) then
        start ← Py.index p 0;
        if bool_decide (next.1 = start.1)
        then extend_path p nexts (results ++ [p ++ [next]]) new_paths
        else extend_path p nexts results (new_paths ++ [p ++ [next]])
      else extend_path p nexts results new_paths
  end.

Fixpoint extend_paths (self : t) (paths : list cycle)
    (results new_paths : list cycle) : res (list cycle * list cycle) :=
  match paths with
  | [] => mret (results, new_paths)
  | p :: paths =>
      last ← Py.index p (-1);
      '(results, new_paths) ←
        extend_path p (get_connected_crossroads self last.1) results new_paths;
      extend_paths self paths results new_paths
  end.

(** [for l in range(0, max_length)] *)
Fixpoint cycles_steps (self : t) (steps : nat) (paths results : list cycle)
    : res (list cycle) :=
  match steps with
  | O => mret results
  | S steps =>
      '(results, new_paths) ← extend_paths self paths results [];
      cycles_steps self steps new_paths results
  end.

Definition get_cycles_from_crossroad (self : t) (cr : Z) (max_length : Z)
    : res (list cycle) :=
  cycles_steps self (Z.to_nat max_length) [[(cr, [])]] [].

Fixpoint get_unique_cycles_loop (cycles result : list cycle)
    (seen : list (gset Z)) : list cycle :=
  match cycles with
  | [] => result
  | c :: cycles =>
      let celems : gset Z := list_to_set (fst <$> c) in
      if negb (Py.mem celems seen)
      then get_unique_cycles_loop cycles (result ++ [c]) (seen ++ [celems])
      else get_unique_cycles_loop cycles result seen
  end.

Definition get_unique_cycles (cycles : list cycle) : list cycle :=
  get_unique_cycles_loop cycles [] [].

Fixpoint collect_cycles (self : t) (crs : list Z) (max_length : Z)
    (results : list cycle) : res (list cycle) :=
  match crs with
  | [] => mret results
  | c :: crs =>
      found ← get_cycles_from_crossroad self c max_length;
      collect_cycles self crs max_length (results ++ found)
  end.

Definition get_cycles (self : t) (max_length : Z) : res (list cycle) :=
  results ← collect_cycles self (crossroads self) max_length [];
  mret (get_unique_cycles results).

End CrossroadConnections.

(** ** [get-crossroad-description.py] *)

Module Script.

(** The namespace [parser.parse_args()] returns.  A file argument is
    the name of the file; an option that was not given is [None]. *)
Record args := {
  by_coordinates : option (Q * Q);
  by_name : option string;
  from_graphml : option string;
  radius : Q;
  connection_intensity : Q;
  max_cycle_elements : Z;
  verbose : bool;
  skip_processing : bool;
  multiscale : bool;
  display : bool;
  display_reliability : bool;
  display_segmentation : bool;
  display_main_crossroad : bool;
  to_text_all : bool;
  to_text : bool;
  to_gexf : option string;
  to_graphml : option string;
  to_json_all : option string;
  to_json : option string;
}.

(** What the script does, in order: the lines it prints and the calls
    it makes to [osmnx], [networkx] and [crseg.segmentation].  The graph
    and the segmentation they act on are left out. *)
Inductive event :=
| Print (line : string)
| PrintType                      (* print(type(G)) *)
| PrintCoordinates               (* print("Coordinates:", latitude, longitude) *)
| PrintRadius                    (* print("Radius:", radius) *)
| LoadGraphml (file : string)    (* ox.io.load_graphml, then G.graph["cr. ..."] *)
| GraphFromPoint                 (* ox.graph_from_point *)
| RemoveFootwaysAndParkings      (* cs.Segmentation.remove_footways_and_parkings *)
| GetUndirected                  (* ox.utils_graph.get_undirected *)
| SegmentationWithoutInit        (* cs.Segmentation(G, False) *)
| Segmentation (connection_intensity : Q) (max_cycle_elements : Z)
| PlotReliability                (* reliability colors, ox.plot.plot_graph *)
| Process                        (* seg.process() *)
| ToTextAll (multiscale : bool)  (* print(seg.to_text_all(multiscale)) *)
| ToText (multiscale : bool)     (* print(seg.to_text(longitude, latitude, multiscale)) *)
| ToJson (file : string) (multiscale : bool)
| ToJsonAll (file : string) (multiscale : bool)
| PlotRegionsClass               (* regions class colors, ox.plot.plot_graph *)
| PlotSegmentation               (* regions colors, ox.plot.plot_graph *)
| PlotMainCrossroad (multiscale : bool)
| PopGeometry                    (* d.pop("geometry", None) on every edge *)
| WriteGexf (file : string)      (* nx.write_gexf *)
| StoreParameters                (* G.graph["cr. ..."] = ..., the region tags *)
| SaveGraphml (file : string).   (* ox.io.save_graphml *)

(** The truth value of an optional argument. *)
Definition given {A} (o : option A) : bool :=
  match o with Some _ => true | None => false end.

(** [if b: ...] *)
Definition when (b : bool) (es : list event) : list event :=
  if b then es else [].

(** [if o: ...], for an optional file argument. *)
Definition with_file (o : option string) (es : string -> list event) : list event :=
  match o with Some file => es file | None => [] end.

Definition multiscale_warning : event :=
  Print "Warning: this display do not handle multiscale option".

(** The body of the script after [args = parser.parse_args()]. *)
Definition main (a : args) : list event :=
  (* load data *)
  when (verbose a) [Print "=== DOWNLOADING DATA ==="]
  ++ match from_graphml a with
     | Some file => [LoadGraphml file; PrintType]
     | None =>
         [GraphFromPoint]
         ++ when (verbose a) [Print "=== PREPROCESSING (1) ==="]
         ++ [RemoveFootwaysAndParkings]
         ++ when (verbose a) [Print "=== PREPROCESSING (2) ==="]
         ++ [GetUndirected]
     end
  ++ when (verbose a) [PrintCoordinates; PrintRadius]
  ++ (if skip_processing a
      then [Print "=== SKIP INITIALISATION ==="; SegmentationWithoutInit]
      else when (verbose a) [Print "=== INITIALISATION ==="]
           ++ [Segmentation (connection_intensity a) (max_cycle_elements a)])
  ++ when (display_reliability a)
       ([Print "=== RENDERING RELIABILITY ==="]
        ++ when (multiscale a) [multiscale_warning]
        ++ [PlotReliability])
  ++ (if skip_processing a
      then [Print "=== SKIP SEGMENTATION ==="]
      else when (display a || display_segmentation a || to_text a || to_text_all a
                 || given (to_gexf a) || given (to_json a) || given (to_json_all a)
                 || given (to_graphml a) || display_main_crossroad a)
             (when (verbose a) [Print "=== SEGMENTATION ==="] ++ [Process]))
  ++ when (to_text_all a)
       (when (verbose a) [Print "=== TEXT OUTPUT ==="] ++ [ToTextAll (multiscale a)])
  ++ when (to_text a)
       (when (verbose a) [Print "=== TEXT OUTPUT ==="] ++ [ToText (multiscale a)])
  ++ with_file (to_json a) (fun file =>
       when (verbose a) [Print "=== EXPORT IN JSON ==="]
       ++ [ToJson file (multiscale a)])
  ++ with_file (to_json_all a) (fun file =>
       when (verbose a) [Print "=== EXPORT IN JSON ==="]
       ++ [ToJsonAll file (multiscale a)])
  ++ when (display a)
       (when (verbose a) [Print "=== RENDERING ==="]
        ++ when (multiscale a) [multiscale_warning]
        ++ [PlotRegionsClass])
  ++ when (display_segmentation a)
       (when (verbose a) [Print "=== RENDERING SEGMENTATION ==="]
        ++ when (multiscale a) [multiscale_warning]
        ++ [PlotSegmentation])
  ++ when (display_main_crossroad a)
       (when (verbose a) [Print "=== RENDERING MAIN CROSSROAD ==="]
        ++ [PlotMainCrossroad (multiscale a)])
  ++ with_file (to_gexf a) (fun file =>
       when (verbose a) [Print "=== EXPORT IN GEXF ==="]
       ++ [PopGeometry; WriteGexf file])
  ++ with_file (to_graphml a) (fun file =>
       when (verbose a)
         [Print "=== EXPORT IN GraphML ==="; StoreParameters; SaveGraphml file]).

End Script.

(** ** The reference normalisation of highway tags, as the specification
    words it *)

Module Reference.

Definition priority_table : list string :=
  [ "motorway"; "trunk"; "primary"; "secondary"; "tertiary";
    "unclassified"; "residential"; "living_street"; "service"; "default" ].

(** [strip_link s] is [Some base] when [s] is [base ++ "_link"]. *)
Definition strip_link (s : string) : option string :=
  let n := String.length s in
  if (5 <=? n)%nat && String.eqb (String.substring (n - 5) 5 s) "_link"
  then Some (String.substring 0 (n - 5) s)
  else None.

Definition classification_spec (tag : option string) : string :=
  match tag with
  | None => "default"
  | Some h =>
      if bool_decide (h ∈ priority_table) then h
      else match strip_link h with
           | Some base =>
               if bool_decide (base ∈ priority_table) then base else "default"
           | None => "default"
           end
  end.

(** The branches of a boundary node other than the center, as the
    specification words them: one branch per incident edge that is not
    part of the region, its angle the bearing from the center to the
    far endpoint of the edge, its name the name of the edge. *)
Definition branches_of_boundary_node_spec (G : Graph.t) (U : Util.t)
    (self : Region.t) (center border : node)
    : res (list BranchDescription.t) :=
  nbs ← Graph.neighbors G border;
  mapM (fun nb =>
          e ← Graph.edge G border nb;
          mret {| BranchDescription.angle := Util.bearing U center nb;
                  BranchDescription.name := e !! "name" |})
       (List.filter (fun nb => negb (Region.has_edge self (nb, border))) nbs).

End Reference.

(** ** A small road network used to run the code

    Two junctions [0] and [4] joined through the node [3] of a
    roundabout; [1], [2], [5] and [6] are the ends of the approach
    roads. *)

Module Example.

Definition plain : gmap string string :=
  {[ "highway" := "residential"; "name" := "Rue A" ]}.

Definition ring : gmap string string :=
  {[ "highway" := "primary"; "junction" := "roundabout"; "name" := "Ring" ]}.

Definition G : Graph.t :=
  {| Graph.nodes := [0; 1; 2; 3; 4; 5; 6];
     Graph.adj :=
       list_to_map
         [ (0, [(1, plain); (2, plain); (3, ring)]);
           (1, [(0, plain)]);
           (2, [(0, plain)]);
           (3, [(0, ring); (4, ring)]);
           (4, [(3, ring); (5, plain); (6, plain)]);
           (5, [(4, plain)]);
           (6, [(4, plain)]) ] |}.

Definition U : Util.t :=
  {| Util.distance := fun a b => Py.float_of_int (Z.abs (a - b));
     Util.sum := Py.sum_left;
     Util.bearing := fun a b => inject_Z (10 * a + b);
     Util.length := fun p => inject_Z (Z.of_nat (length p));
     Util.get_path_to_biffurcation := fun a b _ => [a; b] |}.

Definition R : Reliability.t :=
  {| Reliability.is_weakly_boundary := fun n => bool_decide (n = 3);
     Reliability.is_strong_boundary := fun n => bool_decide (n = 3);
     Reliability.is_weakly_in_crossroad := fun n => bool_decide (n = 0 \/ n = 4);
     Reliability.is_strong_in_crossroad := fun n => false;
     Reliability.is_weakly_in_crossroad_edge := fun _ => false |}.

(** A boundary test: some incident edge is not in the region. *)
Definition is_boundary_node (r : Region.t) (n : node) : bool :=
  match Graph.neighbors G n with
  | Ok nbs => existsb (fun nb => negb (Region.has_edge r (nb, n))) nbs
  | Raise _ => false
  end.

Definition B : BranchDescription.ops :=
  {| BranchDescription.is_similar := fun b1 b2 =>
       bool_decide (BranchDescription.name b1 = BranchDescription.name b2);
     BranchDescription.is_orthogonal := fun _ _ => true |}.

(** The two crossroads [build_crossroads] keeps on this network. *)
Definition crossroad_0 : Crossroad.t :=
  {| Crossroad.region :=
       {| Region.id := 0; Region.nodes := [0; 3]; Region.edges := [(0, 3)] |};
     Crossroad.branches :=
       [ {| BranchDescription.angle := 1%Q; BranchDescription.name := Some "Rue A" |};
         {| BranchDescription.angle := 2%Q; BranchDescription.name := Some "Rue A" |};
         {| BranchDescription.angle := 3%Q; BranchDescription.name := Some "Ring" |} ] |}.

Definition crossroad_1 : Crossroad.t :=
  {| Crossroad.region :=
       {| Region.id := 1; Region.nodes := [4; 3]; Region.edges := [(4, 3)] |};
     Crossroad.branches :=
       [ {| BranchDescription.angle := 45%Q; BranchDescription.name := Some "Rue A" |};
         {| BranchDescription.angle := 46%Q; BranchDescription.name := Some "Rue A" |};
         {| BranchDescription.angle := 43%Q; BranchDescription.name := Some "Ring" |} ] |}.

Definition final_world : Region.world :=
  {| Region.node_label := list_to_map [(0, 0); (3, 1); (4, 1)];
     Region.edge_label := list_to_map [((0, 3), 0); ((3, 4), 1)];
     Region.id_region := 2;
     Region.stdout := [] |}.

(** Region sets for the connection graph: two crossroads joined by one
    link of length [len], and three crossroads joined pairwise by three
    links. *)
Definition crossroad_region (i : Z) (ns : list node) (width : float)
    : CrossroadConnections.region :=
  {| CrossroadConnections.id := i;
     CrossroadConnections.nodes := ns;
     CrossroadConnections.is_crossroad := true;
     CrossroadConnections.is_link := false;
     CrossroadConnections.max_branch_width := width;
     CrossroadConnections.get_path := fun _ _ => ([], 0%float) |}.

Definition link_region (i : Z) (ns : list node) (width len : float)
    : CrossroadConnections.region :=
  {| CrossroadConnections.id := i;
     CrossroadConnections.nodes := ns;
     CrossroadConnections.is_crossroad := false;
     CrossroadConnections.is_link := true;
     CrossroadConnections.max_branch_width := width;
     CrossroadConnections.get_path := fun _ _ => (ns, len) |}.

Definition pair_regions (len : float) : list (Z * CrossroadConnections.region) :=
  [ (0, crossroad_region 0 [1; 2] 10%float);
    (1, crossroad_region 1 [3; 4] 10%float);
    (2, link_region 2 [2; 5; 3] 5%float len) ].

Definition pair_state (len : float) (connected : list CrossroadConnections.connection)
    : CrossroadConnections.t :=
  {| CrossroadConnections.regions := pair_regions len;
     CrossroadConnections.connection_threshold := 2%float;
     CrossroadConnections.crossroads := [0; 1];
     CrossroadConnections.links := [2];
     CrossroadConnections.regionsByNode :=
       [(1, [0]); (2, [0; 2]); (3, [1; 2]); (4, [1]); (5, [2])];
     CrossroadConnections.adjacencies :=
       [(0, [(2, [2])]); (2, [(0, [2]); (1, [3])]); (1, [(2, [3])])];
     CrossroadConnections.connected_crossroads := connected |}.

Definition triangle_regions : list (Z * CrossroadConnections.region) :=
  [ (0, crossroad_region 0 [1; 2] 10%float);
    (1, crossroad_region 1 [3; 4] 10%float);
    (2, crossroad_region 2 [5; 6] 10%float);
    (3, link_region 3 [2; 3] 5%float 5%float);
    (4, link_region 4 [4; 5] 5%float 5%float);
    (5, link_region 5 [6; 1] 5%float 5%float) ].

Definition triangle_state : CrossroadConnections.t :=
  {| CrossroadConnections.regions := triangle_regions;
     CrossroadConnections.connection_threshold := 2%float;
     CrossroadConnections.crossroads := [0; 1; 2];
     CrossroadConnections.links := [3; 4; 5];
     CrossroadConnections.regionsByNode :=
       [(1, [0; 5]); (2, [0; 3]); (3, [1; 3]); (4, [1; 4]); (5, [2; 4]); (6, [2; 5])];
     CrossroadConnections.adjacencies :=
       [ (0, [(5, [1]); (3, [2])]); (5, [(0, [1]); (2, [6])]);
         (3, [(0, [2]); (1, [3])]); (1, [(3, [3]); (4, [4])]);
         (4, [(1, [4]); (2, [5])]); (2, [(4, [5]); (5, [6])]) ];
     CrossroadConnections.connected_crossroads :=
       [ (0, 2, [([6; 1], 5)]); (0, 1, [([2; 3], 3)]); (1, 2, [([4; 5], 4)]) ] |}.

(** A region that is neither a crossroad nor a link. *)
Definition other_region (i : Z) (ns : list node) (len : float)
    : CrossroadConnections.region :=
  {| CrossroadConnections.id := i;
     CrossroadConnections.nodes := ns;
     CrossroadConnections.is_crossroad := false;
     CrossroadConnections.is_link := false;
     CrossroadConnections.max_branch_width := 5%float;
     CrossroadConnections.get_path := fun _ _ => (ns, len) |}.

(** Two crossroads joined by one link and by one region of neither
    kind. *)
Definition mixed_regions : list (Z * CrossroadConnections.region) :=
  [ (0, crossroad_region 0 [1; 2] 10%float);
    (1, crossroad_region 1 [3; 4] 10%float);
    (2, link_region 2 [2; 5; 3] 5%float 15%float);
    (3, other_region 3 [1; 6; 4] 15%float) ].

(** Two crossroads of branch width 3 joined by one link of length
    [len]. *)
Definition narrow_regions (len : float) : list (Z * CrossroadConnections.region) :=
  [ (0, crossroad_region 0 [1; 2] 3%float);
    (1, crossroad_region 1 [3; 4] 3%float);
    (2, link_region 2 [2; 5; 3] 5%float len) ].

(** The floats Python writes [2.4], [7.199999999999999] and
    [1.3333333333333333]. *)
Definition f_2_4 : float := 0x1.3333333333333p+1%float.
Definition f_7_199999999999999 : float := 0x1.cccccccccccccp+2%float.
Definition f_1_3333333333333333 : float := 0x1.5555555555555p+0%float.

(** A crossroad of center [0] whose borders [1], [2] and [3] are at the
    distances 0, 1 and 0 of the center, and a crossroad of center [9]
    at the distance 1.3333333333333333. *)
Definition U_mean : Util.t :=
  {| Util.distance := fun _ b =>
       if decide (b = 2) then 1%float
       else if decide (b = 9) then f_1_3333333333333333 else 0%float;
     Util.sum := Py.sum_left;
     Util.bearing := fun _ _ => 0%Q;
     Util.length := fun _ => 0%Q;
     Util.get_path_to_biffurcation := fun a b _ => [a; b] |}.

Definition is_border_mean (_ : Region.t) (n : node) : bool :=
  bool_decide (n = 1 \/ n = 2 \/ n = 3).

Definition crossroad_mean : Crossroad.t :=
  {| Crossroad.region :=
       {| Region.id := 0; Region.nodes := [0; 1; 2; 3]; Region.edges := [] |};
     Crossroad.branches := [] |}.

Definition crossroad_9 : Crossroad.t :=
  {| Crossroad.region :=
       {| Region.id := 1; Region.nodes := [9]; Region.edges := [] |};
     Crossroad.branches := [] |}.

(** The cycle [get_cycles] reports for the triangle. *)
Definition triangle_cycle : CrossroadConnections.cycle :=
  [ (0, []); (2, [([6; 1], 5)]); (1, [([4; 5], 4)]); (0, [([2; 3], 3)]) ].


(** A reliability for the approach road [0 - 1]: the junction [0] is in
    a crossroad, the end [1] of the road is a boundary. *)
Definition R_approach : Reliability.t :=
  {| Reliability.is_weakly_boundary := fun n => bool_decide (n = 1);
     Reliability.is_strong_boundary := fun n => false;
     Reliability.is_weakly_in_crossroad := fun n => bool_decide (n = 0);
     Reliability.is_strong_in_crossroad := fun n => false;
     Reliability.is_weakly_in_crossroad_edge := fun _ => false |}.

(** A reliability that trusts no node and no edge. *)
Definition R_none : Reliability.t :=
  {| Reliability.is_weakly_boundary := fun n => false;
     Reliability.is_strong_boundary := fun n => false;
     Reliability.is_weakly_in_crossroad := fun n => false;
     Reliability.is_strong_in_crossroad := fun n => false;
     Reliability.is_weakly_in_crossroad_edge := fun _ => false |}.

(** Branches that are never similar. *)
Definition B_none : BranchDescription.ops :=
  {| BranchDescription.is_similar := fun _ _ => false;
     BranchDescription.is_orthogonal := fun _ _ => true |}.

(** Branches that are all similar; only a branch named "X" is
    orthogonal to a direction. *)
Definition B_x : BranchDescription.ops :=
  {| BranchDescription.is_similar := fun _ _ => true;
     BranchDescription.is_orthogonal := fun b _ =>
       bool_decide (BranchDescription.name b = Some "X") |}.

(** Two crossroads of centers [0] and [1]; the second one has a branch
    named "X". *)
Definition crossroad_a : Crossroad.t :=
  {| Crossroad.region :=
       {| Region.id := 0; Region.nodes := [0]; Region.edges := [] |};
     Crossroad.branches :=
       [ {| BranchDescription.angle := 0%Q; BranchDescription.name := Some "A" |} ] |}.

Definition crossroad_x : Crossroad.t :=
  {| Crossroad.region :=
       {| Region.id := 1; Region.nodes := [1]; Region.edges := [] |};
     Crossroad.branches :=
       [ {| BranchDescription.angle := 0%Q; BranchDescription.name := Some "X" |} ] |}.

(** A road [0 - 1 - 2 - 3] without junction; [2] is a weak boundary. *)
Definition chain : Graph.t :=
  {| Graph.nodes := [0; 1; 2; 3];
     Graph.adj :=
       list_to_map
         [ (0, [(1, plain)]);
           (1, [(0, plain); (2, plain)]);
           (2, [(1, plain); (3, plain)]);
           (3, [(2, plain)]) ] |}.

Definition R_chain : Reliability.t :=
  {| Reliability.is_weakly_boundary := fun n => bool_decide (n = 2);
     Reliability.is_strong_boundary := fun n => false;
     Reliability.is_weakly_in_crossroad := fun n => false;
     Reliability.is_strong_in_crossroad := fun n => false;
     Reliability.is_weakly_in_crossroad_edge := fun _ => false |}.

(** The command line [--by-coordinates 45.77 3.09 --to-json out.json]. *)
Definition json_args : Script.args :=
  {| Script.by_coordinates := Some (45.77%Q, 3.09%Q);
     Script.by_name := None;
     Script.from_graphml := None;
     Script.radius := 150%Q;
     Script.connection_intensity := 2%Q;
     Script.max_cycle_elements := 10;
     Script.verbose := false;
     Script.skip_processing := false;
     Script.multiscale := false;
     Script.display := false;
     Script.display_reliability := false;
     Script.display_segmentation := false;
     Script.display_main_crossroad := false;
     Script.to_text_all := false;
     Script.to_text := false;
     Script.to_gexf := None;
     Script.to_graphml := None;
     Script.to_json_all := None;
     Script.to_json := Some "out.json" |}.

End Example.

(** ** Notions used in the statements *)

Definition degree_at_most_2 (G : Graph.t) (n : node) : Prop :=
  exists nbs, Graph.neighbors G n = Ok nbs /\ (length nbs <= 2)%nat.

Definition degree_above_2 (G : Graph.t) (n : node) : Prop :=
  exists nbs, Graph.neighbors G n = Ok nbs /\ (2 < length nbs)%nat.

(** The member-node sets of the crossroads of a collection are pairwise
    disjoint. *)
Definition no_overlap (cs : list Crossroad.t) : Prop :=
  forall i j c1 c2,
    cs !! i = Some c1 -> cs !! j = Some c2 -> i ≠ j ->
    forall n, n ∈ Region.nodes (Crossroad.region c1) ->
              n ∉ Region.nodes (Crossroad.region c2).

(** [grown_in_run fuel w ns c n]: the loop of [build_crossroads],
    started in the world [w] on the nodes [ns], comes to the node [n]
    in a world [w1] in which [n] is in no known region, and growing a
    region from [n] in [w1] gives the crossroad [c].  The world [w1] is
    the one the loop has made of [w] on the nodes before [n]. *)
Definition grown_in_run (G : Graph.t) (U : Util.t) (R : Reliability.t)
    (is_boundary_node : Region.t -> node -> bool) (fuel : nat)
    (w : Region.world) (ns : list node) (c : Crossroad.t) (n : node) : Prop :=
  exists before after cs1 w1 w2,
    ns = before ++ n :: after
    /\ Crossroad.build_crossroads_loop G U R is_boundary_node fuel before w []
       = Ok (cs1, w1)
    /\ Region.unknown_region_node_in_graph w1 n = true
    /\ Crossroad.init G U R is_boundary_node fuel w1 n = Ok (c, w2).

(** The branches [get_branches_description_from_node] gives a border:
    one per neighbour whose edge to the border is part of the region,
    all with the bearing of the border itself. *)
Definition border_branches (G : Graph.t) (U : Util.t) (self : Region.t)
    (center b : node) (chunk : list BranchDescription.t) : Prop :=
  exists nbs,
    Graph.neighbors G b = Ok nbs
    /\ Forall2
         (fun nb br =>
            BranchDescription.angle br = Util.bearing U center b
            /\ exists e, Graph.edge G nb b = Ok e
                         /\ BranchDescription.name br = e !! "name")
         (List.filter (fun nb => Region.has_edge self (nb, b)) nbs) chunk.

(** The branches of a region as the specification words them: every
    boundary node [b] other than the center has, for each incident edge
    [(b, nb)] that is not part of the region, a branch whose angle is
    the bearing from the center to [nb] and whose name is the name of
    that edge. *)
Definition external_branches (G : Graph.t) (U : Util.t)
    (is_boundary_node : Region.t -> node -> bool) (self : Region.t)
    (bs : list BranchDescription.t) : Prop :=
  forall center b nb e,
    Crossroad.getCenter self = Ok center ->
    b ∈ Region.nodes self ->
    is_boundary_node self b = true ->
    b ≠ center ->
    (exists nbs, Graph.neighbors G b = Ok nbs /\ nb ∈ nbs) ->
    Region.has_edge self (nb, b) = false ->
    Graph.edge G b nb = Ok e ->
    exists br,
      br ∈ bs
      /\ Qeq (BranchDescription.angle br) (Util.bearing U center nb)
      /\ BranchDescription.name br = e !! "name".

(** The pair of region keys [(a, b)] is canonically ordered: the id of
    the region of key [a] is less than the id of the region of key [b]. *)
Definition ordered_pair (regions : list (Z * CrossroadConnections.region))
    (k : Z * Z) : Prop :=
  exists ra rb,
    Py.get regions k.1 = Some ra /\ Py.get regions k.2 = Some rb
    /\ CrossroadConnections.id ra < CrossroadConnections.id rb.

(** The connections of a list that join the pair of keys [k]. *)
Definition of_pair {X} (k : Z * Z) (cs : list (Z * Z * X)) : list (Z * Z * X) :=
  List.filter (fun c => bool_decide (c.1 = k)) cs.

(** The regions adjacent to [a] to which [b] is adjacent in turn: the
    regions, links or not, through which [compute_initial_connections]
    goes from [a] to [b]. *)
Definition regions_between (adjacencies : list (Z * list (Z * list node)))
    (a b : Z) : list Z :=
  match Py.get adjacencies a with
  | Some adja =>
      List.filter
        (fun l => match Py.get adjacencies l with
                  | Some adjl => Py.mem b adjl.*1
                  | None => false
                  end)
        adja.*1
  | None => []
  end.

(** What the link [l] contributes to the pair [(a, b)] when [b] is
    adjacent to it. *)
Definition pair_evidence (regions : list (Z * CrossroadConnections.region))
    (threshold : float) (regionsByNode : list (node * list Z)) (a b l : Z)
    : list (Z * Z * CrossroadConnections.evidence) :=
  match Py.get regions a, Py.get regions b,
        CrossroadConnections.get_path_in_link regions regionsByNode l a b with
  | Some ra, Some rb, Ok (path, d) =>
      if (CrossroadConnections.id ra <? CrossroadConnections.id rb)
         && PrimFloat.ltb d
              (PrimFloat.mul (Py.max2 (CrossroadConnections.max_branch_width ra)
                                      (CrossroadConnections.max_branch_width rb))
                             threshold)
      then [(a, b, (path, l))] else []
  | _, _, _ => []
  end.

(** What the adjacency of [a] contributes to the pair [(a, b)]. *)
Definition link_evidence (regions : list (Z * CrossroadConnections.region))
    (threshold : float) (regionsByNode : list (node * list Z))
    (adjacencies : list (Z * list (Z * list node))) (a b l : Z)
    : list (Z * Z * CrossroadConnections.evidence) :=
  match Py.get adjacencies l with
  | Some adjl =>
      if Py.mem b adjl.*1 then pair_evidence regions threshold regionsByNode a b l
      else []
  | None => []
  end.

(** The adjacency of every region has each neighbour once. *)
Definition inner_keys_NoDup (adjacencies : list (Z * list (Z * list node))) : Prop :=
  Forall (fun e => NoDup e.2.*1) adjacencies.

(** The set of crossroad ids a cycle visits. *)
Definition cycle_ids (c : CrossroadConnections.cycle) : gset Z :=
  list_to_set (fst <$> c).

(** The number of clusters of [result] that claim the crossroad. *)
Definition claimed (cr : Crossroad.t) (result : list (list Crossroad.t)) : nat :=
  length (List.filter (Crossroad.cr_in cr) result).

(** The state of the loops of [get_clusters] is consistent: the members
    of the clusters are visited, no crossroad is claimed by two clusters
    of [result], and none is claimed both by the current cluster and by
    a cluster of [result]. *)
Definition clusters_consistent (visited : list Z) (cluster : list Crossroad.t)
    (result : list (list Crossroad.t)) : Prop :=
  (forall cl x, cl ∈ result -> x ∈ cl -> Region.id (Crossroad.region x) ∈ visited)
  /\ (forall x, x ∈ cluster -> Region.id (Crossroad.region x) ∈ visited)
  /\ (forall cr, (claimed cr result <= 1)%nat)
  /\ (forall cr, Crossroad.cr_in cr cluster = true -> claimed cr result = 0%nat).

(** Two evidence lists use different links. *)
Definition links_disjoint (e1 e2 : list CrossroadConnections.evidence) : Prop :=
  forall l, l ∈ snd <$> e1 -> l ∉ snd <$> e2.

(** [polyline G p]: the path never turns back, and each of its interior
    nodes has exactly two neighbours, the next node among them. *)
Definition polyline (G : Graph.t) (p : list node) : Prop :=
  forall pre a b c post,
    p = pre ++ a :: b :: c :: post ->
    c ≠ a
    /\ exists nbs, Graph.neighbors G b = Ok nbs
                   /\ length nbs = 2%nat /\ c ∈ nbs.

(** The id of the region of a crossroad. *)
Definition crossroad_id (c : Crossroad.t) : Z := Region.id (Crossroad.region c).

(** The test of the loop of [get_crossroads_in_neighborhood]. *)
Definition in_neighborhood (U : Util.t) (self : Crossroad.t) (center : node)
    (radius : float) (c : Crossroad.t) : Prop :=
  crossroad_id c ≠ crossroad_id self
  /\ exists cc, Crossroad.getCenter (Crossroad.region c) = Ok cc
                /\ PrimFloat.ltb (Util.distance U center cc) radius = true.

(** The crossroads that the loops of [get_clusters] hold. *)
Definition members (cluster : list Crossroad.t) (result : list (list Crossroad.t))
    : list Crossroad.t :=
  cluster ++ concat result.

(** The state of the loops of [get_clusters] is a partition in progress:
    every cluster of [result] has two members or more, the crossroads
    held are crossroads of the input already visited, and no crossroad
    id is held twice. *)
Definition partition_state (all : list Crossroad.t) (visited : list Z)
    (cluster : list Crossroad.t) (result : list (list Crossroad.t)) : Prop :=
  Forall (fun cl => (2 <= length cl)%nat) result
  /\ Forall (fun x => x ∈ all /\ crossroad_id x ∈ visited) (members cluster result)
  /\ NoDup (crossroad_id <$> members cluster result).

(** [indexed regionsByNode n rid]: [rid in regionsByNode[n]]. *)
Definition indexed (regionsByNode : list (node * list Z)) (n : node) (rid : Z) : Prop :=
  exists rs, Py.get regionsByNode n = Some rs /\ rid ∈ rs.

(** [n in adj1[r2]], for the adjacency [adj1] of one region. *)
Definition adj_has (adj1 : list (Z * list node)) (r2 : Z) (n : node) : Prop :=
  exists ns, Py.get adj1 r2 = Some ns /\ n ∈ ns.

(** [adjacent adjacencies r1 r2 n]: [n in adjacencies[r1][r2]]. *)
Definition adjacent (adjacencies : list (Z * list (Z * list node)))
    (r1 r2 : Z) (n : node) : Prop :=
  exists adj1, Py.get adjacencies r1 = Some adj1 /\ adj_has adj1 r2 n.

(** No list of shared nodes is empty. *)
Definition nonempty_values (adj1 : list (Z * list node)) : Prop :=
  Forall (fun e => e.2 ≠ []) adj1.

(** [linked adjacencies r1 r2]: [r2 in adjacencies[r1]]. *)
Definition linked (adjacencies : list (Z * list (Z * list node))) (r1 r2 : Z) : Prop :=
  exists adj1, Py.get adjacencies r1 = Some adj1 /\ r2 ∈ adj1.*1.

(** [short_path regions threshold regionsByNode a b path l]: the path the
    link [l] gives between [a] and [b] passes the distance test of
    [compute_initial_connections]. *)
Definition short_path (regions : list (Z * CrossroadConnections.region))
    (threshold : float) (regionsByNode : list (node * list Z))
    (a b : Z) (path : list node) (l : Z) : Prop :=
  exists ra rb d,
    Py.get regions a = Some ra /\ Py.get regions b = Some rb
    /\ CrossroadConnections.get_path_in_link regions regionsByNode l a b = Ok (path, d)
    /\ PrimFloat.ltb d
         (PrimFloat.mul (Py.max2 (CrossroadConnections.max_branch_width ra)
                                 (CrossroadConnections.max_branch_width rb))
                        threshold) = true.

(** A connection that [compute_initial_connections] may append: from a
    crossroad, through a region adjacent to it, to a region adjacent to
    that one, with a path short enough. *)
Definition candidate (regions : list (Z * CrossroadConnections.region))
    (threshold : float) (regionsByNode : list (node * list Z))
    (adjacencies : list (Z * list (Z * list node))) (crossroads : list Z)
    (c : Z * Z * CrossroadConnections.evidence) : Prop :=
  c.1.1 ∈ crossroads
  /\ linked adjacencies c.1.1 c.2.2 /\ linked adjacencies c.2.2 c.1.2
  /\ short_path regions threshold regionsByNode c.1.1 c.1.2 c.2.1 c.2.2.

(** [connected_walk s c]: every entry of [c] after the first is a connection of
    the crossroad of the entry before, with its evidence. *)
Definition connected_walk (s : CrossroadConnections.t) (c : CrossroadConnections.cycle) : Prop :=
  forall i x y,
    c !! i = Some x -> c !! S i = Some y ->
    y ∈ CrossroadConnections.get_connected_crossroads s x.1.

(** No link is used by two entries of [c]. *)
Definition link_simple (c : CrossroadConnections.cycle) : Prop :=
  forall i j x y,
    (i < j)%nat -> c !! i = Some x -> c !! j = Some y -> links_disjoint x.2 y.2.

(** [c] never returns at once to the crossroad it comes from. *)
Definition no_backtrack (c : CrossroadConnections.cycle) : Prop :=
  forall i x z, c !! i = Some x -> c !! S (S i) = Some z -> z.1 ≠ x.1.

(** [c] starts at [(cr, [])] and ends at [cr]. *)
Definition closed_at (cr : Z) (c : CrossroadConnections.cycle) : Prop :=
  head c = Some (cr, []) /\ exists ev, last c = Some (cr, ev).

(** [c] ends at the crossroad it starts from. *)
Definition closed (c : CrossroadConnections.cycle) : Prop :=
  exists x y, head c = Some x /\ last c = Some y /\ y.1 = x.1.

(** The test of [get_cycles_from_crossroad] on a next step. *)
Definition accepted (p : CrossroadConnections.cycle)
    (next : Z * list CrossroadConnections.evidence) : Prop :=
  length p = 1%nat
  \/ exists before,
       p !! (length p - 2)%nat = Some before
       /\ (2 <= length p)%nat
       /\ before.1 ≠ next.1
       /\ CrossroadConnections.contains_link next.2 p = false.

(** [c] extends the walk [p] by one accepted step. *)
Definition extension (s : CrossroadConnections.t)
    (p c : CrossroadConnections.cycle) : Prop :=
  exists next lastp,
    c = p ++ [next]
    /\ last p = Some lastp
    /\ next ∈ CrossroadConnections.get_connected_crossroads s lastp.1
    /\ accepted p next.

(** The state of a connected_walk of the search after [k] steps from [cr]. *)
Definition search_walk (s : CrossroadConnections.t) (cr : Z) (k : nat)
    (p : CrossroadConnections.cycle) : Prop :=
  length p = S k /\ head p = Some (cr, [])
  /\ connected_walk s p /\ link_simple p /\ no_backtrack p.

(** [ob[len(ob) - 2]] is [a] and [ob[len(ob) - 1]] is [b]: the last
    two nodes of the path, or twice its node when it has a single
    one. *)
Definition ends_with (ob : list node) (a b : node) : Prop :=
  (exists pre, ob = pre ++ [a; b]) \/ (ob = [b] /\ a = b).

(** The branches [build_branches_description] gives the center when it
    is a boundary node: one per neighbour whose edge to the center is
    not part of the region, read at the end of the open path that
    leaves the center through this neighbour. *)
Definition center_branches (G : Graph.t) (U : Util.t) (self : Region.t)
    (center : node) (radius : float) (chunk : list BranchDescription.t) : Prop :=
  exists nbs,
    Graph.neighbors G center = Ok nbs
    /\ Forall2
         (fun nb br =>
            exists a b e,
              ends_with (Util.get_path_to_biffurcation U center nb (Some radius)) a b
              /\ Graph.edge G a b = Ok e
              /\ BranchDescription.angle br = Util.bearing U center b
              /\ BranchDescription.name br = e !! "name")
         (List.filter (fun nb => negb (Region.has_edge self (nb, center))) nbs) chunk.

(** The events of the script that give a result of the segmentation to
    the user. *)
Definition is_output (e : Script.event) : bool :=
  match e with
  | Script.ToTextAll _ | Script.ToText _ | Script.ToJson _ _ | Script.ToJsonAll _ _
  | Script.PlotRegionsClass | Script.PlotSegmentation | Script.PlotMainCrossroad _
  | Script.WriteGexf _ | Script.SaveGraphml _ => true
  | _ => false
  end.

(** Unfolds the binds of the error monad once their argument is known. *)
Ltac py_step := cbn [mbind mret res_bind res_ret Py.bind].

(* ================================================================== *)
(** * Properties *)

(** ** Python indexing *)

Section Indexing.
Context {A : Type}.
Implicit Types (l : list A) (x : A).

Lemma index_lookup l (i : nat) x :
  l !! i = Some x -> Py.index l (Z.of_nat i) = Ok x.
Proof.
  intros Hl. pose proof (lookup_lt_Some _ _ _ Hl) as Hlt.
  unfold Py.index.
  destruct (Z.ltb_spec (Z.of_nat i) 0) as [?|_]; [lia|].
  destruct (Z.leb_spec 0 (Z.of_nat i)) as [_|?]; [|lia].
  destruct (Z.ltb_spec (Z.of_nat i) (Z.of_nat (length l))) as [_|?]; [|lia].
  simpl. by rewrite Nat2Z.id, Hl.
Qed.

Lemma index_head l x : head l = Some x -> Py.index l 0 = Ok x.
Proof. intros H. apply (index_lookup l 0). by rewrite <- head_lookup. Qed.

Lemma index_last l x :
  last l = Some x -> Py.index l (Z.of_nat (length l) - 1) = Ok x.
Proof.
  intros H. rewrite last_lookup in H.
  pose proof (lookup_lt_Some _ _ _ H) as Hlt.
  replace (Z.of_nat (length l) - 1) with (Z.of_nat (Nat.pred (length l))) by lia.
  by apply index_lookup.
Qed.
End Indexing.

(** ** Highway classification *)

Lemma in_table_max k :
  Crossroad.in_table k Crossroad.max_distance_boundary_polyline
  = bool_decide (k ∈ Reference.priority_table).
Proof.
  unfold Crossroad.in_table. apply bool_decide_ext.
  rewrite <- elem_of_dom. unfold Crossroad.max_distance_boundary_polyline.
  rewrite dom_list_to_map_L. simpl. unfold Reference.priority_table.
  set_solver.
Qed.

Lemma substring_skip (h s : string) (m : nat) :
  String.substring (String.length h) m (h +:+ s) = String.substring 0 m s.
Proof. induction h as [|c h IH]; simpl; [reflexivity | exact IH]. Qed.

Lemma substring_prefix (h s : string) :
  String.substring 0 (String.length h) (h +:+ s) = h.
Proof.
  induction h as [|c h IH]; simpl.
  - by destruct s.
  - by rewrite IH.
Qed.

Lemma length_append (h s : string) :
  String.length (h +:+ s) = (String.length h + String.length s)%nat.
Proof. induction h as [|c h IH]; simpl; [reflexivity | by rewrite IH]. Qed.

Lemma strip_link_append h : Reference.strip_link (h +:+ "_link") = Some h.
Proof.
  unfold Reference.strip_link. rewrite length_append. simpl String.length.
  replace (String.length h + 5 - 5)%nat with (String.length h) by lia.
  rewrite substring_skip, substring_prefix.
  destruct (Nat.leb_spec 5 (String.length h + 5)) as [_|?]; [|lia].
  reflexivity.
Qed.

Lemma substring_all (h : string) : String.substring 0 (String.length h) h = h.
Proof. induction h as [|c h IH]; simpl; [reflexivity | by rewrite IH]. Qed.

Lemma substring_split (n : nat) : forall h : string,
  (n <= String.length h)%nat ->
  h = String.substring 0 n h +:+ String.substring n (String.length h - n) h.
Proof.
  induction n as [|n IH]; intros h Hn.
  - rewrite Nat.sub_0_r, substring_all. by destruct h.
  - destruct h as [|c h]; simpl in *; [lia|].
    change (String c h = String c (String.substring 0 n h +:+
              String.substring n (String.length h - n) h)).
    f_equal. apply IH. lia.
Qed.

Lemma strip_link_Some h base :
  Reference.strip_link h = Some base -> h = base +:+ "_link".
Proof.
  unfold Reference.strip_link.
  destruct (Nat.leb_spec 5 (String.length h)) as [Hlen|]; [|discriminate].
  destruct (String.eqb_spec (String.substring (String.length h - 5) 5 h) "_link")
    as [Heq|]; [|discriminate].
  simpl. intros [= <-].
  rewrite (substring_split (String.length h - 5) h) at 1 by lia.
  replace (String.length h - (String.length h - 5))%nat with 5%nat by lia.
  by rewrite Heq.
Qed.

Lemma link_variant_not_in_table h :
  h +:+ "_link" ∉ Reference.priority_table.
Proof.
  intros Hin. pose proof (strip_link_append h) as Hs.
  unfold Reference.priority_table in Hin.
  repeat (apply elem_of_cons in Hin as [Hin|Hin];
          [rewrite Hin in Hs; vm_compute in Hs; discriminate|]).
  by apply elem_of_nil in Hin.
Qed.

(** What the code computes: on a string, the tag when the table has it
    and "default" otherwise, the test of the "_link" variant never
    succeeding; on a list of strings, a [TypeError]. *)
Lemma get_highway_classification_attrs (d : gmap string tag) :
  Crossroad.get_highway_classification (EdgeAttrs d)
  = match d !! "highway" with
    | None => Ok "default"
    | Some (Strs _) => Raise TypeError
    | Some (Str h) =>
        Ok (if bool_decide (h ∈ Reference.priority_table) then h else "default")
    end.
Proof.
  unfold Crossroad.get_highway_classification.
  destruct (d !! "highway") as [[h|hs]|]; [|reflexivity|reflexivity].
  cbv zeta. rewrite (in_table_max (h +:+ "_link")).
  rewrite (bool_decide_eq_false_2 _ (link_variant_not_in_table h)).
  rewrite in_table_max. by destruct (bool_decide (h ∈ Reference.priority_table)).
Qed.

(** The code and the reference agree on every tag that is a string and
    not the "_link" variant of a class of the table, and on the edge
    without tag. *)
Lemma get_highway_classification_refines (d : gmap string tag)
    (highway : option string) :
  d !! "highway" = Str <$> highway ->
  (forall base, highway = Some (base +:+ "_link") ->
                base ∉ Reference.priority_table) ->
  Crossroad.get_highway_classification (EdgeAttrs d)
  = Ok (Reference.classification_spec highway).
Proof.
  intros Hd Hlink. rewrite get_highway_classification_attrs, Hd.
  unfold Reference.classification_spec.
  destruct highway as [h|]; [|reflexivity]. simpl.
  destruct (bool_decide (h ∈ Reference.priority_table)); [reflexivity|].
  destruct (Reference.strip_link h) as [base|] eqn:Hs; [|reflexivity].
  apply strip_link_Some in Hs as ->.
  rewrite (bool_decide_eq_false_2 (base ∈ Reference.priority_table)); [reflexivity|].
  by apply Hlink.
Qed.

(** C3. [get_highway_classification] does not equal the reference
    normalisation on the "_link" variant of a class of the table: the
    tag "primary_link" is classified "default" by the code, "primary" by
    the reference. *)
Theorem get_highway_classification_link_variant :
  Crossroad.get_highway_classification
    (EdgeAttrs {[ "highway" := Str "primary_link" ]})
  = Ok "default"
  /\ Reference.classification_spec (Some "primary_link") = "primary".
Proof. split; vm_compute; reflexivity. Qed.

(** ** The acceptance test of candidate paths *)

Lemma is_inner_path_by_osmdata_loop_true G (ps : list (node * node)) :
  Forall (fun p => exists e, Graph.edge G p.1 p.2 = Ok e /\ is_Some (e !! "junction")) ps ->
  Crossroad.is_inner_path_by_osmdata_loop G ps = Ok true.
Proof.
  induction 1 as [|[p1 p2] ps (e & He & Hj) _ IH]; simpl; [reflexivity|].
  simpl in He. rewrite He. py_step.
  by rewrite (bool_decide_eq_true_2 _ Hj).
Qed.

Lemma is_inner_path_by_osmdata_loop_false G (ps : list (node * node)) :
  Forall (fun p => exists e, Graph.edge G p.1 p.2 = Ok e) ps ->
  Exists (fun p => exists e, Graph.edge G p.1 p.2 = Ok e /\ e !! "junction" = None) ps ->
  Crossroad.is_inner_path_by_osmdata_loop G ps = Ok false.
Proof.
  induction 1 as [|[p1 p2] ps (e & He) _ IH]; intros Hex.
  - by apply Exists_nil in Hex.
  - simpl in *. rewrite He. py_step.
    destruct (e !! "junction") as [j|] eqn:Hj.
    + rewrite bool_decide_eq_true_2 by eauto. simpl.
      apply IH. apply Exists_cons in Hex as [(e' & He' & Hn)|Hex]; [|done].
      simpl in He'. congruence.
    + rewrite bool_decide_eq_false_2; [reflexivity|].
      intros [? ?]; discriminate.
Qed.

Lemma short_path_false {A} (path : list A) :
  (2 <= length path)%nat -> (length path <? 2)%nat = false.
Proof. intros. by apply Nat.ltb_ge. Qed.

(** C5. A candidate path of at least two nodes that does not come back
    to its start and whose edges all carry the "junction" marker is
    accepted by [is_correct_inner_path], whatever the geometry (the
    lengths and thresholds) and the reliability scores are. *)
Theorem junction_path_accepted G U R (self : Region.t) (path : list node) :
  (2 <= length path)%nat ->
  head path ≠ last path ->
  Forall (fun p => exists e, Graph.edge G p.1 p.2 = Ok e /\ is_Some (e !! "junction"))
         (Py.pairs path) ->
  Crossroad.is_correct_inner_path G U R self path = Ok PyTrue.
Proof.
  intros Hlen Hloop Hj. unfold Crossroad.is_correct_inner_path.
  rewrite short_path_false by done.
  destruct (head path) as [p0|] eqn:H0; [|destruct path; simpl in *; [lia|done]].
  destruct (last path) as [pn|] eqn:Hn;
    [|apply last_None in Hn; subst; simpl in *; lia].
  rewrite (index_head _ _ H0), (index_last _ _ Hn). py_step.
  destruct (decide (p0 = pn)) as [->|_]; [done|].
  unfold Crossroad.is_inner_path_by_osmdata.
  by rewrite is_inner_path_by_osmdata_loop_true.
Qed.

Lemma junction_path_accepted_witness :
  Crossroad.is_correct_inner_path Example.G Example.U Example.R
    (Crossroad.region Example.crossroad_0) [0; 3; 4] = Ok PyTrue.
Proof.
  apply junction_path_accepted.
  - simpl. lia.
  - simpl. discriminate.
  - repeat constructor; exists Example.ring; (split; [vm_compute; reflexivity|]);
      exists "roundabout"; vm_compute; reflexivity.
Defined.

(** C10. A path of at least two nodes that does not loop, whose edges
    do not all carry the "junction" marker and whose first node is not
    weakly in a crossroad or whose last node is not weakly a boundary
    makes [is_correct_inner_path] fall off its end and return [None];
    the loop of [propagate] then goes on to the next candidate without
    adding the path. *)
Theorem unreliable_path_returns_None G U R (self : Region.t)
    (path : list node) (first last_ : node) :
  (2 <= length path)%nat ->
  head path = Some first ->
  last path = Some last_ ->
  first ≠ last_ ->
  Forall (fun p => exists e, Graph.edge G p.1 p.2 = Ok e) (Py.pairs path) ->
  Exists (fun p => exists e, Graph.edge G p.1 p.2 = Ok e /\ e !! "junction" = None)
         (Py.pairs path) ->
  Reliability.is_weakly_in_crossroad R first = false
  \/ Reliability.is_weakly_boundary R last_ = false ->
  Crossroad.is_correct_inner_path G U R self path = Ok PyNone
  /\ forall w paths,
       Crossroad.try_paths G U R self w (path :: paths)
       = Crossroad.try_paths G U R self w paths.
Proof.
  intros Hlen H0 Hn Hne Hall Hex Hrel.
  assert (Crossroad.is_correct_inner_path G U R self path = Ok PyNone) as Hnone.
  { unfold Crossroad.is_correct_inner_path.
    rewrite short_path_false by done.
    rewrite (index_head _ _ H0), (index_last _ _ Hn). py_step.
    destruct (decide (first = last_)) as [|_]; [done|].
    unfold Crossroad.is_inner_path_by_osmdata.
    rewrite is_inner_path_by_osmdata_loop_false by done. py_step.
    destruct Hrel as [-> | ->]; [reflexivity|].
    by rewrite andb_false_r. }
  split; [exact Hnone|].
  intros w paths. simpl. by rewrite Hnone.
Qed.

Lemma unreliable_path_returns_None_witness :
  Crossroad.is_correct_inner_path Example.G Example.U Example.R
    (Crossroad.region Example.crossroad_0) [0; 1] = Ok PyNone
  /\ forall w paths,
       Crossroad.try_paths Example.G Example.U Example.R
         (Crossroad.region Example.crossroad_0) w ([0; 1] :: paths)
       = Crossroad.try_paths Example.G Example.U Example.R
           (Crossroad.region Example.crossroad_0) w paths.
Proof.
  apply (unreliable_path_returns_None _ _ _ _ [0; 1] 0 1).
  - simpl. lia.
  - reflexivity.
  - reflexivity.
  - lia.
  - repeat constructor. exists Example.plain. vm_compute. reflexivity.
  - constructor. exists Example.plain. split; vm_compute; reflexivity.
  - right. reflexivity.
Defined.

(** ** The crossroad builder *)

Lemma is_straight_crossing_loop_true G (ns : list node) :
  Crossroad.is_straight_crossing_loop G ns = Ok true
  <-> Forall (degree_at_most_2 G) ns.
Proof.
  induction ns as [|n ns IH]; simpl.
  - split; [constructor | reflexivity].
  - destruct (Graph.neighbors G n) as [nbs|e] eqn:Hn; py_step.
    + destruct (Nat.ltb_spec 2 (length nbs)) as [Hgt|Hle].
      * split; [discriminate|].
        intros H. apply Forall_cons in H as [(nbs' & Hn' & Hle) _].
        rewrite Hn in Hn'. injection Hn' as <-. lia.
      * rewrite IH. split.
        -- intros H. constructor; [by exists nbs | done].
        -- intros H. by apply Forall_cons in H as [_ H].
    + split; [discriminate|].
      intros H. apply Forall_cons in H as [(nbs' & Hn' & _) _]. congruence.
Qed.

Lemma is_straight_crossing_loop_false G (ns : list node) :
  Crossroad.is_straight_crossing_loop G ns = Ok false ->
  Exists (degree_above_2 G) ns.
Proof.
  induction ns as [|n ns IH]; simpl; [discriminate|].
  destruct (Graph.neighbors G n) as [nbs|e] eqn:Hn; py_step; [|discriminate].
  destruct (Nat.ltb_spec 2 (length nbs)) as [Hgt|Hle].
  - intros _. left. by exists nbs.
  - intros H. right. by apply IH.
Qed.

Section Builder.
Variables (G : Graph.t) (U : Util.t) (R : Reliability.t).
Variable is_boundary_node : Region.t -> node -> bool.

Local Abbreviation loop := (Crossroad.build_crossroads_loop G U R is_boundary_node).
Local Abbreviation init := (Crossroad.init G U R is_boundary_node).

(** One iteration of the loop of [build_crossroads], by cases. *)
Lemma build_crossroads_loop_cons fuel n ns w acc cs w' :
  loop fuel (n :: ns) w acc = Ok (cs, w') ->
  loop fuel ns w acc = Ok (cs, w')
  \/ exists c w1,
       Region.unknown_region_node_in_graph w n = true
       /\ Crossroad.is_reliable_crossroad_node G R n = Ok true
       /\ init fuel w n = Ok (c, w1)
       /\ ((Crossroad.is_straight_crossing G (Crossroad.region c) = Ok true
            /\ loop fuel ns (Region.clear_region (Crossroad.region c) w1).2 acc
               = Ok (cs, w'))
           \/ (Crossroad.is_straight_crossing G (Crossroad.region c) = Ok false
               /\ loop fuel ns w1 (acc ++ [c]) = Ok (cs, w'))).
Proof.
  simpl.
  destruct (Region.unknown_region_node_in_graph w n) eqn:Hu; [|by left].
  destruct (Crossroad.is_reliable_crossroad_node G R n) as [[]|] eqn:Hr;
    py_step; [|by left|discriminate].
  destruct (init fuel w n) as [[c w1]|] eqn:Hi; py_step; [|discriminate].
  destruct (Crossroad.is_straight_crossing G (Crossroad.region c))
    as [[]|] eqn:Hs; py_step; [| |discriminate].
  - intros H. right. exists c, w1. repeat split; try done.
    left. split; [done|]. exact H.
  - intros H. right. exists c, w1. repeat split; try done. by right.
Qed.

Lemma build_crossroads_loop_kept (P : Crossroad.t -> Prop) fuel :
  (forall c, Crossroad.is_straight_crossing G (Crossroad.region c) = Ok false -> P c) ->
  forall ns w acc cs w',
    Forall P acc ->
    loop fuel ns w acc = Ok (cs, w') ->
    Forall P cs.
Proof.
  intros HP. induction ns as [|n ns IH]; intros w acc cs w' Hacc Hrun.
  - simpl in Hrun. by injection Hrun as <- <-.
  - apply build_crossroads_loop_cons in Hrun
      as [Hrun | (c & w1 & _ & _ & _ & [[_ Hrun] | [Hs Hrun]])].
    + by eapply IH.
    + by eapply IH.
    + eapply IH; [|exact Hrun]. apply Forall_app. split; [done|].
      constructor; [by apply HP | constructor].
Qed.
End Builder.

(** C6. [is_straight_crossing] holds exactly when every member node has
    at most two neighbours; every crossroad that [build_crossroads]
    returns fails the test, so one of its member nodes has more than two
    neighbours; and a grown region that passes the test is cleared and
    the loop goes on with the collection unchanged. *)
Theorem straight_crossing_never_kept G U R is_boundary_node :
  (forall self : Region.t,
     Crossroad.is_straight_crossing G self = Ok true
     <-> Forall (degree_at_most_2 G) (Region.nodes self))
  /\ (forall fuel w cs w',
        Crossroad.build_crossroads G U R is_boundary_node fuel w = Ok (cs, w') ->
        forall c, c ∈ cs ->
          Crossroad.is_straight_crossing G (Crossroad.region c) = Ok false
          /\ Exists (degree_above_2 G) (Region.nodes (Crossroad.region c))
          /\ ~ Forall (degree_at_most_2 G) (Region.nodes (Crossroad.region c)))
  /\ (forall fuel n ns w acc c w1,
        Region.unknown_region_node_in_graph w n = true ->
        Crossroad.is_reliable_crossroad_node G R n = Ok true ->
        Crossroad.init G U R is_boundary_node fuel w n = Ok (c, w1) ->
        Crossroad.is_straight_crossing G (Crossroad.region c) = Ok true ->
        Crossroad.build_crossroads_loop G U R is_boundary_node fuel (n :: ns) w acc
        = Crossroad.build_crossroads_loop G U R is_boundary_node fuel ns
            (Region.clear_region (Crossroad.region c) w1).2 acc).
Proof.
  split; [|split].
  - intros self. apply is_straight_crossing_loop_true.
  - intros fuel w cs w' Hrun c Hc.
    assert (Forall (fun c => Crossroad.is_straight_crossing G (Crossroad.region c)
                             = Ok false) cs) as Hall.
    { eapply (build_crossroads_loop_kept G U R is_boundary_node _ fuel);
        [|constructor|exact Hrun]. done. }
    rewrite Forall_forall in Hall. specialize (Hall c Hc).
    split; [done|]. split.
    + by apply is_straight_crossing_loop_false.
    + intros Hstraight. apply is_straight_crossing_loop_true in Hstraight.
      unfold Crossroad.is_straight_crossing in Hall. congruence.
  - intros fuel n ns w acc c w1 Hu Hr Hi Hs. simpl.
    rewrite Hu, Hr. py_step. rewrite Hi. py_step. rewrite Hs. py_step.
    reflexivity.
Qed.

Example example_build_crossroads :
  Crossroad.build_crossroads Example.G Example.U Example.R
    Example.is_boundary_node 10 Region.empty_world
  = Ok ([Example.crossroad_0; Example.crossroad_1], Example.final_world).
Proof. vm_compute. reflexivity. Qed.

Lemma straight_crossing_never_kept_witness :
  Crossroad.is_straight_crossing Example.G (Crossroad.region Example.crossroad_0)
  = Ok false
  /\ Exists (degree_above_2 Example.G)
            (Region.nodes (Crossroad.region Example.crossroad_0))
  /\ ~ Forall (degree_at_most_2 Example.G)
              (Region.nodes (Crossroad.region Example.crossroad_0)).
Proof.
  destruct (straight_crossing_never_kept Example.G Example.U Example.R
              Example.is_boundary_node) as (_ & Hkept & _).
  apply (Hkept 10%nat Region.empty_world
           [Example.crossroad_0; Example.crossroad_1] Example.final_world).
  - vm_compute. reflexivity.
  - apply list_elem_of_here.
Defined.

(** ** Seeds and members of the kept crossroads *)

Section Growth.
Variables (G : Graph.t) (U : Util.t) (R : Reliability.t).
Variable is_boundary_node : Region.t -> node -> bool.

Local Abbreviation loop := (Crossroad.build_crossroads_loop G U R is_boundary_node).
Local Abbreviation init := (Crossroad.init G U R is_boundary_node).

Lemma add_node_head self w m n :
  head (Region.nodes self) = Some n ->
  head (Region.nodes (Region.add_node self w m).1) = Some n.
Proof.
  simpl. destruct (Region.has_node self m); [done|].
  destruct (Region.nodes self); [done|]. by simpl.
Qed.

Lemma add_nodes_head path : forall rw n,
  head (Region.nodes rw.1) = Some n ->
  head (Region.nodes
          (fold_left (fun rw m => Region.add_node rw.1 rw.2 m) path rw).1) = Some n.
Proof.
  induction path as [|m path IH]; intros rw n Hn; simpl; [done|].
  apply IH. by apply add_node_head.
Qed.

Lemma add_edges_nodes es : forall rw,
  Region.nodes (fold_left (fun rw e => Region.add_edge rw.1 rw.2 e) es rw).1
  = Region.nodes rw.1.
Proof. induction es as [|e es IH]; intros rw; simpl; [done|]. by rewrite IH. Qed.

Lemma add_path_head self w path n :
  head (Region.nodes self) = Some n ->
  head (Region.nodes (Region.add_path self w path).1) = Some n.
Proof.
  intros Hn. unfold Region.add_path. rewrite add_edges_nodes.
  by apply (add_nodes_head path (self, w)).
Qed.

Lemma try_paths_head paths : forall self w self' w' n,
  Crossroad.try_paths G U R self w paths = Ok (self', w') ->
  head (Region.nodes self) = Some n ->
  head (Region.nodes self') = Some n.
Proof.
  induction paths as [|path paths IH]; intros self w self' w' n; simpl.
  - by intros [= <- <-].
  - destruct (Crossroad.is_correct_inner_path G U R self path) as [ok|];
      py_step; [|discriminate].
    destruct (Py.truthy ok).
    + py_step. intros [= Heq] Hn.
      pose proof (add_path_head self w path n Hn) as Hp.
      by rewrite Heq in Hp.
    + apply IH.
Qed.

Lemma propagate_loop_head fuel n0 nbs : forall self w self' w' n,
  Crossroad.propagate_loop G U R fuel self w n0 nbs = Ok (self', w') ->
  head (Region.nodes self) = Some n ->
  head (Region.nodes self') = Some n.
Proof.
  induction nbs as [|nb nbs IH]; intros self w self' w' n; simpl.
  - by intros [= <- <-].
  - destruct (Region.unknown_region_edge self w (n0, nb)); [|apply IH].
    destruct (Crossroad.get_possible_paths G R fuel self w n0 nb)
      as [[paths w1]|]; py_step; [|discriminate].
    destruct (Crossroad.try_paths G U R self w1 (rev paths))
      as [[self1 w2]|] eqn:Htry; py_step; [|discriminate].
    intros Hrun Hn. eapply IH; [exact Hrun|].
    by eapply try_paths_head.
Qed.

(** The seed of a crossroad is its center. *)
Lemma init_center fuel w n c w1 :
  init fuel w n = Ok (c, w1) ->
  Crossroad.getCenter (Crossroad.region c) = Ok n.
Proof.
  unfold Crossroad.init, Crossroad.propagate. simpl.
  destruct (Graph.neighbors G n) as [nbs|]; py_step; [|discriminate].
  destruct (Crossroad.propagate_loop _ _ _ _ _ _ _ _) as [[self w2]|] eqn:Hp;
    py_step; [|discriminate].
  destruct (Crossroad.build_branches_description _ _ _ _) as [bs|];
    py_step; [|discriminate].
  intros [= <- <-]. simpl. apply index_head.
  by eapply propagate_loop_head.
Qed.

(** The loop on a list of nodes is the loop on its first part followed
    by the loop on the rest, from the world and the collection the
    first part leaves. *)
Lemma build_crossroads_loop_app fuel : forall ns1 ns2 w acc,
  loop fuel (ns1 ++ ns2) w acc
  = '(cs, w1) ← loop fuel ns1 w acc; loop fuel ns2 w1 cs.
Proof.
  induction ns1 as [|n ns1 IH]; intros ns2 w acc; [reflexivity|].
  rewrite <- app_comm_cons. cbn [Crossroad.build_crossroads_loop].
  destruct (Region.unknown_region_node_in_graph w n); [|apply IH].
  destruct (Crossroad.is_reliable_crossroad_node G R n) as [[]|];
    py_step; [|apply IH|done].
  destruct (init fuel w n) as [[c w1]|]; py_step; [|done].
  destruct (Crossroad.is_straight_crossing G (Crossroad.region c)) as [[]|];
    py_step; [| |done].
  - destruct (Region.clear_region (Crossroad.region c) w1) as [? w2]. apply IH.
  - apply IH.
Qed.

(** The collection the loop starts with changes neither the crossroads
    it adds nor the world it leaves. *)
Lemma build_crossroads_loop_acc fuel : forall ns w acc1 acc2 cs w',
  loop fuel ns w acc1 = Ok (cs, w') ->
  exists new, cs = acc1 ++ new /\ loop fuel ns w acc2 = Ok (acc2 ++ new, w').
Proof.
  induction ns as [|n ns IH]; intros w acc1 acc2 cs w'.
  - intros [= <- <-]. exists []. by rewrite !app_nil_r.
  - cbn [Crossroad.build_crossroads_loop].
    destruct (Region.unknown_region_node_in_graph w n); [|apply IH].
    destruct (Crossroad.is_reliable_crossroad_node G R n) as [[]|];
      py_step; [|apply IH|discriminate].
    destruct (init fuel w n) as [[c w1]|]; py_step; [|discriminate].
    destruct (Crossroad.is_straight_crossing G (Crossroad.region c)) as [[]|];
      py_step; [| |discriminate].
    + destruct (Region.clear_region (Crossroad.region c) w1) as [? w2]. apply IH.
    + intros Hrun. destruct (IH _ _ (acc2 ++ [c]) _ _ Hrun) as (new & -> & H2).
      exists (c :: new). rewrite <- !app_assoc in *. done.
Qed.

(** Every crossroad the loop adds is grown, in the world the loop has
    reached, from a node that is then in no known region and that is a
    reliable crossroad node; [pre] is the part of the nodes the loop
    has gone through. *)
Lemma build_crossroads_loop_seeds fuel w0 : forall ns pre w acc0 acc cs w',
  loop fuel pre w0 [] = Ok (acc0, w) ->
  loop fuel ns w acc = Ok (cs, w') ->
  exists new seeds,
    cs = acc ++ new
    /\ Forall2 (fun c n =>
                  grown_in_run G U R is_boundary_node fuel w0 (pre ++ ns) c n
                  /\ Crossroad.is_reliable_crossroad_node G R n = Ok true)
               new seeds
    /\ seeds `sublist_of` ns.
Proof.
  induction ns as [|n ns IH]; intros pre w acc0 acc cs w' Hpre Hrun.
  - injection Hrun as <- <-. exists [], []. rewrite app_nil_r.
    repeat split; constructor.
  - change (n :: ns) with ([n] ++ ns) in Hrun.
    rewrite build_crossroads_loop_app in Hrun.
    destruct (loop fuel [n] w acc) as [[acc1 w1]|] eqn:Hstep;
      cbn [mbind res_bind Py.bind] in Hrun; [|discriminate].
    destruct (build_crossroads_loop_acc _ _ _ _ acc0 _ _ Hstep) as (new1 & -> & Hstep0).
    assert (loop fuel (pre ++ [n]) w0 [] = Ok (acc0 ++ new1, w1)) as Hpre'.
    { rewrite build_crossroads_loop_app, Hpre. exact Hstep0. }
    destruct (IH (pre ++ [n]) w1 (acc0 ++ new1) (acc ++ new1) cs w' Hpre' Hrun)
      as (new & seeds & -> & Hf & Hsub).
    rewrite <- app_assoc in Hf. change ([n] ++ ns) with (n :: ns) in Hf.
    apply build_crossroads_loop_cons in Hstep
      as [Hskip | (c & w2 & Hu & Hr & Hi & [[_ Hskip] | [_ Hkept]])].
    + injection Hskip as Hnew _.
      assert (new1 = []) as -> by (apply (app_inv_head acc); by rewrite app_nil_r).
      exists new, seeds. rewrite app_nil_r. split; [done|]. split; [done|].
      by apply sublist_cons.
    + injection Hskip as Hnew _.
      assert (new1 = []) as -> by (apply (app_inv_head acc); by rewrite app_nil_r).
      exists new, seeds. rewrite app_nil_r. split; [done|]. split; [done|].
      by apply sublist_cons.
    + injection Hkept as Hnew <-.
      assert (new1 = [c]) as -> by (by apply (app_inv_head acc)).
      exists (c :: new), (n :: seeds). rewrite <- app_assoc. split; [done|].
      split; [|by apply sublist_skip].
      constructor; [|done]. split; [|done].
      by exists pre, ns, acc0, w, w2.
Qed.

(** The crossroads [build_crossroads] returns, with the nodes they are
    grown from. *)
Lemma build_crossroads_seeds fuel w cs w' :
  Crossroad.build_crossroads G U R is_boundary_node fuel w = Ok (cs, w') ->
  exists seeds,
    Forall2 (fun c n =>
               grown_in_run G U R is_boundary_node fuel w (Graph.nodes G) c n
               /\ Crossroad.is_reliable_crossroad_node G R n = Ok true)
            cs seeds
    /\ seeds `sublist_of` Graph.nodes G.
Proof.
  intros Hrun. unfold Crossroad.build_crossroads in Hrun.
  destruct (build_crossroads_loop_seeds fuel w (Graph.nodes G) [] w [] [] cs w'
              eq_refl Hrun) as (new & seeds & -> & Hf & Hsub).
  by exists seeds.
Qed.
End Growth.

(** On the example network the two kept crossroads both own the node
    [3]: the second one is grown from [4] along the edge [(4, 3)], which
    no region owns, to the node [3], which the first one owns. *)
Lemma kept_crossroads_share_a_node :
  exists cs w,
    Crossroad.build_crossroads Example.G Example.U Example.R
      Example.is_boundary_node 10 Region.empty_world = Ok (cs, w)
    /\ ~ no_overlap cs.
Proof.
  exists [Example.crossroad_0; Example.crossroad_1], Example.final_world.
  split; [vm_compute; reflexivity|].
  intros Hdisjoint.
  apply (Hdisjoint 0%nat 1%nat Example.crossroad_0 Example.crossroad_1
           eq_refl eq_refl ltac:(lia) 3); simpl; set_solver.
Qed.

(** C1, amended. The crossroads kept by [build_crossroads] are grown
    from pairwise distinct seeds: each one is grown from a node of
    [G.nodes] that was in no known region when its growth started, that
    is in the world the loop had reached when it came to the node; that
    node is its center and one of its members, and two kept crossroads
    at different positions have different centers.  [propagate] leaves
    a direction alone when its first edge is in a known region; it does
    not test the other nodes and edges of a candidate path. *)
Theorem kept_crossroads_have_distinct_seeds G U R is_boundary_node fuel w cs w' :
  NoDup (Graph.nodes G) ->
  Crossroad.build_crossroads G U R is_boundary_node fuel w = Ok (cs, w') ->
  (exists seeds,
     Forall2 (fun c n =>
                grown_in_run G U R is_boundary_node fuel w (Graph.nodes G) c n
                /\ Crossroad.getCenter (Crossroad.region c) = Ok n
                /\ n ∈ Region.nodes (Crossroad.region c)) cs seeds
     /\ NoDup seeds
     /\ seeds `sublist_of` Graph.nodes G)
  /\ (forall i j c1 c2 n1 n2,
        cs !! i = Some c1 -> cs !! j = Some c2 -> i ≠ j ->
        Crossroad.getCenter (Crossroad.region c1) = Ok n1 ->
        Crossroad.getCenter (Crossroad.region c2) = Ok n2 ->
        n1 ≠ n2)
  /\ (forall self w0 n nb nbs,
        Region.unknown_region_edge self w0 (n, nb) = false ->
        Crossroad.propagate_loop G U R fuel self w0 n (nb :: nbs)
        = Crossroad.propagate_loop G U R fuel self w0 n nbs).
Proof.
  intros Hnodup Hrun.
  apply build_crossroads_seeds in Hrun as (seeds & Hg & Hsub).
  assert (NoDup seeds) as Hnd by (by eapply sublist_NoDup).
  assert (Forall2 (fun c n =>
                grown_in_run G U R is_boundary_node fuel w (Graph.nodes G) c n
                /\ Crossroad.getCenter (Crossroad.region c) = Ok n
                /\ n ∈ Region.nodes (Crossroad.region c)) cs seeds) as Hall.
  { eapply Forall2_impl; [exact Hg|]. intros c n [Hcn _]. split; [done|].
    destruct Hcn as (before & after & cs1 & w1 & w2 & _ & _ & _ & Hi).
    apply init_center in Hi.
    split; [done|]. unfold Crossroad.getCenter, Py.index in Hi.
    destruct (Region.nodes (Crossroad.region c)) as [|m ms]; [discriminate|].
    simpl in Hi. injection Hi as ->. apply list_elem_of_here. }
  split; [by exists seeds|]. split; [|by intros self w0 n nb nbs Hk; simpl; rewrite Hk].
  intros i j c1 c2 n1 n2 H1 H2 Hij Hc1 Hc2 ->.
  destruct (Forall2_lookup_l _ _ _ _ _ Hall H1) as (m1 & Hm1 & _ & Hc1' & _).
  destruct (Forall2_lookup_l _ _ _ _ _ Hall H2) as (m2 & Hm2 & _ & Hc2' & _).
  rewrite Hc1 in Hc1'. rewrite Hc2 in Hc2'.
  injection Hc1' as <-. injection Hc2' as <-.
  apply Hij. by eapply NoDup_lookup.
Qed.

Lemma kept_crossroads_have_distinct_seeds_witness :
  (exists seeds,
     Forall2 (fun c n =>
                grown_in_run Example.G Example.U Example.R Example.is_boundary_node 10
                  Region.empty_world (Graph.nodes Example.G) c n
                /\ Crossroad.getCenter (Crossroad.region c) = Ok n
                /\ n ∈ Region.nodes (Crossroad.region c))
             [Example.crossroad_0; Example.crossroad_1] seeds
     /\ NoDup seeds
     /\ seeds `sublist_of` Graph.nodes Example.G)
  /\ (forall i j c1 c2 n1 n2,
        [Example.crossroad_0; Example.crossroad_1] !! i = Some c1 ->
        [Example.crossroad_0; Example.crossroad_1] !! j = Some c2 -> i ≠ j ->
        Crossroad.getCenter (Crossroad.region c1) = Ok n1 ->
        Crossroad.getCenter (Crossroad.region c2) = Ok n2 ->
        n1 ≠ n2)
  /\ (forall self w0 n nb nbs,
        Region.unknown_region_edge self w0 (n, nb) = false ->
        Crossroad.propagate_loop Example.G Example.U Example.R 10 self w0 n (nb :: nbs)
        = Crossroad.propagate_loop Example.G Example.U Example.R 10 self w0 n nbs).
Proof.
  apply (kept_crossroads_have_distinct_seeds Example.G Example.U Example.R
           Example.is_boundary_node 10 Region.empty_world _ Example.final_world).
  - compute_done.
  - vm_compute. reflexivity.
Defined.

(** On the example network the loop comes to the node [3] when the
    crossroad grown from [0] owns it: no crossroad is grown from it. *)
Example known_node_is_no_seed (c : Crossroad.t) :
  ~ grown_in_run Example.G Example.U Example.R Example.is_boundary_node 10
      Region.empty_world (Graph.nodes Example.G) c 3.
Proof.
  intros (before & after & cs1 & w1 & w2 & Hsplit & Hloop & Hu & _).
  assert (before = [0; 1; 2]) as ->.
  { clear -Hsplit.
    destruct before as [|b0 [|b1 [|b2 [|b3 before]]]]; simplify_eq/=; try done.
    destruct before as [|b4 [|b5 [|b6 before]]]; simplify_eq/=.
    by destruct before. }
  vm_compute in Hloop. injection Hloop as <- <-. vm_compute in Hu. discriminate.
Qed.

(** ** The branch extractor *)

Lemma mapM_res_Forall2 {A B} (f : A -> res B) (l : list A) : forall k,
  mapM f l = Ok k -> Forall2 (fun x y => f x = Ok y) l k.
Proof.
  induction l as [|x l IH]; intros k; simpl.
  - intros [= <-]. constructor.
  - destruct (f x) as [y|] eqn:Hx; py_step; [|discriminate].
    destruct (mapM f l) as [k'|]; py_step; [|discriminate].
    intros [= <-]. constructor; [done | by apply IH].
Qed.

Section Branches.
Variables (G : Graph.t) (U : Util.t).
Variable is_boundary_node : Region.t -> node -> bool.

Lemma get_branches_description_from_node_spec self center b chunk :
  Crossroad.getCenter self = Ok center ->
  Crossroad.get_branches_description_from_node G U self b = Ok chunk ->
  border_branches G U self center b chunk.
Proof.
  intros Hc. unfold Crossroad.get_branches_description_from_node.
  destruct (Graph.neighbors G b) as [nbs|] eqn:Hn; py_step; [|discriminate].
  intros Hm. apply mapM_res_Forall2 in Hm. exists nbs. split; [done|].
  apply Forall2_fmap_l in Hm. eapply Forall2_impl; [exact Hm|].
  intros nb br. unfold Crossroad.get_branch_description_from_edge. simpl.
  destruct (Graph.edge G nb b) as [e|]; py_step; [|discriminate].
  rewrite Hc. py_step. intros [= <-]. simpl. eauto.
Qed.

Lemma build_branches_loop_chunks self center radius : forall borders acc bs,
  Crossroad.build_branches_loop G U self center radius borders acc = Ok bs ->
  exists chunks,
    bs = acc ++ concat chunks
    /\ Forall2 (fun b chunk =>
                  Crossroad.branches_of_border G U self center radius b = Ok chunk)
               borders chunks.
Proof.
  induction borders as [|b borders IH]; intros acc bs; simpl.
  - intros [= <-]. exists []. simpl. rewrite app_nil_r. split; [done|constructor].
  - destruct (Crossroad.branches_of_border G U self center radius b)
      as [chunk|] eqn:Hb; py_step; [|discriminate].
    intros Hrun. destruct (IH _ _ Hrun) as (chunks & -> & Hf).
    exists (chunk :: chunks). simpl. rewrite app_assoc. split; [done|].
    by constructor.
Qed.
End Branches.

(** On the example network the crossroad grown from [0] has the border
    [3], whose only edge outside the region leads to [4]; the branch the
    code gives it bears on [3] itself, and no branch of the crossroad
    bears on [4]. *)
Lemma border_branch_bears_on_border :
  Crossroad.build_branches_description Example.G Example.U
    Example.is_boundary_node (Crossroad.region Example.crossroad_0)
  = Ok (Crossroad.branches Example.crossroad_0)
  /\ Crossroad.get_branches_description_from_node Example.G Example.U
       (Crossroad.region Example.crossroad_0) 3
     = Ok [ {| BranchDescription.angle := Util.bearing Example.U 0 3;
               BranchDescription.name := Some "Ring" |} ]
  /\ Reference.branches_of_boundary_node_spec Example.G Example.U
       (Crossroad.region Example.crossroad_0) 0 3
     = Ok [ {| BranchDescription.angle := Util.bearing Example.U 0 4;
               BranchDescription.name := Some "Ring" |} ]
  /\ ~ external_branches Example.G Example.U Example.is_boundary_node
         (Crossroad.region Example.crossroad_0)
         (Crossroad.branches Example.crossroad_0).
Proof.
  split; [vm_compute; reflexivity|].
  split; [vm_compute; reflexivity|].
  split; [vm_compute; reflexivity|].
  intros Hclaim.
  assert (3 ∈ Region.nodes (Crossroad.region Example.crossroad_0)) as Hmember
    by (apply list_elem_of_further, list_elem_of_here).
  assert (exists nbs, Graph.neighbors Example.G 3 = Ok nbs /\ 4 ∈ nbs) as Hnb.
  { exists [0; 4]. split; [vm_compute; reflexivity|].
    apply list_elem_of_further, list_elem_of_here. }
  assert (Example.is_boundary_node (Crossroad.region Example.crossroad_0) 3 = true)
    as Hborder by (vm_compute; reflexivity).
  assert (Region.has_edge (Crossroad.region Example.crossroad_0) (4, 3) = false)
    as Hout by (vm_compute; reflexivity).
  assert (Graph.edge Example.G 3 4 = Ok Example.ring) as Hedge
    by (vm_compute; reflexivity).
  destruct (Hclaim 0 3 4 Example.ring eq_refl Hmember Hborder ltac:(lia) Hnb
              Hout Hedge) as (br & Hin & Heq & _).
  simpl in Hin.
  repeat (apply elem_of_cons in Hin as [-> | Hin];
          [vm_compute in Heq; discriminate|]).
  by apply elem_of_nil in Hin.
Qed.

(** C2, amended. The branches [build_branches_description] computes are
    the concatenation, over the boundary nodes in the order of the
    member list, of the branches of each; for a boundary node [b] other
    than the center these are exactly one branch per neighbour of [b]
    whose edge to [b] is part of the region, with the bearing from the
    center to [b] itself as angle and the name attribute of that edge,
    when present, as name. *)
Theorem branches_of_boundary_nodes G U is_boundary_node (self : Region.t)
    (bs : list BranchDescription.t) :
  Crossroad.build_branches_description G U is_boundary_node self = Ok bs ->
  exists center chunks,
    Crossroad.getCenter self = Ok center
    /\ bs = concat chunks
    /\ Forall2 (fun b chunk => b ≠ center -> border_branches G U self center b chunk)
         (List.filter (is_boundary_node self) (Region.nodes self)) chunks.
Proof.
  unfold Crossroad.build_branches_description.
  destruct (Crossroad.getCenter self) as [center|] eqn:Hc; py_step; [|discriminate].
  destruct (Crossroad.get_radius G U is_boundary_node self) as [radius|];
    py_step; [|discriminate].
  intros Hrun. apply build_branches_loop_chunks in Hrun as (chunks & -> & Hf).
  exists center, chunks. split; [done|]. split; [done|].
  eapply Forall2_impl; [exact Hf|]. intros b chunk Hb Hne.
  unfold Crossroad.branches_of_border in Hb.
  destruct (decide (b ≠ center)); [|done].
  by eapply get_branches_description_from_node_spec.
Qed.

Lemma branches_of_boundary_nodes_witness :
  exists center chunks,
    Crossroad.getCenter (Crossroad.region Example.crossroad_0) = Ok center
    /\ Crossroad.branches Example.crossroad_0 = concat chunks
    /\ Forall2 (fun b chunk =>
                  b ≠ center ->
                  border_branches Example.G Example.U
                    (Crossroad.region Example.crossroad_0) center b chunk)
         (List.filter (Example.is_boundary_node (Crossroad.region Example.crossroad_0))
                      (Region.nodes (Crossroad.region Example.crossroad_0))) chunks.
Proof.
  apply (branches_of_boundary_nodes Example.G Example.U Example.is_boundary_node).
  vm_compute. reflexivity.
Defined.

(** ** Proximity clustering *)

(** When exactly one cluster of [result] claims the crossroad, it is
    absorbed into the current cluster and removed from [result]. *)
Lemma cluster_merge_single U B (crossroad cr : Crossroad.t)
    (crs : list Crossroad.t) (visited : list Z) (cluster other : list Crossroad.t)
    (result : list (list Crossroad.t)) (out : list string) :
  Crossroad.in_same_cluster U B crossroad cr = Ok true ->
  Region.id (Crossroad.region cr) ∈ visited ->
  List.filter (Crossroad.cr_in cr) result = [other] ->
  Crossroad.cluster_loop U B crossroad (cr :: crs) visited cluster result out
  = Crossroad.cluster_loop U B crossroad crs visited (cluster ++ other)
      (List.filter (fun c => negb (Crossroad.cr_in cr c)) result) out.
Proof.
  intros Hsame Hvisited Hone. simpl. rewrite Hsame. py_step.
  unfold Py.mem. rewrite (bool_decide_eq_true_2 _ Hvisited). simpl.
  unfold Crossroad.merge_clusters. rewrite Hone. reflexivity.
Qed.

Lemma cr_in_true cr cl :
  Crossroad.cr_in cr cl = true
  <-> exists x, x ∈ cl /\ Region.id (Crossroad.region x) = Region.id (Crossroad.region cr).
Proof.
  unfold Crossroad.cr_in. rewrite existsb_exists. split.
  - intros (x & Hx & Heq). exists x. split; [by apply list_elem_of_In|].
    by apply Z.eqb_eq.
  - intros (x & Hx & Heq). exists x. split; [by apply list_elem_of_In|].
    by apply Z.eqb_eq.
Qed.

Lemma cr_in_same_id cr cr' cl :
  Region.id (Crossroad.region cr) = Region.id (Crossroad.region cr') ->
  Crossroad.cr_in cr cl = Crossroad.cr_in cr' cl.
Proof. intros Heq. unfold Crossroad.cr_in. by rewrite Heq. Qed.

Lemma cr_in_app cr cl1 cl2 :
  Crossroad.cr_in cr (cl1 ++ cl2) = Crossroad.cr_in cr cl1 || Crossroad.cr_in cr cl2.
Proof. unfold Crossroad.cr_in. apply existsb_app. Qed.

Lemma claimed_zero cr result :
  claimed cr result = 0%nat <-> forall cl, cl ∈ result -> Crossroad.cr_in cr cl = false.
Proof.
  unfold claimed. induction result as [|cl result IH]; simpl.
  - split; [|done]. intros _ cl Hcl. by apply elem_of_nil in Hcl.
  - destruct (Crossroad.cr_in cr cl) eqn:Hin; simpl.
    + split; [discriminate|]. intros H.
      specialize (H cl (list_elem_of_here _ _)). congruence.
    + rewrite IH. split.
      * intros H cl' Hcl'. apply elem_of_cons in Hcl' as [->|Hcl']; [done|]. by apply H.
      * intros H cl' Hcl'. apply H. by apply list_elem_of_further.
Qed.

Lemma claimed_snoc cr result cluster :
  claimed cr (result ++ [cluster])
  = (claimed cr result + if Crossroad.cr_in cr cluster then 1 else 0)%nat.
Proof.
  unfold claimed. rewrite List.filter_app, length_app. simpl.
  by destruct (Crossroad.cr_in cr cluster).
Qed.

Lemma claimed_filter_le cr (f : list Crossroad.t -> bool) result :
  (claimed cr (List.filter f result) <= claimed cr result)%nat.
Proof.
  unfold claimed. induction result as [|cl result IH]; simpl; [done|].
  destruct (f cl), (Crossroad.cr_in cr cl) eqn:Hin; simpl; rewrite ?Hin; simpl; lia.
Qed.

(** Removing the clusters that claim [cr0], the only cluster that claims
    [cr] being one of them, leaves no cluster that claims [cr]. *)
Lemma claimed_after_merge cr cr0 other result :
  (claimed cr result <= 1)%nat ->
  other ∈ result ->
  Crossroad.cr_in cr other = true ->
  Crossroad.cr_in cr0 other = true ->
  claimed cr (List.filter (fun c => negb (Crossroad.cr_in cr0 c)) result) = 0%nat.
Proof.
  unfold claimed. induction result as [|cl result IH]; intros Hle Hother Hcr Hcr0.
  - by apply elem_of_nil in Hother.
  - simpl in Hle. apply elem_of_cons in Hother as [<-|Hother].
    + simpl. rewrite Hcr0. simpl. rewrite Hcr in Hle. simpl in Hle.
      pose proof (claimed_filter_le cr (fun c => negb (Crossroad.cr_in cr0 c)) result)
        as Hf. unfold claimed in Hf. lia.
    + simpl. destruct (Crossroad.cr_in cr cl) eqn:Hcl.
      * exfalso. simpl in Hle.
        assert (claimed cr result = 0%nat) as Hz by (unfold claimed; lia).
        rewrite claimed_zero in Hz. specialize (Hz other Hother). congruence.
      * destruct (negb (Crossroad.cr_in cr0 cl)); simpl; rewrite ?Hcl; by apply IH.
Qed.

(** In a consistent state the merge step finds the crossroad claimed by
    one cluster of [result], which it absorbs, or by none, and then it
    prints the diagnostic and leaves the clusters as they are. *)
Lemma merge_clusters_cases cr visited cluster result out :
  clusters_consistent visited cluster result ->
  (exists other,
     List.filter (Crossroad.cr_in cr) result = [other]
     /\ Crossroad.merge_clusters cr result cluster out
        = (List.filter (fun c => negb (Crossroad.cr_in cr c)) result,
           cluster ++ other, out))
  \/ (List.filter (Crossroad.cr_in cr) result = []
      /\ Crossroad.merge_clusters cr result cluster out
         = (result, cluster, out ++ ["Error while merging two clusters"])).
Proof.
  intros (_ & _ & Hone & _). specialize (Hone cr). unfold claimed in Hone.
  unfold Crossroad.merge_clusters.
  destruct (List.filter (Crossroad.cr_in cr) result) as [|other [|other' rest]];
    simpl in *; [by right | left; by exists other | lia].
Qed.

(** The diagnostic in a run: the second crossroad matches the first
    one, which is visited and in no cluster, since the first one did
    not match the second; the diagnostic is printed and no cluster is
    made. *)
Example diagnostic_without_claim :
  Crossroad.in_same_cluster Example.U Example.B_x
    Example.crossroad_a Example.crossroad_x = Ok false
  /\ Crossroad.in_same_cluster Example.U Example.B_x
       Example.crossroad_x Example.crossroad_a = Ok true
  /\ Crossroad.get_clusters Example.G Example.U (fun _ _ => false) Example.B_x
       [Example.crossroad_a; Example.crossroad_x]
     = Ok ([], ["Error while merging two clusters"]).
Proof. repeat split; vm_compute; reflexivity. Qed.

Section Clusters.
Variables (G : Graph.t) (U : Util.t).
Variable is_boundary_node : Region.t -> node -> bool.
Variable B : BranchDescription.ops.

Lemma merge_clusters_consistent cr visited cluster result out result' cluster' out' :
  clusters_consistent visited cluster result ->
  Region.id (Crossroad.region cr) ∈ visited ->
  Crossroad.merge_clusters cr result cluster out = (result', cluster', out') ->
  clusters_consistent visited cluster' result'.
Proof.
  intros (Hvis & Hmem & Hone & Hcur) Hcr. unfold Crossroad.merge_clusters.
  destruct (List.filter (Crossroad.cr_in cr) result) as [|other [|other' rest]] eqn:Hf;
    simpl; intros [= <- <- <-]; [done| |done].
  assert (other ∈ result /\ Crossroad.cr_in cr other = true) as [Hother Hclaims].
  { assert (In other (List.filter (Crossroad.cr_in cr) result)) as Hin
      by (rewrite Hf; by left).
    apply filter_In in Hin as [Hin ?]. split; [by apply list_elem_of_In | done]. }
  split; [|split; [|split]].
  - intros cl x Hcl Hx. apply list_elem_of_In, filter_In in Hcl as [Hcl _].
    apply list_elem_of_In in Hcl. by eapply Hvis.
  - intros x Hx. apply elem_of_app in Hx as [Hx|Hx]; [by apply Hmem | by eapply Hvis].
  - intros cr1. etransitivity; [apply claimed_filter_le | apply Hone].
  - intros cr1 Hin. rewrite cr_in_app in Hin. apply orb_true_iff in Hin as [Hin|Hin].
    + apply Nat.le_0_r. etransitivity; [apply claimed_filter_le|].
      by rewrite (Hcur cr1 Hin).
    + by apply (claimed_after_merge cr1 cr other).
Qed.

Lemma cluster_loop_consistent crossroad : forall crs visited cluster result out
    visited' cluster' result' out',
  clusters_consistent visited cluster result ->
  Crossroad.cluster_loop U B crossroad crs visited cluster result out
  = Ok (visited', cluster', result', out') ->
  clusters_consistent visited' cluster' result'.
Proof.
  induction crs as [|cr crs IH];
    intros visited cluster result out visited' cluster' result' out' Hinv; simpl.
  - by intros [= <- <- <- <-].
  - destruct (Crossroad.in_same_cluster U B crossroad cr) as [[]|];
      py_step; [| by apply IH | discriminate].
    unfold Py.mem.
    destruct (decide (Region.id (Crossroad.region cr) ∈ visited)) as [Hin|Hnin].
    + rewrite bool_decide_eq_true_2 by done. simpl.
      destruct (Crossroad.merge_clusters cr result cluster out)
        as [[result1 cluster1] out1] eqn:Hm.
      apply IH. by eapply merge_clusters_consistent.
    + rewrite bool_decide_eq_false_2 by done. simpl. apply IH.
      destruct Hinv as (Hvis & Hmem & Hone & Hcur). split; [|split; [|split]].
      * intros cl x Hcl Hx. apply elem_of_app. left. by eapply Hvis.
      * intros x Hx. apply elem_of_app in Hx as [Hx|Hx].
        -- apply elem_of_app. left. by apply Hmem.
        -- apply list_elem_of_singleton in Hx as ->. apply elem_of_app. right.
           apply list_elem_of_here.
      * done.
      * intros cr1 Hcr1. rewrite cr_in_app in Hcr1.
        apply orb_true_iff in Hcr1 as [Hcr1|Hcr1]; [by apply Hcur|].
        apply claimed_zero. intros cl Hcl.
        apply not_true_iff_false. intros Hclaim.
        apply cr_in_true in Hclaim as (x & Hx & Hidx).
        apply cr_in_true in Hcr1 as (y & Hy & Hidy).
        apply list_elem_of_singleton in Hy as ->.
        apply Hnin. rewrite Hidy, <- Hidx. by eapply Hvis.
Qed.

Lemma get_clusters_loop_consistent all : forall todo visited result out result' out',
  clusters_consistent visited [] result ->
  Crossroad.get_clusters_loop G U is_boundary_node B all todo visited result out
  = Ok (result', out') ->
  forall cr, (claimed cr result' <= 1)%nat.
Proof.
  induction todo as [|crossroad todo IH];
    intros visited result out result' out' Hinv; simpl.
  - intros [= <- <-]. by destruct Hinv as (_ & _ & Hone & _).
  - unfold Py.mem.
    destruct (decide (Region.id (Crossroad.region crossroad) ∈ visited)) as [Hin|Hnin].
    + rewrite bool_decide_eq_true_2 by done. simpl. by apply IH.
    + rewrite bool_decide_eq_false_2 by done. simpl.
      destruct (Crossroad.get_crossroads_in_neighborhood _ _ _ _ _) as [near|];
        py_step; [|discriminate].
      destruct (Crossroad.cluster_loop _ _ _ _ _ _ _ _)
        as [[[[visited1 cluster1] result1] out1]|] eqn:Hloop; py_step; [|discriminate].
      assert (clusters_consistent visited1 cluster1 result1)
        as (Hvis & Hmem & Hone & Hcur).
      { eapply cluster_loop_consistent; [|exact Hloop].
        destruct Hinv as (Hvis & _ & Hone & _). split; [|split; [|split]].
        - intros cl x Hcl Hx. apply elem_of_app. left. by eapply Hvis.
        - intros x Hx. apply list_elem_of_singleton in Hx as ->.
          apply elem_of_app. right. apply list_elem_of_here.
        - done.
        - intros cr1 Hcr1. apply claimed_zero. intros cl Hcl.
          apply not_true_iff_false. intros Hclaim.
          apply cr_in_true in Hclaim as (x & Hx & Hidx).
          apply cr_in_true in Hcr1 as (y & Hy & Hidy).
          apply list_elem_of_singleton in Hy as ->.
          apply Hnin. rewrite Hidy, <- Hidx. by eapply Hvis. }
      destruct (1 <? length cluster1)%nat; apply IH.
      * split; [|split; [|split]].
        -- intros cl x Hcl Hx. apply elem_of_app in Hcl as [Hcl|Hcl];
             [by eapply Hvis|].
           apply list_elem_of_singleton in Hcl as ->. by apply Hmem.
        -- intros x Hx. by apply elem_of_nil in Hx.
        -- intros cr1. rewrite claimed_snoc.
           destruct (Crossroad.cr_in cr1 cluster1) eqn:Hc1.
           ++ rewrite (Hcur cr1 Hc1). lia.
           ++ specialize (Hone cr1). lia.
        -- intros cr1 Hcr1. discriminate.
      * split; [done|]. split; [|split; [done|]].
        -- intros x Hx. by apply elem_of_nil in Hx.
        -- intros cr1 Hcr1. discriminate.
Qed.

(** In a run of [get_clusters] no crossroad ends in two clusters; the
    consistency of the state is kept by every step, so the merge step
    never finds a crossroad claimed by more than one cluster. *)
Lemma get_clusters_claims_at_most_once crossroads result out :
  Crossroad.get_clusters G U is_boundary_node B crossroads = Ok (result, out) ->
  forall cr, (claimed cr result <= 1)%nat.
Proof.
  intros Hrun. eapply get_clusters_loop_consistent; [|exact Hrun].
  split; [|split; [|split]].
  - intros cl x Hcl. by apply elem_of_nil in Hcl.
  - intros x Hx. by apply elem_of_nil in Hx.
  - intros cr. unfold claimed. simpl. lia.
  - intros cr Hcr. discriminate.
Qed.
End Clusters.

(** ** Insertion-ordered dictionaries *)

Section DictFacts.
Context {K V : Type} `{EqDecision K}.
Implicit Types (d : list (K * V)) (k : K) (v : V).

Lemma get_set_eq d k v : Py.get (Py.set d k v) k = Some v.
Proof.
  induction d as [|[k' v'] d IH]; simpl.
  - by rewrite decide_True.
  - destruct (decide (k' = k)) as [->|Hne]; simpl.
    + by rewrite decide_True.
    + by rewrite decide_False.
Qed.

Lemma get_set_ne d k k' v : k ≠ k' -> Py.get (Py.set d k v) k' = Py.get d k'.
Proof.
  intros Hne. induction d as [|[k0 v0] d IH]; simpl.
  - by rewrite decide_False.
  - destruct (decide (k0 = k)) as [->|Hne0]; simpl.
    + by rewrite !decide_False.
    + by rewrite IH.
Qed.

Lemma get_Some_elem_of d k v : Py.get d k = Some v -> (k, v) ∈ d.
Proof.
  induction d as [|[k' v'] d IH]; simpl; [discriminate|].
  destruct (decide (k' = k)) as [->|Hne].
  - intros [= ->]. apply list_elem_of_here.
  - intros H. apply list_elem_of_further. by apply IH.
Qed.

Lemma get_None_not_key d k : Py.get d k = None -> k ∉ d.*1.
Proof.
  induction d as [|[k' v'] d IH]; simpl; [intros _; apply not_elem_of_nil|].
  destruct (decide (k' = k)) as [->|Hne]; [discriminate|].
  intros H. apply not_elem_of_cons. split; [done | by apply IH].
Qed.

Lemma elem_of_get d k v : NoDup d.*1 -> (k, v) ∈ d -> Py.get d k = Some v.
Proof.
  induction d as [|[k' v'] d IH]; simpl; intros Hnd Hin.
  - by apply elem_of_nil in Hin.
  - apply NoDup_cons in Hnd as [Hk' Hnd].
    apply elem_of_cons in Hin as [[= -> ->]|Hin].
    + by rewrite decide_True.
    + destruct (decide (k' = k)) as [->|Hne]; [|by apply IH].
      exfalso. apply Hk'. apply list_elem_of_fmap. by exists (k, v).
Qed.

Lemma keys_set d k v :
  (Py.set d k v).*1 = if Py.contains d k then d.*1 else d.*1 ++ [k].
Proof.
  unfold Py.contains. induction d as [|[k' v'] d IH]; [done|].
  cbn [Py.set Py.get]. destruct (decide (k' = k)) as [->|Hne]; [done|].
  rewrite fmap_cons, IH. by destruct (Py.get d k).
Qed.

Lemma NoDup_keys_set d k v : NoDup d.*1 -> NoDup (Py.set d k v).*1.
Proof.
  intros Hnd. rewrite keys_set. unfold Py.contains.
  destruct (Py.get d k) eqn:Hg; [done|].
  apply NoDup_app. split; [done|]. split; [|apply NoDup_singleton].
  intros x Hx Hx'. apply list_elem_of_singleton in Hx' as ->.
  by apply get_None_not_key in Hg.
Qed.

Lemma elem_of_set d k v k' v' :
  (k', v') ∈ Py.set d k v -> (k' = k /\ v' = v) \/ (k', v') ∈ d.
Proof.
  induction d as [|[k0 v0] d IH]; simpl.
  - intros Hin. apply list_elem_of_singleton in Hin as [= -> ->]. by left.
  - destruct (decide (k0 = k)) as [->|Hne].
    + intros Hin. apply elem_of_cons in Hin as [[= -> ->]|Hin]; [by left|].
      right. by apply list_elem_of_further.
    + intros Hin. apply elem_of_cons in Hin as [[= -> ->]|Hin].
      * right. apply list_elem_of_here.
      * destruct (IH Hin) as [?|?]; [by left|]. right. by apply list_elem_of_further.
Qed.

Lemma getitem_Ok d k v : Py.getitem d k = Ok v <-> Py.get d k = Some v.
Proof.
  unfold Py.getitem. destruct (Py.get d k); split; intros [= ->]; done.
Qed.
End DictFacts.

(** ** The connection graph builder *)

Section Connections.
Variable regions : list (Z * CrossroadConnections.region).
Variable threshold : float.
Variable regionsByNode : list (node * list Z).
Variable adjacencies : list (Z * list (Z * list node)).

Local Abbreviation of_link :=
  (CrossroadConnections.connections_of_link regions threshold regionsByNode).
Local Abbreviation of_crossroad :=
  (CrossroadConnections.connections_of_crossroad regions threshold regionsByNode adjacencies).
Local Abbreviation initial_loop :=
  (CrossroadConnections.compute_initial_connections_loop regions threshold
     regionsByNode adjacencies).

Lemma connections_of_link_ordered cr l : forall cr2s acc acc',
  Forall (fun c => ordered_pair regions c.1) acc ->
  of_link cr l cr2s acc = Ok acc' ->
  Forall (fun c => ordered_pair regions c.1) acc'.
Proof.
  induction cr2s as [|cr2 cr2s IH]; intros acc acc' Hacc; simpl.
  - by intros [= <-].
  - destruct (Py.getitem regions cr) as [r|] eqn:Hr; py_step; [|discriminate].
    destruct (Py.getitem regions cr2) as [r2|] eqn:Hr2; py_step; [|discriminate].
    destruct (Z.ltb_spec (CrossroadConnections.id r) (CrossroadConnections.id r2))
      as [Hlt|_]; [|by apply IH].
    destruct (CrossroadConnections.get_path_in_link _ _ _ _ _)
      as [[path distance]|]; py_step; [|discriminate].
    destruct (PrimFloat.ltb _ _); [|by apply IH].
    apply IH. apply Forall_app. split; [done|].
    constructor; [|constructor]. exists r, r2. simpl.
    by rewrite <- !getitem_Ok.
Qed.

Lemma connections_of_crossroad_ordered cr : forall ls acc acc',
  Forall (fun c => ordered_pair regions c.1) acc ->
  of_crossroad cr ls acc = Ok acc' ->
  Forall (fun c => ordered_pair regions c.1) acc'.
Proof.
  induction ls as [|l ls IH]; intros acc acc' Hacc; simpl.
  - by intros [= <-].
  - destruct (Py.getitem adjacencies l) as [adjl|]; py_step; [|discriminate].
    destruct (of_link cr l adjl.*1 acc) as [acc1|] eqn:Hl; py_step; [|discriminate].
    apply IH. by eapply connections_of_link_ordered.
Qed.

Lemma compute_initial_connections_ordered : forall crs acc acc',
  Forall (fun c => ordered_pair regions c.1) acc ->
  initial_loop crs acc = Ok acc' ->
  Forall (fun c => ordered_pair regions c.1) acc'.
Proof.
  induction crs as [|cr crs IH]; intros acc acc' Hacc; simpl.
  - by intros [= <-].
  - destruct (Py.getitem adjacencies cr) as [adjcr|]; py_step; [|discriminate].
    destruct (of_crossroad cr adjcr.*1 acc) as [acc1|] eqn:Hc; py_step; [|discriminate].
    apply IH. by eapply connections_of_crossroad_ordered.
Qed.

Lemma merge_connection_keys (P : Z * Z -> Prop) : forall initial merged,
  Forall (fun c : Z * Z * CrossroadConnections.evidence => P c.1) initial ->
  Forall (fun e : Z * Z * list CrossroadConnections.evidence => P e.1) merged ->
  NoDup merged.*1 ->
  Forall (fun e => P e.1)
         (fold_left CrossroadConnections.merge_connection initial merged)
  /\ NoDup (fold_left CrossroadConnections.merge_connection initial merged).*1.
Proof.
  induction initial as [|[[c0 c1] c2] initial IH]; intros merged Hi Hm Hnd; simpl.
  - done.
  - apply Forall_cons in Hi as [Hc Hi]. simpl in Hc.
    apply IH; [done| |].
    + apply Forall_forall. intros [k ev] Hin.
      rewrite Forall_forall in Hm.
      destruct (Py.get merged (c0, c1)) as [l|];
        apply elem_of_set in Hin as [[-> _]|Hin]; simpl; try done;
        by apply (Hm (k, ev)).
    + destruct (Py.get merged (c0, c1)); by apply NoDup_keys_set.
Qed.

Lemma connections_fmap_id (merged : list (Z * Z * list CrossroadConnections.evidence)) :
  (fun '(c, ev) => (c.1, c.2, ev)) <$> merged = merged.
Proof.
  induction merged as [|[[a b] ev] merged IH]; [done|].
  rewrite fmap_cons, IH. done.
Qed.

Lemma compute_connected_crossroads_ordered crs connected :
  CrossroadConnections.compute_connected_crossroads regions threshold
    regionsByNode adjacencies crs = Ok connected ->
  Forall (fun c => ordered_pair regions c.1) connected /\ NoDup connected.*1.
Proof.
  unfold CrossroadConnections.compute_connected_crossroads,
    CrossroadConnections.compute_initial_connections.
  destruct (initial_loop crs []) as [initial|] eqn:Hi; py_step; [|discriminate].
  intros [= <-]. rewrite connections_fmap_id.
  apply (merge_connection_keys (ordered_pair regions)); [|constructor|constructor].
  eapply compute_initial_connections_ordered; [constructor | exact Hi].
Qed.
End Connections.

Lemma init_connected regions threshold s :
  CrossroadConnections.init regions threshold = Ok s ->
  CrossroadConnections.regions s = regions
  /\ CrossroadConnections.connection_threshold s = threshold
  /\ CrossroadConnections.classify regions regions.*1 [] []
     = Ok (CrossroadConnections.crossroads s, CrossroadConnections.links s)
  /\ CrossroadConnections.index_nodes regions regions.*1 []
     = Ok (CrossroadConnections.regionsByNode s)
  /\ CrossroadConnections.adjacencies s
     = CrossroadConnections.build_adjacencies (CrossroadConnections.crossroads s)
         (CrossroadConnections.links s) (CrossroadConnections.regionsByNode s)
  /\ CrossroadConnections.compute_connected_crossroads regions threshold
       (CrossroadConnections.regionsByNode s) (CrossroadConnections.adjacencies s)
       (CrossroadConnections.crossroads s)
     = Ok (CrossroadConnections.connected_crossroads s).
Proof.
  unfold CrossroadConnections.init.
  destruct (CrossroadConnections.classify _ _ _ _) as [[crs lks]|];
    py_step; [|discriminate].
  destruct (CrossroadConnections.index_nodes _ _ _) as [rbn|];
    py_step; [|discriminate].
  destruct (CrossroadConnections.compute_connected_crossroads _ _ _ _ _)
    as [connected|] eqn:Hc; py_step; [|discriminate].
  intros [= <-]. simpl. repeat split; done.
Qed.

(** C8. Every connection stored by [CrossroadConnections] is
    canonically ordered: for a stored connection [(a, b, evidence)] the
    id of the region [a] is strictly less than the id of the region [b],
    no connection is stored for the opposite pair [(b, a)], and the pair
    [(a, b)] is stored once. *)
Theorem connections_canonically_ordered regions threshold s a b ev :
  CrossroadConnections.init regions threshold = Ok s ->
  (a, b, ev) ∈ CrossroadConnections.connected_crossroads s ->
  (exists ra rb,
     Py.get regions a = Some ra /\ Py.get regions b = Some rb
     /\ CrossroadConnections.id ra < CrossroadConnections.id rb)
  /\ (forall ev', (b, a, ev') ∉ CrossroadConnections.connected_crossroads s)
  /\ (forall ev', (a, b, ev') ∈ CrossroadConnections.connected_crossroads s -> ev' = ev).
Proof.
  intros Hinit Hin.
  apply init_connected in Hinit as (_ & _ & _ & _ & _ & Hconn).
  apply compute_connected_crossroads_ordered in Hconn as [Hord Hnd].
  rewrite Forall_forall in Hord.
  pose proof (Hord _ Hin) as (ra & rb & Ha & Hb & Hlt). simpl in *.
  split; [by exists ra, rb|]. split.
  - intros ev' Hin'. pose proof (Hord _ Hin') as (rb' & ra' & Hb' & Ha' & Hlt').
    simpl in *. rewrite Ha in Ha'. rewrite Hb in Hb'.
    injection Ha' as <-. injection Hb' as <-. lia.
  - intros ev' Hin'.
    pose proof (elem_of_get _ _ _ Hnd Hin) as H1.
    pose proof (elem_of_get _ _ _ Hnd Hin') as H2. congruence.
Qed.

Lemma connections_canonically_ordered_witness :
  (exists ra rb,
     Py.get (Example.pair_regions 15) 0 = Some ra
     /\ Py.get (Example.pair_regions 15) 1 = Some rb
     /\ CrossroadConnections.id ra < CrossroadConnections.id rb)
  /\ (forall ev',
        (1, 0, ev') ∉ CrossroadConnections.connected_crossroads
                        (Example.pair_state 15 [(0, 1, [([2; 5; 3], 2)])]))
  /\ (forall ev',
        (0, 1, ev') ∈ CrossroadConnections.connected_crossroads
                        (Example.pair_state 15 [(0, 1, [([2; 5; 3], 2)])]) ->
        ev' = [([2; 5; 3], 2)]).
Proof.
  apply (connections_canonically_ordered (Example.pair_regions 15) 2
           (Example.pair_state 15 [(0, 1, [([2; 5; 3], 2)])])).
  - vm_compute. reflexivity.
  - simpl. apply list_elem_of_here.
Defined.

Lemma of_pair_app {X} k (l1 l2 : list (Z * Z * X)) :
  of_pair k (l1 ++ l2) = of_pair k l1 ++ of_pair k l2.
Proof. apply List.filter_app. Qed.

Lemma of_pair_none {X} k (l : list (Z * Z * X)) :
  Forall (fun c => c.1 ≠ k) l -> of_pair k l = [].
Proof.
  induction 1 as [|c l Hc _ IH]; [done|]. unfold of_pair in *. simpl.
  by rewrite bool_decide_eq_false_2.
Qed.

Lemma flat_map_if_filter {A B} (P : A -> bool) (f : A -> list B) (l : list A) :
  flat_map (fun x => if P x then f x else []) l = flat_map f (List.filter P l).
Proof.
  induction l as [|x l IH]; simpl; [done|].
  destruct (P x); simpl; by rewrite IH.
Qed.

Lemma flat_map_if_eq {A B} `{EqDecision A} (a : A) (ys : list B) (l : list A) :
  NoDup l -> a ∈ l ->
  flat_map (fun x => if decide (x = a) then ys else []) l = ys.
Proof.
  induction l as [|x l IH]; intros Hnd Hin; [by apply elem_of_nil in Hin|].
  apply NoDup_cons in Hnd as [Hx Hnd]. simpl.
  destruct (decide (x = a)) as [->|Hne].
  - assert (flat_map (fun x => if decide (x = a) then ys else []) l = []) as ->.
    { clear IH Hin Hnd. induction l as [|y l IH]; simpl; [done|].
      apply not_elem_of_cons in Hx as [Hy Hx].
      rewrite decide_False by done. by apply IH. }
    by rewrite app_nil_r.
  - apply elem_of_cons in Hin as [->|Hin]; [done|]. by apply IH.
Qed.

Lemma of_pair_NoDup_keys {X} k (d : list (Z * Z * X)) :
  NoDup d.*1 ->
  of_pair k d = match Py.get d k with Some v => [(k, v)] | None => [] end.
Proof.
  unfold of_pair. induction d as [|[k' v'] d IH]; intros Hnd; [done|].
  rewrite fmap_cons in Hnd. apply NoDup_cons in Hnd as [Hk' Hnd]. simpl.
  destruct (decide (k' = k)) as [->|Hne].
  - rewrite bool_decide_eq_true_2 by done. f_equal.
    rewrite (IH Hnd).
    destruct (Py.get d k) as [x|] eqn:Hg; [|done].
    apply get_Some_elem_of in Hg. exfalso. apply Hk'.
    apply list_elem_of_fmap. by exists (k, x).
  - rewrite bool_decide_eq_false_2 by done. by apply IH.
Qed.

Section Evidence.
Variable regions : list (Z * CrossroadConnections.region).
Variable threshold : float.
Variable regionsByNode : list (node * list Z).
Variable adjacencies : list (Z * list (Z * list node)).

Local Abbreviation of_link :=
  (CrossroadConnections.connections_of_link regions threshold regionsByNode).
Local Abbreviation of_crossroad :=
  (CrossroadConnections.connections_of_crossroad regions threshold regionsByNode adjacencies).
Local Abbreviation initial_loop :=
  (CrossroadConnections.compute_initial_connections_loop regions threshold
     regionsByNode adjacencies).

Lemma connections_of_link_new cr l : forall cr2s acc acc',
  of_link cr l cr2s acc = Ok acc' ->
  exists new, acc' = acc ++ new
              /\ Forall (fun c => c.1.1 = cr /\ c.1.2 ∈ cr2s) new.
Proof.
  induction cr2s as [|cr2 cr2s IH]; intros acc acc'; simpl.
  - intros [= <-]. exists []. by rewrite app_nil_r.
  - assert (forall new,
              Forall (fun c : Z * Z * CrossroadConnections.evidence =>
                        c.1.1 = cr /\ c.1.2 ∈ cr2s) new ->
              Forall (fun c : Z * Z * CrossroadConnections.evidence =>
                        c.1.1 = cr /\ c.1.2 ∈ cr2 :: cr2s) new) as Hweak.
    { intros new Hf. eapply Forall_impl; [exact Hf|].
      intros c [? ?]. split; [done|]. by apply list_elem_of_further. }
    destruct (Py.getitem regions cr) as [r|]; py_step; [|discriminate].
    destruct (Py.getitem regions cr2) as [r2|]; py_step; [|discriminate].
    destruct (CrossroadConnections.id r <? CrossroadConnections.id r2).
    + destruct (CrossroadConnections.get_path_in_link _ _ _ _ _)
        as [[path distance]|]; py_step; [|discriminate].
      destruct (PrimFloat.ltb _ _).
      * intros Hrun. destruct (IH _ _ Hrun) as (new & -> & Hnew).
        exists ((cr, cr2, (path, l)) :: new). rewrite <- app_assoc. split; [done|].
        constructor; [|by apply Hweak]. split; [done|apply list_elem_of_here].
      * intros Hrun. destruct (IH _ _ Hrun) as (new & -> & Hnew).
        exists new. split; [done | by apply Hweak].
    + intros Hrun. destruct (IH _ _ Hrun) as (new & -> & Hnew).
      exists new. split; [done | by apply Hweak].
Qed.

Lemma connections_of_link_pair a b l : forall cr2s acc acc',
  NoDup cr2s ->
  of_link a l cr2s acc = Ok acc' ->
  of_pair (a, b) acc'
  = of_pair (a, b) acc ++ (if Py.mem b cr2s then pair_evidence regions threshold regionsByNode a b l else []).
Proof.
  induction cr2s as [|cr2 cr2s IH]; intros acc acc' Hnd; simpl.
  - intros [= <-]. by rewrite app_nil_r.
  - apply NoDup_cons in Hnd as [Hcr2 Hnd].
    destruct (Py.getitem regions a) as [r|] eqn:Hr; py_step; [|discriminate].
    destruct (Py.getitem regions cr2) as [r2|] eqn:Hr2; py_step; [|discriminate].
    unfold Py.mem.
    destruct (decide (cr2 = b)) as [->|Hne].
    + rewrite bool_decide_eq_true_2 by apply list_elem_of_here.
      unfold pair_evidence.
      apply getitem_Ok in Hr, Hr2. rewrite Hr, Hr2.
      assert (forall acc0 acc1,
                of_link a l cr2s acc0 = Ok acc1 ->
                of_pair (a, b) acc1 = of_pair (a, b) acc0) as Hrest.
      { intros acc0 acc1 Hrun.
        apply connections_of_link_new in Hrun as (new & -> & Hnew).
        rewrite of_pair_app, (of_pair_none _ new), app_nil_r; [done|].
        eapply Forall_impl; [exact Hnew|]. intros [[c0 c1] c2] [_ Hin] [= _ ->].
        simpl in Hin. done. }
      destruct (CrossroadConnections.id r <? CrossroadConnections.id r2); simpl.
      * destruct (CrossroadConnections.get_path_in_link _ _ _ _ _)
          as [[path distance]|]; py_step; [|discriminate].
        destruct (PrimFloat.ltb _ _).
        -- intros Hrun. rewrite (Hrest _ _ Hrun), of_pair_app. f_equal.
           unfold of_pair. simpl. by rewrite bool_decide_eq_true_2.
        -- intros Hrun. by rewrite (Hrest _ _ Hrun), app_nil_r.
      * intros Hrun. rewrite (Hrest _ _ Hrun).
        by destruct (CrossroadConnections.get_path_in_link _ _ _ _ _) as [[? ?]|];
          rewrite app_nil_r.
    + assert (bool_decide (b ∈ cr2 :: cr2s) = bool_decide (b ∈ cr2s)) as ->.
      { apply bool_decide_ext. rewrite elem_of_cons.
        split; [intros [->|?]; done | by right]. }
      destruct (CrossroadConnections.id r <? CrossroadConnections.id r2);
        [|by apply IH].
      destruct (CrossroadConnections.get_path_in_link _ _ _ _ _)
        as [[path distance]|]; py_step; [|discriminate].
      destruct (PrimFloat.ltb _ _); [|by apply IH].
      intros Hrun. rewrite (IH _ _ Hnd Hrun), of_pair_app.
      unfold of_pair at 2. simpl.
      rewrite bool_decide_eq_false_2 by (intros [= ?]; done).
      by rewrite app_nil_r.
Qed.

Lemma connections_of_crossroad_new cr : forall ls acc acc',
  of_crossroad cr ls acc = Ok acc' ->
  exists new, acc' = acc ++ new /\ Forall (fun c => c.1.1 = cr) new.
Proof.
  induction ls as [|l ls IH]; intros acc acc'; simpl.
  - intros [= <-]. exists []. by rewrite app_nil_r.
  - destruct (Py.getitem adjacencies l) as [adjl|]; py_step; [|discriminate].
    destruct (of_link cr l adjl.*1 acc) as [acc1|] eqn:Hl; py_step; [|discriminate].
    intros Hrun. apply connections_of_link_new in Hl as (new1 & -> & Hnew1).
    destruct (IH _ _ Hrun) as (new & -> & Hnew).
    exists (new1 ++ new). rewrite app_assoc. split; [done|].
    apply Forall_app. split; [|done].
    eapply Forall_impl; [exact Hnew1|]. by intros c [? _].
Qed.

Lemma connections_of_crossroad_pair a b :
  Forall (fun e => NoDup e.2.*1) adjacencies ->
  forall ls acc acc',
  of_crossroad a ls acc = Ok acc' ->
  of_pair (a, b) acc' = of_pair (a, b) acc ++ flat_map (link_evidence regions threshold regionsByNode adjacencies a b) ls.
Proof.
  intros Hadj. induction ls as [|l ls IH]; intros acc acc'; simpl.
  - intros [= <-]. by rewrite app_nil_r.
  - unfold link_evidence at 1.
    destruct (Py.getitem adjacencies l) as [adjl|] eqn:Hg; py_step; [|discriminate].
    apply getitem_Ok in Hg. rewrite Hg.
    destruct (of_link a l adjl.*1 acc) as [acc1|] eqn:Hl; py_step; [|discriminate].
    intros Hrun. rewrite (IH _ _ Hrun), app_assoc. f_equal.
    apply connections_of_link_pair; [|done].
    rewrite Forall_forall in Hadj.
    apply (Hadj (l, adjl)). by apply get_Some_elem_of.
Qed.

Lemma compute_initial_connections_pair a b :
  Forall (fun e => NoDup e.2.*1) adjacencies ->
  forall crs acc acc',
  initial_loop crs acc = Ok acc' ->
  of_pair (a, b) acc'
  = of_pair (a, b) acc
    ++ flat_map (fun cr => if decide (cr = a)
                           then match Py.get adjacencies a with
                                | Some adja => flat_map (link_evidence regions threshold regionsByNode adjacencies a b) adja.*1
                                | None => []
                                end
                           else []) crs.
Proof.
  intros Hadj. induction crs as [|cr crs IH]; intros acc acc'; simpl.
  - intros [= <-]. by rewrite app_nil_r.
  - destruct (Py.getitem adjacencies cr) as [adjcr|] eqn:Hg; py_step; [|discriminate].
    destruct (of_crossroad cr adjcr.*1 acc) as [acc1|] eqn:Hc; py_step; [|discriminate].
    intros Hrun. rewrite (IH _ _ Hrun), app_assoc. f_equal.
    destruct (decide (cr = a)) as [->|Hne].
    + apply getitem_Ok in Hg. rewrite Hg.
      by apply connections_of_crossroad_pair.
    + apply connections_of_crossroad_new in Hc as (new & -> & Hnew).
      rewrite of_pair_app, (of_pair_none _ new); [done|].
      eapply Forall_impl; [exact Hnew|]. intros [[c0 c1] c2] Hc0 [= -> _]. done.
Qed.

Lemma merge_connection_get k : forall initial merged,
  Py.get (fold_left CrossroadConnections.merge_connection initial merged) k
  = match Py.get merged k, (snd <$> of_pair k initial) with
    | None, [] => None
    | None, evs => Some evs
    | Some old, evs => Some (old ++ evs)
    end.
Proof.
  induction initial as [|[[c0 c1] c2] initial IH]; intros merged.
  - simpl. destruct (Py.get merged k); by rewrite ?app_nil_r.
  - cbn [fold_left]. rewrite IH. unfold CrossroadConnections.merge_connection.
    unfold of_pair. cbn [List.filter fst].
    destruct (decide ((c0, c1) = k)) as [<-|Hne].
    + rewrite bool_decide_eq_true_2 by done. rewrite fmap_cons. cbn [snd].
      destruct (Py.get merged (c0, c1)) as [old|]; rewrite get_set_eq.
      * by rewrite <- app_assoc.
      * done.
    + rewrite bool_decide_eq_false_2 by done.
      destruct (Py.get merged (c0, c1)) as [old|]; by rewrite get_set_ne.
Qed.
End Evidence.

Lemma Qltb_lt (x y : Q) : Py.Qltb x y = true <-> (x < y)%Q.
Proof.
  unfold Py.Qltb. rewrite negb_true_iff, <- not_true_iff_false, Qle_bool_iff.
  split; [apply Qnot_le_lt | apply Qlt_not_le].
Qed.

Lemma Forall_set {K V} `{EqDecision K} (P : K * V -> Prop) (d : list (K * V)) k v :
  Forall P d -> P (k, v) -> Forall P (Py.set d k v).
Proof.
  intros Hd Hkv. apply Forall_forall. intros [k' v'] Hin.
  apply elem_of_set in Hin as [[-> ->]|Hin]; [done|].
  rewrite Forall_forall in Hd. by apply Hd.
Qed.

Section Adjacencies.
Variable regions : list (Z * CrossroadConnections.region).
Variables crossroads links : list Z.

Lemma classify_sublist : forall rids crs lks crs' lks',
  CrossroadConnections.classify regions rids crs lks = Ok (crs', lks') ->
  exists new, crs' = crs ++ new /\ new `sublist_of` rids.
Proof.
  induction rids as [|rid rids IH]; intros crs lks crs' lks'; simpl.
  - intros [= <- <-]. exists []. by rewrite app_nil_r.
  - destruct (Py.getitem regions rid) as [r|]; py_step; [|discriminate].
    destruct (CrossroadConnections.is_crossroad r);
      [|destruct (CrossroadConnections.is_link r)].
    + intros Hrun. destruct (IH _ _ _ _ Hrun) as (new & -> & Hsub).
      exists (rid :: new). rewrite <- app_assoc. split; [done|].
      by apply sublist_skip.
    + intros Hrun. destruct (IH _ _ _ _ Hrun) as (new & -> & Hsub).
      exists new. split; [done|]. by apply sublist_cons.
    + intros Hrun. destruct (IH _ _ _ _ Hrun) as (new & -> & Hsub).
      exists new. split; [done|]. by apply sublist_cons.
Qed.

Lemma add_adjacencies_loop_NoDup r1 n : forall rs adj1,
  NoDup adj1.*1 ->
  NoDup (CrossroadConnections.add_adjacencies_loop crossroads links r1 n rs adj1).*1.
Proof.
  induction rs as [|r2 rs IH]; intros adj1 Hnd; simpl; [done|].
  destruct (_ && _); [|by apply IH].
  apply IH.
  assert (NoDup (if negb (Py.contains adj1 r2) then Py.set adj1 r2 [] else adj1).*1)
    as Hnd'.
  { destruct (negb _); [by apply NoDup_keys_set | done]. }
  destruct (Py.get _ r2); [by apply NoDup_keys_set | done].
Qed.

Lemma add_adjacencies_NoDup adjacencies r1 n rs :
  inner_keys_NoDup adjacencies ->
  inner_keys_NoDup
    (CrossroadConnections.add_adjacencies crossroads links adjacencies r1 n rs).
Proof.
  intros Hinv. unfold CrossroadConnections.add_adjacencies.
  assert (inner_keys_NoDup
            (if negb (Py.contains adjacencies r1)
             then Py.set adjacencies r1 [] else adjacencies)) as Hinv'.
  { destruct (negb _); [|done]. apply Forall_set; [done|]. simpl. constructor. }
  destruct (Py.get _ r1) as [adj1|] eqn:Hg; [|done].
  apply Forall_set; [done|]. simpl. apply add_adjacencies_loop_NoDup.
  apply get_Some_elem_of in Hg. unfold inner_keys_NoDup in Hinv'.
  rewrite Forall_forall in Hinv'. by apply (Hinv' (r1, adj1)).
Qed.

Lemma add_adjacencies_fold_NoDup n rs : forall rs0 adjacencies,
  inner_keys_NoDup adjacencies ->
  inner_keys_NoDup
    (fold_left
       (fun adjacencies r1 =>
          CrossroadConnections.add_adjacencies crossroads links adjacencies r1 n rs)
       rs0 adjacencies).
Proof.
  induction rs0 as [|r1 rs0 IH]; intros adjacencies Hinv; simpl; [done|].
  apply IH. by apply add_adjacencies_NoDup.
Qed.

Lemma build_adjacencies_NoDup regionsByNode :
  inner_keys_NoDup
    (CrossroadConnections.build_adjacencies crossroads links regionsByNode).
Proof.
  unfold CrossroadConnections.build_adjacencies.
  generalize (@nil (Z * list (Z * list node))) (Forall_nil_2 (fun e : Z * list (Z * list node) => NoDup e.2.*1)).
  induction regionsByNode as [|[n rs] rbn IH]; intros adjacencies Hinv; simpl; [done|].
  apply IH. by apply add_adjacencies_fold_NoDup.
Qed.
End Adjacencies.

(** The connections stored for a pair of keys: one connection with the
    evidence of every region that joins the pair and passes the tests,
    in the order of the adjacency of [a], or none when no region
    does. *)
Lemma connections_of_pair regions threshold s a b :
  NoDup regions.*1 ->
  CrossroadConnections.init regions threshold = Ok s ->
  a ∈ CrossroadConnections.crossroads s ->
  of_pair (a, b) (CrossroadConnections.connected_crossroads s)
  = match snd <$> flat_map
            (pair_evidence regions threshold (CrossroadConnections.regionsByNode s) a b)
            (regions_between (CrossroadConnections.adjacencies s) a b) with
    | [] => []
    | evs => [(a, b, evs)]
    end.
Proof.
  intros Hnd Hinit Ha.
  apply init_connected in Hinit as (_ & _ & Hclass & _ & Hadj & Hconn).
  pose proof (compute_connected_crossroads_ordered _ _ _ _ _ _ Hconn) as [_ Hkeys].
  rewrite (of_pair_NoDup_keys _ _ Hkeys).
  assert (NoDup (CrossroadConnections.crossroads s)) as Hcrs.
  { apply classify_sublist in Hclass as (new & -> & Hsub).
    by eapply sublist_NoDup. }
  assert (inner_keys_NoDup (CrossroadConnections.adjacencies s)) as Hinner.
  { rewrite Hadj. apply build_adjacencies_NoDup. }
  revert Hconn.
  unfold CrossroadConnections.compute_connected_crossroads,
    CrossroadConnections.compute_initial_connections.
  destruct (CrossroadConnections.compute_initial_connections_loop _ _ _ _ _ _)
    as [initial|] eqn:Hi; py_step; [|discriminate].
  intros [= <-]. rewrite connections_fmap_id, merge_connection_get. simpl.
  rewrite (compute_initial_connections_pair _ _ _ _ a b Hinner _ _ _ Hi).
  unfold of_pair at 1. simpl.
  rewrite (flat_map_if_eq a _ _ Hcrs Ha).
  unfold regions_between.
  destruct (Py.get (CrossroadConnections.adjacencies s) a) as [adja|]; [|done].
  rewrite <- flat_map_if_filter.
  assert (forall ls,
            flat_map (link_evidence regions threshold
                        (CrossroadConnections.regionsByNode s)
                        (CrossroadConnections.adjacencies s) a b) ls
            = flat_map
                (fun l =>
                   if match Py.get (CrossroadConnections.adjacencies s) l with
                      | Some adjl => Py.mem b adjl.*1
                      | None => false
                      end
                   then pair_evidence regions threshold
                          (CrossroadConnections.regionsByNode s) a b l
                   else []) ls) as ->.
  { intros ls. apply flat_map_ext. intros l. unfold link_evidence.
    by destruct (Py.get (CrossroadConnections.adjacencies s) l). }
  by destruct (snd <$> _).
Qed.

Lemma filter_filter_comm {A} (f g : A -> bool) (l : list A) :
  List.filter f (List.filter g l) = List.filter g (List.filter f l).
Proof.
  induction l as [|x l IH]; simpl; [done|].
  destruct (g x) eqn:Hg, (f x) eqn:Hf; simpl; rewrite ?Hg, ?Hf, IH; done.
Qed.

(** On two crossroads joined by one link of 15 m, shorter than twice
    the branch width of 10 m, a connection is stored but [get_pairs],
    which keeps the connections with more than one piece of evidence,
    reports none. *)
Lemma single_link_pair_not_reported :
  CrossroadConnections.init (Example.pair_regions 15) 2
  = Ok (Example.pair_state 15 [(0, 1, [([2; 5; 3], 2)])])
  /\ regions_between
       (CrossroadConnections.adjacencies (Example.pair_state 15 [(0, 1, [([2; 5; 3], 2)])]))
       0 1 = [2]
  /\ 2 ∈ CrossroadConnections.links (Example.pair_state 15 [(0, 1, [([2; 5; 3], 2)])])
  /\ CrossroadConnections.get_path_in_link (Example.pair_regions 15)
       (CrossroadConnections.regionsByNode (Example.pair_state 15 [(0, 1, [([2; 5; 3], 2)])]))
       2 0 1 = Ok ([2; 5; 3], 15%float)
  /\ PrimFloat.ltb 15 (PrimFloat.mul (Py.max2 10 10) 2) = true
  /\ CrossroadConnections.get_pairs (Example.pair_state 15 [(0, 1, [([2; 5; 3], 2)])])
     = []
  /\ ~ (exists connection,
          of_pair (0, 1)
            (CrossroadConnections.get_pairs
               (Example.pair_state 15 [(0, 1, [([2; 5; 3], 2)])]))
          = [connection]).
Proof.
  split; [vm_compute; reflexivity|]. split; [vm_compute; reflexivity|].
  split; [apply list_elem_of_here|].
  split; [vm_compute; reflexivity|]. split; [vm_compute; reflexivity|].
  split; [vm_compute; reflexivity|].
  intros [connection Hone]. vm_compute in Hone. discriminate.
Qed.

(** C4, amended. For two crossroads [a] and [b] (the id of [a] below
    the id of [b]) joined by exactly one link [l] and by no region of
    another kind, the path of [l] between the shared nodes having the
    length [d]: when [d] is below the float product
    [max(max_branch_width) * connection_threshold] exactly one
    connection is stored for the pair, with the single piece of
    evidence [(path, l)], and otherwise none is stored; in both cases
    [get_pairs], which keeps the connections with more than one piece
    of evidence, reports no connection for the pair. *)
Theorem single_link_connection regions threshold s a b l ra rb path d :
  NoDup regions.*1 ->
  CrossroadConnections.init regions threshold = Ok s ->
  a ∈ CrossroadConnections.crossroads s ->
  b ∈ CrossroadConnections.crossroads s ->
  l ∈ CrossroadConnections.links s ->
  Py.get regions a = Some ra ->
  Py.get regions b = Some rb ->
  CrossroadConnections.id ra < CrossroadConnections.id rb ->
  regions_between (CrossroadConnections.adjacencies s) a b = [l] ->
  CrossroadConnections.get_path_in_link regions
    (CrossroadConnections.regionsByNode s) l a b = Ok (path, d) ->
  of_pair (a, b) (CrossroadConnections.connected_crossroads s)
  = (if PrimFloat.ltb d
          (PrimFloat.mul (Py.max2 (CrossroadConnections.max_branch_width ra)
                                  (CrossroadConnections.max_branch_width rb))
                         threshold)
     then [(a, b, [(path, l)])] else [])
  /\ of_pair (a, b) (CrossroadConnections.get_pairs s) = [].
Proof.
  intros Hnd Hinit Ha _ _ Hra Hrb Hlt Hone Hpath.
  assert (of_pair (a, b) (CrossroadConnections.connected_crossroads s)
          = (if PrimFloat.ltb d
                  (PrimFloat.mul (Py.max2 (CrossroadConnections.max_branch_width ra)
                                          (CrossroadConnections.max_branch_width rb))
                                 threshold)
             then [(a, b, [(path, l)])] else [])) as Hstored.
  { rewrite (connections_of_pair _ _ _ _ _ Hnd Hinit Ha), Hone. simpl.
    unfold pair_evidence. rewrite Hra, Hrb, Hpath.
    destruct (Z.ltb_spec (CrossroadConnections.id ra) (CrossroadConnections.id rb))
      as [_|?]; [|lia]. simpl.
    by destruct (PrimFloat.ltb d _). }
  split; [exact Hstored|].
  unfold CrossroadConnections.get_pairs, of_pair.
  rewrite filter_filter_comm. fold (of_pair (a, b) (CrossroadConnections.connected_crossroads s)).
  rewrite Hstored. by destruct (PrimFloat.ltb d _).
Qed.

Lemma single_link_connection_witness :
  of_pair (0, 1)
    (CrossroadConnections.connected_crossroads
       (Example.pair_state 15 [(0, 1, [([2; 5; 3], 2)])]))
  = (if PrimFloat.ltb 15 (PrimFloat.mul (Py.max2 10 10) 2)
     then [(0, 1, [([2; 5; 3], 2)])] else [])
  /\ of_pair (0, 1)
       (CrossroadConnections.get_pairs
          (Example.pair_state 15 [(0, 1, [([2; 5; 3], 2)])])) = [].
Proof.
  apply (single_link_connection (Example.pair_regions 15) 2
           (Example.pair_state 15 [(0, 1, [([2; 5; 3], 2)])]) 0 1 2
           (Example.crossroad_region 0 [1; 2] 10)
           (Example.crossroad_region 1 [3; 4] 10) [2; 5; 3] 15).
  - compute_done.
  - vm_compute. reflexivity.
  - simpl. apply list_elem_of_here.
  - simpl. apply list_elem_of_further, list_elem_of_here.
  - simpl. apply list_elem_of_here.
  - reflexivity.
  - reflexivity.
  - simpl. lia.
  - vm_compute. reflexivity.
  - vm_compute. reflexivity.
Defined.

(** The product of the test is the rounded one: with branch widths of
    3.0 and a threshold of 2.4 it is 7.199999999999999, not 7.2, and a
    path of this length is not below it. *)
Example rounded_product_decides :
  PrimFloat.mul 3 Example.f_2_4 = Example.f_7_199999999999999
  /\ exists s,
       CrossroadConnections.init
         (Example.narrow_regions Example.f_7_199999999999999) Example.f_2_4 = Ok s
       /\ CrossroadConnections.connected_crossroads s = [].
Proof. split; [vm_compute; reflexivity|]. eexists. split; vm_compute; reflexivity. Qed.

(** A region that is neither a crossroad nor a link and touches both
    crossroads is evidence like a link: with one link and one such
    region the pair has two pieces of evidence and [get_pairs] reports
    it. *)
Example unknown_region_is_evidence :
  exists s,
    CrossroadConnections.init Example.mixed_regions 2 = Ok s
    /\ CrossroadConnections.links s = [2]
    /\ regions_between (CrossroadConnections.adjacencies s) 0 1 = [3; 2]
    /\ CrossroadConnections.get_pairs s
       = [(0, 1, [([1; 6; 4], 3); ([2; 5; 3], 2)])].
Proof. eexists. repeat split; vm_compute; reflexivity. Qed.

(** The same crossroads 500 m apart: no connection is stored. *)
Example far_apart_pair_not_connected :
  CrossroadConnections.init (Example.pair_regions 500) 2
  = Ok (Example.pair_state 500 []).
Proof. vm_compute. reflexivity. Qed.

(** ** Cycles of crossroads *)

Lemma cycle_ids_rev c : cycle_ids (rev c) = cycle_ids c.
Proof.
  unfold cycle_ids. apply set_eq. intros x.
  rewrite !elem_of_list_to_set, !list_elem_of_fmap.
  split; intros (y & -> & Hy); exists y; (split; [done|]);
    apply list_elem_of_In; apply list_elem_of_In in Hy;
    [by apply <- in_rev | by apply -> in_rev].
Qed.

Lemma cycle_ids_same_elements c1 c2 :
  (forall x, x ∈ fst <$> c1 <-> x ∈ fst <$> c2) -> cycle_ids c1 = cycle_ids c2.
Proof.
  intros H. unfold cycle_ids. apply set_eq. intros x.
  by rewrite !elem_of_list_to_set.
Qed.

Section Unique.
Local Abbreviation loop := CrossroadConnections.get_unique_cycles_loop.

Lemma unique_loop_app : forall cycles result seen,
  exists new, loop cycles result seen = result ++ new /\ new `sublist_of` cycles.
Proof.
  induction cycles as [|c cycles IH]; intros result seen; simpl.
  - exists []. by rewrite app_nil_r.
  - destruct (negb _).
    + destruct (IH (result ++ [c]) (seen ++ [list_to_set (fst <$> c)]))
        as (new & -> & Hsub).
      exists (c :: new). rewrite <- app_assoc. split; [done|]. by apply sublist_skip.
    + destruct (IH result seen) as (new & -> & Hsub).
      exists new. split; [done|]. by apply sublist_cons.
Qed.

Lemma unique_loop_NoDup : forall cycles result seen,
  seen = cycle_ids <$> result ->
  NoDup seen ->
  NoDup (cycle_ids <$> loop cycles result seen).
Proof.
  induction cycles as [|c cycles IH]; intros result seen Hseen Hnd; simpl.
  - by rewrite <- Hseen.
  - unfold Py.mem. fold (cycle_ids c).
    destruct (decide (cycle_ids c ∈ seen)) as [Hin|Hnin].
    + rewrite bool_decide_eq_true_2 by done. simpl. by apply IH.
    + rewrite bool_decide_eq_false_2 by done. simpl. apply IH.
      * by rewrite fmap_app, Hseen.
      * apply NoDup_app. split; [done|]. split; [|apply NoDup_singleton].
        intros x Hx Hx'. apply list_elem_of_singleton in Hx' as ->. done.
Qed.

(** A cycle is kept when no earlier cycle and no set seen so far has its
    set of crossroads. *)
Lemma unique_loop_first_kept : forall pre result seen c post,
  cycle_ids c ∉ seen ->
  (forall c', c' ∈ pre -> cycle_ids c' ≠ cycle_ids c) ->
  c ∈ loop (pre ++ c :: post) result seen.
Proof.
  induction pre as [|c0 pre IH]; intros result seen c post Hseen Hpre; simpl.
  - unfold Py.mem. fold (cycle_ids c).
    rewrite bool_decide_eq_false_2 by done. simpl.
    destruct (unique_loop_app post (result ++ [c]) (seen ++ [cycle_ids c]))
      as (new & -> & _).
    rewrite <- app_assoc. apply elem_of_app. right. apply list_elem_of_here.
  - assert (cycle_ids c0 ≠ cycle_ids c) as Hne
      by (apply Hpre; apply list_elem_of_here).
    assert (forall c', c' ∈ pre -> cycle_ids c' ≠ cycle_ids c) as Hpre'
      by (intros c' Hc'; apply Hpre; by apply list_elem_of_further).
    destruct (negb _); apply IH; try done.
    fold (cycle_ids c0). intros Hin. apply elem_of_app in Hin as [Hin|Hin]; [done|].
    apply list_elem_of_singleton in Hin. congruence.
Qed.

(** A kept cycle is the first one of the list with its set of
    crossroads. *)
Lemma unique_loop_kept_first : forall cycles result seen c,
  c ∈ loop cycles result seen ->
  c ∈ result
  \/ exists pre post,
       cycles = (pre ++ c :: post)
       /\ (cycle_ids c ∉ seen)
       /\ forall c', c' ∈ pre -> cycle_ids c' ≠ cycle_ids c.
Proof.
  induction cycles as [|c0 cycles IH]; intros result seen c; simpl.
  - by left.
  - unfold Py.mem. fold (cycle_ids c0).
    destruct (decide (cycle_ids c0 ∈ seen)) as [Hin|Hnin].
    + rewrite bool_decide_eq_true_2 by done. simpl. intros Hc.
      destruct (IH _ _ _ Hc) as [?|(pre & post & -> & Hseen & Hpre)]; [by left|].
      right. exists (c0 :: pre), post. split; [done|]. split; [done|].
      intros c' Hc'. apply elem_of_cons in Hc' as [->|Hc']; [|by apply Hpre].
      intros Heq. apply Hseen. by rewrite <- Heq.
    + rewrite bool_decide_eq_false_2 by done. simpl. intros Hc.
      destruct (IH _ _ _ Hc) as [Hres|(pre & post & -> & Hseen & Hpre)].
      * apply elem_of_app in Hres as [?|Hres]; [by left|].
        apply list_elem_of_singleton in Hres as ->.
        right. exists [], cycles. split; [done|]. split; [done|].
        intros c' Hc'. by apply elem_of_nil in Hc'.
      * right. exists (c0 :: pre), post. split; [done|].
        rewrite not_elem_of_app in Hseen. destruct Hseen as [Hseen Hc0].
        split; [done|].
        intros c' Hc'. apply elem_of_cons in Hc' as [->|Hc']; [|by apply Hpre].
        intros Heq. apply Hc0. rewrite Heq. apply list_elem_of_here.
Qed.
End Unique.

Lemma cycles_steps_nil s : forall steps results,
  CrossroadConnections.cycles_steps s steps [] results = Ok results.
Proof. induction steps as [|steps IH]; intros results; simpl; [done | apply IH]. Qed.

Lemma cycles_steps_S s steps paths results results' new_paths :
  CrossroadConnections.extend_paths s paths results [] = Ok (results', new_paths) ->
  CrossroadConnections.cycles_steps s (S steps) paths results
  = CrossroadConnections.cycles_steps s steps new_paths results'.
Proof. intros H. simpl. by rewrite H. Qed.

Lemma collect_cycles_ext s (n m : Z) : forall crs results,
  (forall c, c ∈ crs ->
     CrossroadConnections.get_cycles_from_crossroad s c n
     = CrossroadConnections.get_cycles_from_crossroad s c m) ->
  CrossroadConnections.collect_cycles s crs n results
  = CrossroadConnections.collect_cycles s crs m results.
Proof.
  induction crs as [|c crs IH]; intros results Hext; simpl; [done|].
  rewrite (Hext c) by apply list_elem_of_here.
  destruct (CrossroadConnections.get_cycles_from_crossroad s c m); py_step; [|done].
  apply IH. intros c' Hc'. apply Hext. by apply list_elem_of_further.
Qed.

(** On the triangle the search from a crossroad ends after three steps:
    a larger bound finds the same closed walks. *)
Lemma triangle_cycles_from (cr : Z) (max_length : Z) :
  cr ∈ [0; 1; 2] -> 3 <= max_length ->
  CrossroadConnections.get_cycles_from_crossroad Example.triangle_state cr max_length
  = CrossroadConnections.get_cycles_from_crossroad Example.triangle_state cr 3.
Proof.
  intros Hcr Hlen. unfold CrossroadConnections.get_cycles_from_crossroad.
  destruct (Z.to_nat max_length) as [|[|[|k]]] eqn:Hk; try lia.
  repeat (apply elem_of_cons in Hcr as [->|Hcr]); [| | |by apply elem_of_nil in Hcr].
  all: symmetry; etransitivity; [vm_compute; reflexivity|]; symmetry.
  all: do 3 (erewrite cycles_steps_S; [|vm_compute; reflexivity]).
  all: apply cycles_steps_nil.
Qed.

(** ** Three crossroads joined pairwise *)

Lemma flat_map_Permutation {A B} (f : A -> list B) (l1 l2 : list A) :
  l1 ≡ₚ l2 -> flat_map f l1 ≡ₚ flat_map f l2.
Proof.
  induction 1 as [|x l1 l2 _ IH|x y l|l1 l2 l3 _ IH1 _ IH2]; simpl.
  - done.
  - by rewrite IH.
  - rewrite !app_assoc. f_equiv. apply Permutation_app_comm.
  - by rewrite IH1.
Qed.

Lemma contains_link_false (e : list CrossroadConnections.evidence)
    (p : CrossroadConnections.cycle) :
  Forall (fun x => links_disjoint x.2 e) p ->
  CrossroadConnections.contains_link e p = false.
Proof.
  intros Hp. unfold CrossroadConnections.contains_link.
  apply not_true_iff_false. intros Hex.
  apply existsb_exists in Hex as (x & Hx & Hex).
  apply existsb_exists in Hex as (l & Hl & Hmem).
  apply bool_decide_eq_true_1 in Hmem.
  rewrite Forall_forall in Hp. apply list_elem_of_In in Hx, Hl.
  apply (Hp x Hx l.2); [|done].
  apply list_elem_of_fmap. by exists l.
Qed.

Lemma cycle_ids_closed_walk (x u v y z : Z) eu ev ex :
  (u = y /\ v = z) \/ (u = z /\ v = y) ->
  cycle_ids [(x, []); (u, eu); (v, ev); (x, ex)] = {[x; y; z]}.
Proof.
  intros Huv. unfold cycle_ids. simpl. apply set_eq. intros w.
  rewrite !elem_of_union, !elem_of_singleton, elem_of_empty.
  destruct Huv as [[-> ->]|[-> ->]]; tauto.
Qed.

Section Triangle.
Variable s : CrossroadConnections.t.

Local Abbreviation connected := (CrossroadConnections.get_connected_crossroads s).
Local Abbreviation extend := CrossroadConnections.extend_path.
Local Arguments CrossroadConnections.contains_link : simpl never.

(** First step: from the start alone every connection is followed. *)
Lemma extend_start x y z exy exz results new_paths :
  x ≠ y -> x ≠ z ->
  extend [(x, [])] [(y, exy); (z, exz)] results new_paths
  = Ok (results,
        new_paths ++ [[(x, []); (y, exy)]] ++ [[(x, []); (z, exz)]]).
Proof.
  intros Hxy Hxz. simpl. py_step. simpl.
  rewrite !bool_decide_eq_false_2 by done. by rewrite <- app_assoc.
Qed.

(** Second step: the walk does not go back and follows the third side. *)
Lemma extend_second x u v exu euv nexts results new_paths :
  x ≠ v -> u ≠ v -> links_disjoint exu euv ->
  nexts ≡ₚ [(x, exu); (v, euv)] ->
  extend [(x, []); (u, exu)] nexts results new_paths
  = Ok (results, new_paths ++ [[(x, []); (u, exu); (v, euv)]]).
Proof.
  intros Hxv Huv Hdis Hperm.
  assert (CrossroadConnections.contains_link euv [(x, []); (u, exu)] = false) as Hc.
  { apply contains_link_false. repeat constructor; simpl; [|done].
    intros l Hl. by apply elem_of_nil in Hl. }
  symmetry in Hperm. apply Permutation_length_2_inv in Hperm as [-> | ->];
    simpl; py_step; simpl; rewrite Hc; simpl;
    rewrite ?(bool_decide_eq_false_2 (x ≠ x)) by (intros H; by apply H);
    rewrite ?(bool_decide_eq_true_2 (x ≠ v)) by done;
    rewrite ?(bool_decide_eq_false_2 (v = x)) by done;
    simpl; py_step; simpl;
    rewrite ?(bool_decide_eq_false_2 (v = x)) by done; done.
Qed.

(** Third step: the walk closes on the start and does not go back. *)
Lemma extend_third x u v exu euv exv nexts results new_paths :
  x ≠ u -> links_disjoint exu exv -> links_disjoint euv exv ->
  nexts ≡ₚ [(x, exv); (u, euv)] ->
  extend [(x, []); (u, exu); (v, euv)] nexts results new_paths
  = Ok (results ++ [[(x, []); (u, exu); (v, euv); (x, exv)]], new_paths).
Proof.
  intros Hxu Hd1 Hd2 Hperm.
  assert (CrossroadConnections.contains_link exv [(x, []); (u, exu); (v, euv)] = false)
    as Hc.
  { apply contains_link_false. repeat constructor; simpl; [|done|done].
    intros l Hl. by apply elem_of_nil in Hl. }
  symmetry in Hperm. apply Permutation_length_2_inv in Hperm as [-> | ->];
    simpl; py_step; simpl; rewrite Hc; simpl;
    rewrite ?(bool_decide_eq_false_2 (u ≠ u)) by (intros H; by apply H);
    rewrite ?(bool_decide_eq_true_2 (u ≠ x)) by done;
    simpl; py_step; simpl;
    rewrite ?(bool_decide_eq_true_2 (x = x)) by done; done.
Qed.

(** The search from a corner [x] of a triangle [x], [y], [z]. *)
Lemma triangle_corner x y z exy exz eyz (max_length : Z) :
  x ≠ y -> x ≠ z -> y ≠ z ->
  links_disjoint exy exz -> links_disjoint exz exy ->
  links_disjoint exy eyz -> links_disjoint eyz exy ->
  links_disjoint exz eyz -> links_disjoint eyz exz ->
  connected x ≡ₚ [(y, exy); (z, exz)] ->
  connected y ≡ₚ [(x, exy); (z, eyz)] ->
  connected z ≡ₚ [(x, exz); (y, eyz)] ->
  3 <= max_length ->
  exists c1 c2,
    CrossroadConnections.get_cycles_from_crossroad s x max_length = Ok [c1; c2]
    /\ cycle_ids c1 = {[x; y; z]} /\ cycle_ids c2 = {[x; y; z]}.
Proof.
  intros Hxy Hxz Hyz D1 D2 D3 D4 D5 D6 Hx Hy Hz Hlen.
  unfold CrossroadConnections.get_cycles_from_crossroad.
  destruct (Z.to_nat max_length) as [|[|[|k]]] eqn:Hk; try lia.
  assert (forall y z exy exz eyz,
            x ≠ y -> x ≠ z -> y ≠ z ->
            links_disjoint exy exz -> links_disjoint exz exy ->
            links_disjoint exy eyz -> links_disjoint eyz exy ->
            links_disjoint exz eyz -> links_disjoint eyz exz ->
            connected x = [(y, exy); (z, exz)] ->
            connected y ≡ₚ [(x, exy); (z, eyz)] ->
            connected z ≡ₚ [(x, exz); (y, eyz)] ->
            CrossroadConnections.cycles_steps s (S (S (S k))) [[(x, [])]] []
            = Ok [ [(x, []); (y, exy); (z, eyz); (x, exz)];
                   [(x, []); (z, exz); (y, eyz); (x, exy)] ]) as Hrun.
  { clear. intros y z exy exz eyz Hxy Hxz Hyz D1 D2 D3 D4 D5 D6 Hx Hy Hz.
    erewrite cycles_steps_S; cycle 1.
    { simpl. py_step. simpl. rewrite Hx.
      rewrite extend_start by done. py_step. reflexivity. }
    erewrite cycles_steps_S; cycle 1.
    { simpl. py_step. simpl.
      rewrite (extend_second x y z exy eyz) by done. py_step. simpl.
      rewrite (extend_second x z y exz eyz) by (done || by symmetry). py_step.
      reflexivity. }
    erewrite cycles_steps_S; cycle 1.
    { simpl. py_step. simpl.
      rewrite (extend_third x y z exy eyz exz) by done. py_step. simpl.
      rewrite (extend_third x z y exz eyz exy) by (done || by symmetry). py_step.
      reflexivity. }
    apply cycles_steps_nil. }
  symmetry in Hx. apply Permutation_length_2_inv in Hx as [Hx | Hx].
  - eexists _, _. split; [by apply (Hrun y z exy exz eyz)|].
    split; apply cycle_ids_closed_walk; tauto.
  - eexists _, _. split; [by apply (Hrun z y exz exy eyz)|].
    split; apply cycle_ids_closed_walk; tauto.
Qed.
End Triangle.

Lemma links_disjoint_sym e1 e2 : links_disjoint e1 e2 -> links_disjoint e2 e1.
Proof. intros H l Hl2 Hl1. by apply (H l). Qed.

Lemma triangle_connected s a b c eab eac ebc :
  a ≠ b -> a ≠ c -> b ≠ c ->
  CrossroadConnections.connected_crossroads s
    ≡ₚ [(a, b, eab); (a, c, eac); (b, c, ebc)] ->
  CrossroadConnections.get_connected_crossroads s a ≡ₚ [(b, eab); (c, eac)]
  /\ CrossroadConnections.get_connected_crossroads s b ≡ₚ [(a, eab); (c, ebc)]
  /\ CrossroadConnections.get_connected_crossroads s c ≡ₚ [(a, eac); (b, ebc)].
Proof.
  intros Hab Hac Hbc Hperm. unfold CrossroadConnections.get_connected_crossroads.
  repeat split; rewrite (flat_map_Permutation _ _ _ Hperm); simpl.
  - rewrite (bool_decide_eq_true_2 (a = a)) by done.
    rewrite (bool_decide_eq_false_2 (b = a)) by done.
    by rewrite (bool_decide_eq_false_2 (c = a)) by done.
  - rewrite (bool_decide_eq_false_2 (a = b)) by done.
    rewrite (bool_decide_eq_true_2 (b = b)) by done.
    by rewrite (bool_decide_eq_false_2 (c = b)) by done.
  - rewrite (bool_decide_eq_false_2 (a = c)) by done.
    rewrite (bool_decide_eq_false_2 (b = c)) by done.
    by rewrite (bool_decide_eq_true_2 (c = c)) by done.
Qed.

Lemma collect_cycles_same_ids s (max_length : Z) (ids : gset Z) : forall crs results,
  (forall x, x ∈ crs ->
     exists c1 c2,
       CrossroadConnections.get_cycles_from_crossroad s x max_length = Ok [c1; c2]
       /\ cycle_ids c1 = ids /\ cycle_ids c2 = ids) ->
  exists found,
    CrossroadConnections.collect_cycles s crs max_length results = Ok (results ++ found)
    /\ Forall (fun c => cycle_ids c = ids) found
    /\ length found = (2 * length crs)%nat.
Proof.
  induction crs as [|x crs IH]; intros results Hall; simpl.
  - exists []. by rewrite app_nil_r.
  - destruct (Hall x (list_elem_of_here _ _)) as (c1 & c2 & Hx & H1 & H2).
    rewrite Hx. py_step.
    destruct (IH (results ++ [c1; c2])) as (found & -> & Hf & Hlen).
    { intros y Hy. apply Hall. by apply list_elem_of_further. }
    exists ([c1; c2] ++ found). rewrite app_assoc. split; [done|]. split.
    + apply Forall_app. split; [by repeat constructor | done].
    + simpl. lia.
Qed.

Lemma get_unique_cycles_same_ids (ids : gset Z) c0 cycles :
  Forall (fun c => cycle_ids c = ids) (c0 :: cycles) ->
  CrossroadConnections.get_unique_cycles (c0 :: cycles) = [c0].
Proof.
  intros Hall. apply Forall_cons in Hall as [H0 Hall].
  unfold CrossroadConnections.get_unique_cycles. simpl.
  fold (cycle_ids c0). rewrite H0.
  induction Hall as [|c cycles Hc _ IH]; simpl; [done|].
  fold (cycle_ids c). rewrite Hc.
  unfold Py.mem. rewrite bool_decide_eq_true_2 by apply list_elem_of_here.
  exact IH.
Qed.

(** Three crossroads joined pairwise by connections that use different
    links: whatever the order of the connections and of the crossroads,
    [get_cycles] reports one cycle, through the three crossroads. *)
Lemma get_cycles_triangle s a b c eab eac ebc (max_length : Z) :
  a ≠ b -> a ≠ c -> b ≠ c ->
  links_disjoint eab eac -> links_disjoint eab ebc -> links_disjoint eac ebc ->
  CrossroadConnections.connected_crossroads s
    ≡ₚ [(a, b, eab); (a, c, eac); (b, c, ebc)] ->
  CrossroadConnections.crossroads s ≡ₚ [a; b; c] ->
  3 <= max_length ->
  exists cycle,
    CrossroadConnections.get_cycles s max_length = Ok [cycle]
    /\ cycle_ids cycle = {[a; b; c]}.
Proof.
  intros Hab Hac Hbc D1 D2 D3 Hconn Hcrs Hlen.
  destruct (triangle_connected s a b c eab eac ebc Hab Hac Hbc Hconn)
    as (Ha & Hb & Hc).
  pose proof (links_disjoint_sym _ _ D1) as D1'.
  pose proof (links_disjoint_sym _ _ D2) as D2'.
  pose proof (links_disjoint_sym _ _ D3) as D3'.
  assert (b ≠ a /\ c ≠ a /\ c ≠ b) as (Hba & Hca & Hcb) by (repeat split; congruence).
  pose proof Ha as Ha'. pose proof Hb as Hb'. pose proof Hc as Hc'.
  rewrite Permutation_swap in Ha', Hb', Hc'.
  assert (forall x, x ∈ CrossroadConnections.crossroads s ->
            exists c1 c2,
              CrossroadConnections.get_cycles_from_crossroad s x max_length
              = Ok [c1; c2]
              /\ cycle_ids c1 = {[a; b; c]} /\ cycle_ids c2 = {[a; b; c]}) as Hcorner.
  { intros x Hx. rewrite Hcrs in Hx.
    repeat (apply elem_of_cons in Hx as [->|Hx]); [| | |by apply elem_of_nil in Hx].
    - by apply (triangle_corner s a b c eab eac ebc).
    - destruct (triangle_corner s b a c eab ebc eac max_length)
        as (c1 & c2 & Hrun & H1 & H2); try done.
      exists c1, c2. split; [done|]. rewrite H1, H2.
      split; apply set_eq; intros w;
        rewrite !elem_of_union, !elem_of_singleton; tauto.
    - destruct (triangle_corner s c a b eac ebc eab max_length)
        as (c1 & c2 & Hrun & H1 & H2); try done.
      exists c1, c2. split; [done|]. rewrite H1, H2.
      split; apply set_eq; intros w;
        rewrite !elem_of_union, !elem_of_singleton; tauto. }
  unfold CrossroadConnections.get_cycles.
  destruct (collect_cycles_same_ids s max_length {[a; b; c]} _ [] Hcorner)
    as (found & -> & Hfound & Hlength).
  py_step. simpl.
  apply Permutation_length in Hcrs. rewrite Hcrs in Hlength. simpl in Hlength.
  destruct found as [|c0 found]; [discriminate|].
  exists c0. split.
  - f_equal. by apply (get_unique_cycles_same_ids {[a; b; c]}).
  - by apply Forall_cons in Hfound as [? _].
Qed.

Lemma size_three (a b c : Z) :
  a ≠ b -> a ≠ c -> b ≠ c -> size ({[a; b; c]} : gset Z) = 3%nat.
Proof.
  intros Hab Hac Hbc.
  assert (({[a; b; c]} : gset Z) = list_to_set [a; b; c]) as ->.
  { apply set_eq. intros w. simpl.
    rewrite !elem_of_union, !elem_of_singleton, elem_of_empty. tauto. }
  rewrite size_list_to_set; [done|].
  repeat (apply NoDup_cons; split); try apply NoDup_nil_2;
    rewrite ?not_elem_of_cons; repeat split; try done; apply not_elem_of_nil.
Qed.

(** C7. [get_unique_cycles] keeps at most one cycle per set of
    crossroad ids: the kept cycles have pairwise different sets, they
    are the cycles of the input that no earlier cycle matches (first
    occurrences), in the input order; the set of a cycle does not depend
    on the direction or the order in which it is traversed; so
    [get_cycles] reports at most one cycle per set.  On three
    crossroads joined pairwise by connections that use different links,
    [get_cycles] reports exactly one cycle, through the three
    crossroads, for any bound of at least three steps; the region set
    [Example.triangle_regions] is such a triangle. *)
Theorem cycles_unique_per_crossroad_set :
  (forall cycles : list CrossroadConnections.cycle,
     NoDup (cycle_ids <$> CrossroadConnections.get_unique_cycles cycles)
     /\ CrossroadConnections.get_unique_cycles cycles `sublist_of` cycles
     /\ forall c,
          c ∈ CrossroadConnections.get_unique_cycles cycles
          <-> exists pre post,
                cycles = (pre ++ c :: post)
                /\ forall c', c' ∈ pre -> cycle_ids c' ≠ cycle_ids c)
  /\ (forall c, cycle_ids (rev c) = cycle_ids c)
  /\ (forall c1 c2,
        (forall x, x ∈ fst <$> c1 <-> x ∈ fst <$> c2) ->
        cycle_ids c1 = cycle_ids c2)
  /\ (forall s max_length cycles,
        CrossroadConnections.get_cycles s max_length = Ok cycles ->
        NoDup (cycle_ids <$> cycles))
  /\ (forall s a b c eab eac ebc max_length,
        a ≠ b -> a ≠ c -> b ≠ c ->
        links_disjoint eab eac -> links_disjoint eab ebc -> links_disjoint eac ebc ->
        CrossroadConnections.connected_crossroads s
          ≡ₚ [(a, b, eab); (a, c, eac); (b, c, ebc)] ->
        CrossroadConnections.crossroads s ≡ₚ [a; b; c] ->
        3 <= max_length ->
        exists cycle,
          CrossroadConnections.get_cycles s max_length = Ok [cycle]
          /\ cycle_ids cycle = {[a; b; c]}
          /\ size (cycle_ids cycle) = 3%nat)
  /\ CrossroadConnections.init Example.triangle_regions 2 = Ok Example.triangle_state
  /\ (forall max_length,
        3 <= max_length ->
        CrossroadConnections.get_cycles Example.triangle_state max_length
        = Ok [Example.triangle_cycle])
  /\ cycle_ids Example.triangle_cycle = {[0; 1; 2]}
  /\ size (cycle_ids Example.triangle_cycle) = 3%nat.
Proof.
  split; [|split; [|split; [|split; [|split; [|split; [|split; [|split]]]]]]].
  - intros cycles. unfold CrossroadConnections.get_unique_cycles. split; [|split].
    + apply unique_loop_NoDup; [done | constructor].
    + by destruct (unique_loop_app cycles [] []) as (new & -> & Hsub).
    + intros c. split.
      * intros Hc. apply unique_loop_kept_first in Hc
          as [Hc|(pre & post & -> & _ & Hpre)]; [by apply elem_of_nil in Hc|].
        by exists pre, post.
      * intros (pre & post & -> & Hpre).
        apply unique_loop_first_kept; [apply not_elem_of_nil | done].
  - apply cycle_ids_rev.
  - apply cycle_ids_same_elements.
  - intros s max_length cycles. unfold CrossroadConnections.get_cycles.
    destruct (CrossroadConnections.collect_cycles _ _ _ _) as [results|];
      py_step; [|discriminate].
    intros [= <-]. apply unique_loop_NoDup; [done | constructor].
  - intros s a b c eab eac ebc max_length Hab Hac Hbc D1 D2 D3 Hconn Hcrs Hlen.
    destruct (get_cycles_triangle s a b c eab eac ebc max_length)
      as (cycle & Hrun & Hids); try done.
    exists cycle. split; [done|]. split; [done|].
    rewrite Hids. by apply size_three.
  - vm_compute. reflexivity.
  - intros max_length Hlen. unfold CrossroadConnections.get_cycles.
    rewrite (collect_cycles_ext _ max_length 3).
    + vm_compute. reflexivity.
    + intros c Hc. by apply triangle_cycles_from.
  - vm_compute. reflexivity.
  - vm_compute. reflexivity.
Qed.

Lemma cycles_unique_per_crossroad_set_witness :
  exists cycle,
    CrossroadConnections.get_cycles Example.triangle_state 5 = Ok [cycle]
    /\ cycle_ids cycle = {[0; 1; 2]}
    /\ size (cycle_ids cycle) = 3%nat.
Proof.
  destruct cycles_unique_per_crossroad_set as (_ & _ & _ & _ & Htriangle & _).
  apply (Htriangle Example.triangle_state 0 1 2
           [([2; 3], 3)] [([6; 1], 5)] [([4; 5], 4)] 5);
    try lia.
  - intros l Hl Hl'. apply list_elem_of_singleton in Hl, Hl'. simpl in *. lia.
  - intros l Hl Hl'. apply list_elem_of_singleton in Hl, Hl'. simpl in *. lia.
  - intros l Hl Hl'. apply list_elem_of_singleton in Hl, Hl'. simpl in *. lia.
  - apply perm_swap.
  - reflexivity.
Defined.

(* ================================================================== *)
(** * Further properties *)

(** ** Python indexing, read backwards *)

Section IndexInv.
Context {A : Type}.
Implicit Types (l : list A) (x : A).

Lemma index_Ok_lookup l (i : Z) x :
  Py.index l i = Ok x ->
  exists j : nat,
    l !! j = Some x
    /\ ((0 <= i /\ j = Z.to_nat i) \/ (i < 0 /\ Z.of_nat j = i + Z.of_nat (length l))).
Proof.
  unfold Py.index.
  destruct (Z.ltb_spec i 0) as [Hneg|Hpos].
  - destruct (_ && _) eqn:Hb; [|discriminate].
    apply andb_true_iff in Hb as [H0 _]. apply Z.leb_le in H0.
    destruct (l !! Z.to_nat (i + Z.of_nat (length l))) as [y|] eqn:Hl; [|discriminate].
    intros [= ->]. eexists. split; [done|]. right. lia.
  - destruct (_ && _) eqn:Hb; [|discriminate].
    destruct (l !! Z.to_nat i) as [y|] eqn:Hl; [|discriminate].
    intros [= ->]. eexists. split; [done|]. by left.
Qed.

Lemma index_first l x : Py.index l 0 = Ok x <-> head l = Some x.
Proof.
  split; [|apply index_head].
  intros H. apply index_Ok_lookup in H as (j & Hj & [[_ ->]|[? _]]); [|lia].
  by rewrite head_lookup.
Qed.

Lemma index_minus_1 l x : Py.index l (-1) = Ok x <-> last l = Some x.
Proof.
  split.
  - intros H. apply index_Ok_lookup in H as (j & Hj & [[? _]|[_ Hlen]]); [lia|].
    rewrite last_lookup. by replace (Nat.pred (length l)) with j by lia.
  - intros H. pose proof H as H'. rewrite last_lookup in H'.
    apply lookup_lt_Some in H'.
    apply index_last in H. unfold Py.index in *.
    destruct (Z.ltb_spec (-1) 0) as [_|?]; [|lia].
    destruct (Z.ltb_spec (Z.of_nat (length l) - 1) 0) as [?|_]; [lia|].
    by replace (-1 + Z.of_nat (length l)) with (Z.of_nat (length l) - 1) by lia.
Qed.

Lemma index_minus_2 l x :
  Py.index l (-2) = Ok x <-> (l !! (length l - 2)%nat = Some x /\ (2 <= length l)%nat).
Proof.
  split.
  - intros H. apply index_Ok_lookup in H as (j & Hj & [[? _]|[_ Hlen]]); [lia|].
    split; [|lia]. by replace (length l - 2)%nat with j by lia.
  - intros [H Hlen]. unfold Py.index.
    destruct (Z.ltb_spec (-2) 0) as [_|?]; [|lia].
    destruct (Z.leb_spec 0 (-2 + Z.of_nat (length l))) as [_|?]; [|lia].
    destruct (Z.ltb_spec (-2 + Z.of_nat (length l)) (Z.of_nat (length l))) as [_|?];
      [|lia].
    simpl. replace (Z.to_nat (-2 + Z.of_nat (length l))) with (length l - 2)%nat by lia.
    by rewrite H.
Qed.
End IndexInv.

(** ** Classes and distances *)

Lemma priority_table_cases h :
  h ∈ Reference.priority_table ->
  h = "motorway" \/ h = "trunk" \/ h = "primary" \/ h = "secondary"
  \/ h = "tertiary" \/ h = "unclassified" \/ h = "residential"
  \/ h = "living_street" \/ h = "service" \/ h = "default".
Proof.
  unfold Reference.priority_table. rewrite !elem_of_cons, elem_of_nil. tauto.
Qed.

Lemma default_in_table : "default" ∈ Reference.priority_table.
Proof. do 9 apply list_elem_of_further. apply list_elem_of_here. Qed.

(** X1. [get_highway_classification] raises an exception exactly
    when its argument is an attribute dictionary whose highway tag is a
    list of strings, and the exception is [TypeError]; what it returns
    otherwise is a key of both distance tables, so the look-ups
    [min_distance_boundary_polyline[c]] and
    [max_distance_boundary_polyline[c]] of its callers never raise
    [KeyError]; and the minimal distance of a class does not exceed its
    maximal distance. *)
Theorem classification_is_a_table_key (edge : edge_arg) :
  match Crossroad.get_highway_classification edge with
  | Ok c =>
      (exists vmin vmax,
         Crossroad.table_get Crossroad.min_distance_boundary_polyline (Some c) = Ok vmin
         /\ Crossroad.table_get Crossroad.max_distance_boundary_polyline (Some c) = Ok vmax
         /\ (vmin <= vmax)%Q)
      /\ (forall d hs, edge = EdgeAttrs d -> d !! "highway" ≠ Some (Strs hs))
  | Raise e =>
      e = TypeError
      /\ exists d hs, edge = EdgeAttrs d /\ d !! "highway" = Some (Strs hs)
  end.
Proof.
  assert (forall h, h ∈ Reference.priority_table ->
            exists vmin vmax,
              Crossroad.table_get Crossroad.min_distance_boundary_polyline (Some h) = Ok vmin
              /\ Crossroad.table_get Crossroad.max_distance_boundary_polyline (Some h) = Ok vmax
              /\ (vmin <= vmax)%Q) as Hkey.
  { intros h Hh.
    apply priority_table_cases in Hh
      as [->|[->|[->|[->|[->|[->|[->|[->|[->| ->]]]]]]]]];
      eexists _, _; (split; [vm_compute; reflexivity|]);
      (split; [vm_compute; reflexivity|]); by vm_compute. }
  destruct edge as [a b|d].
  - simpl. split; [apply Hkey, default_in_table | discriminate].
  - rewrite get_highway_classification_attrs.
    destruct (d !! "highway") as [[h|hs]|] eqn:Hd.
    + split; [|intros d' hs [= <-]; congruence].
      destruct (decide (h ∈ Reference.priority_table)) as [Hin|Hnin].
      * rewrite bool_decide_eq_true_2 by done. by apply Hkey.
      * rewrite bool_decide_eq_false_2 by done. apply Hkey, default_in_table.
    + split; [done|]. by exists d, hs.
    + split; [apply Hkey, default_in_table|]. intros d' hs [= <-]. congruence.
Qed.

Lemma table_max_default :
  Crossroad.table_get Crossroad.max_distance_boundary_polyline (Some "default")
  = Ok 25%Q.
Proof. vm_compute. reflexivity. Qed.

Lemma table_min_default :
  Crossroad.table_get Crossroad.min_distance_boundary_polyline (Some "default")
  = Ok 12%Q.
Proof. vm_compute. reflexivity. Qed.

Lemma max_highway_loop_default (center : node) path p1 : forall nbs,
  Py.index path 1 = Ok p1 ->
  Crossroad.max_highway_loop center path nbs "default" 25%Q = Ok "default".
Proof.
  intros nbs Hp. induction nbs as [|nb nbs IH]; simpl; [done|].
  rewrite Hp. py_step. by destruct (decide (nb ≠ p1)).
Qed.

Lemma get_max_highway_classification_other_default G (self : Region.t)
    (path : list node) center nbs :
  Crossroad.getCenter self = Ok center ->
  Graph.neighbors G center = Ok nbs ->
  (2 <= length path)%nat ->
  Crossroad.get_max_highway_classification_other G self path = Ok (Some "default").
Proof.
  intros Hc Hn Hlen. unfold Crossroad.get_max_highway_classification_other.
  destruct (Region.nodes self) as [|m ms] eqn:Hnodes.
  { unfold Crossroad.getCenter in Hc. rewrite Hnodes in Hc. discriminate. }
  cbn [length Nat.eqb]. rewrite table_max_default. py_step.
  rewrite Hc. py_step. rewrite Hn. py_step.
  destruct path as [|a [|p1 path]]; simpl in Hlen; try lia.
  rewrite (max_highway_loop_default center _ p1); [done|].
  by apply (index_lookup (a :: p1 :: path) 1 p1).
Qed.

(** X2. On a region that has a center, a center that is a node of
    the graph and a path of two nodes or more,
    [get_max_highway_classification_other] returns "default": it
    classifies the pairs of nodes [(center, nb)], not the attributes of
    the edges, and no pair of nodes has a class above "default". *)
Theorem max_highway_classification_other_is_default G (self : Region.t)
    (path : list node) center nbs :
  Crossroad.getCenter self = Ok center ->
  Graph.neighbors G center = Ok nbs ->
  (2 <= length path)%nat ->
  Crossroad.get_max_highway_classification_other G self path = Ok (Some "default").
Proof. apply get_max_highway_classification_other_default. Qed.

Lemma max_highway_classification_other_is_default_witness :
  Crossroad.get_max_highway_classification_other Example.G
    (Crossroad.region Example.crossroad_0) [0; 1]
  = Ok (Some "default").
Proof.
  apply (max_highway_classification_other_is_default Example.G
           (Crossroad.region Example.crossroad_0) [0; 1] 0 [1; 2; 3]).
  - reflexivity.
  - vm_compute. reflexivity.
  - simpl. lia.
Defined.

Lemma get_radius_loop_default (center : node) : forall nbs,
  Crossroad.get_radius_loop center nbs 12%Q = Ok 12%Q.
Proof. induction nbs as [|nb nbs IH]; simpl; [done|]. exact IH. Qed.

(** X3. When no member of the region is a boundary node,
    [get_radius] is 0 for a center without neighbour and 12, the
    "default" entry of [min_distance_boundary_polyline], otherwise:
    the loop classifies pairs of nodes, whose class is "default". *)
Theorem get_radius_without_border G U is_boundary_node (self : Region.t) center nbs :
  Crossroad.getCenter self = Ok center ->
  List.filter (is_boundary_node self) (Region.nodes self) = [] ->
  Graph.neighbors G center = Ok nbs ->
  Crossroad.get_radius G U is_boundary_node self
  = Ok (match nbs with [] => 0%float | _ => 12%float end).
Proof.
  intros Hc Hb Hn. unfold Crossroad.get_radius. rewrite Hc, Hb. py_step.
  simpl. rewrite Hn. py_step. destruct nbs as [|nb nbs]; [done|].
  cbn [Crossroad.get_radius_loop Crossroad.get_highway_classification].
  py_step. rewrite table_min_default. py_step.
  change (if Py.Qltb 0 12 then 12%Q else 0%Q) with 12%Q.
  rewrite get_radius_loop_default. reflexivity.
Qed.

Lemma get_radius_without_border_witness :
  Crossroad.get_radius Example.G Example.U (fun _ _ => false)
    (Crossroad.region Example.crossroad_0)
  = Ok 12%float.
Proof.
  apply (get_radius_without_border Example.G Example.U (fun _ _ => false)
           (Crossroad.region Example.crossroad_0) 0 [1; 2; 3]).
  - reflexivity.
  - reflexivity.
  - vm_compute. reflexivity.
Defined.

(** X4. For a path that is not closed and not tagged as a junction,
    from a node weakly in a crossroad to a weak boundary,
    [is_correct_inner_path] applies the "default" distances whatever
    the roads are: the path is accepted when its length is below
    [12 * r], or below [25 * r] with the first node the closest
    bifurcation of the last, where [r] is 2 when the first node has more
    than four neighbours and 1 otherwise; it is rejected otherwise. *)
Theorem inner_path_distance_rule G U R (self : Region.t) (path : list node)
    center cnbs first last nbs b :
  Crossroad.getCenter self = Ok center ->
  Graph.neighbors G center = Ok cnbs ->
  head path = Some first ->
  list.last path = Some last ->
  first ≠ last ->
  Crossroad.is_inner_path_by_osmdata G path = Ok false ->
  Reliability.is_weakly_in_crossroad R first = true ->
  Reliability.is_weakly_boundary R last = true ->
  Graph.neighbors G first = Ok nbs ->
  Crossroad.get_closest_possible_biffurcation G U last = Ok b ->
  Crossroad.is_correct_inner_path G U R self path
  = Ok (Py.of_bool
          (let d := Util.length U path in
           let r := if (4 <? length nbs)%nat then 2%Q else 1%Q in
           Py.Qltb d (12 * r)%Q
           || (Py.Qltb d (25 * r)%Q && bool_decide (b = first)))).
Proof.
  intros Hc Hcn Hfirst Hlast Hne Hosm Hin Hbd Hn Hb.
  assert (2 <= length path)%nat as Hlen.
  { destruct path as [|x [|y path]]; simpl; try lia; [discriminate|].
    simpl in *. congruence. }
  unfold Crossroad.is_correct_inner_path.
  destruct (Nat.ltb_spec (length path) 2) as [?|_]; [lia|].
  rewrite (index_head _ _ Hfirst), (index_last _ _ Hlast). py_step.
  rewrite decide_False by done. rewrite Hosm. py_step.
  rewrite Hin, Hbd. cbn [andb]. rewrite Hn. py_step.
  rewrite (get_max_highway_classification_other_default G self path center cnbs)
    by done.
  py_step. rewrite table_min_default. py_step. cbv zeta.
  destruct (Py.Qltb (Util.length U path) _) eqn:Hmin.
  - done.
  - rewrite table_max_default. py_step. cbn [orb].
    destruct (Py.Qltb (Util.length U path) (25 * _)) eqn:Hmax; [|done].
    rewrite Hb. py_step. done.
Qed.

Lemma inner_path_distance_rule_witness :
  Crossroad.is_correct_inner_path Example.G Example.U Example.R_approach
    (Crossroad.region Example.crossroad_0) [0; 1]
  = Ok PyTrue.
Proof.
  apply (inner_path_distance_rule Example.G Example.U Example.R_approach
           (Crossroad.region Example.crossroad_0) [0; 1] 0 [1; 2; 3] 0 1 [1; 2; 3] 0).
  - reflexivity.
  - vm_compute. reflexivity.
  - reflexivity.
  - reflexivity.
  - lia.
  - vm_compute. reflexivity.
  - reflexivity.
  - reflexivity.
  - vm_compute. reflexivity.
  - vm_compute. reflexivity.
Defined.

(** X5. [is_correct_inner_path] rejects, without reading the graph,
    the empty path, a path of one node and every path that ends at the
    node it starts from, even when all its edges are tagged as a
    junction. *)
Theorem closed_or_short_path_rejected G U R (self : Region.t) :
  Crossroad.is_correct_inner_path G U R self [] = Ok PyFalse
  /\ (forall n, Crossroad.is_correct_inner_path G U R self [n] = Ok PyFalse)
  /\ (forall n mid,
        Crossroad.is_correct_inner_path G U R self (n :: mid ++ [n]) = Ok PyFalse).
Proof.
  split; [done|]. split; [done|].
  intros n mid. unfold Crossroad.is_correct_inner_path.
  assert ((length (n :: mid ++ [n]) <? 2)%nat = false) as ->.
  { apply Nat.ltb_ge. simpl. rewrite length_app. simpl. lia. }
  rewrite (index_head (n :: mid ++ [n]) n) by done. py_step.
  rewrite (index_last (n :: mid ++ [n]) n).
  - py_step. by rewrite decide_True.
  - change (n :: mid ++ [n]) with ((n :: mid) ++ [n]). apply last_snoc.
Qed.

(** ** Candidate paths and seeds *)

Lemma index_last_two {A} (l : list A) a b :
  (2 <= length l)%nat ->
  Py.index l (Z.of_nat (length l) - 2) = Ok a ->
  Py.index l (Z.of_nat (length l) - 1) = Ok b ->
  exists pre, l = pre ++ [a; b].
Proof.
  intros Hlen Ha Hb.
  destruct (decide (l = [])) as [->|Hne]; [simpl in Hlen; lia|].
  destruct (exists_last Hne) as (l1 & y & ->).
  destruct (decide (l1 = [])) as [->|Hne1]; [simpl in Hlen; lia|].
  destruct (exists_last Hne1) as (l2 & x & ->).
  exists l2. rewrite <- app_assoc. simpl.
  rewrite (index_last ((l2 ++ [x]) ++ [y]) y) in Hb by apply last_snoc.
  injection Hb as <-.
  replace (Z.of_nat (length ((l2 ++ [x]) ++ [y])) - 2) with (Z.of_nat (length l2)) in Ha
    by (rewrite !length_app; simpl; lia).
  rewrite (index_lookup _ _ x) in Ha.
  - by injection Ha as <-.
  - rewrite <- app_assoc. simpl. by apply list_lookup_middle.
Qed.

Lemma polyline_two G (a b : node) : polyline G [a; b].
Proof.
  intros pre x y z post Heq. apply (f_equal length) in Heq.
  rewrite length_app in Heq. simpl in Heq. lia.
Qed.

Lemma polyline_snoc G (pre : list node) a b c nbs :
  polyline G (pre ++ [a; b]) ->
  Graph.neighbors G b = Ok nbs -> length nbs = 2%nat -> c ∈ nbs -> c ≠ a ->
  polyline G ((pre ++ [a; b]) ++ [c]).
Proof.
  intros Hp Hn Hlen Hc Hne pre' a' b' c' post Heq.
  destruct (decide (post = [])) as [->|Hpost].
  - change (pre' ++ [a'; b'; c']) with (pre' ++ [a'; b'] ++ [c']) in Heq.
    rewrite (app_assoc pre') in Heq.
    apply app_inj_tail in Heq as [Heq <-].
    change (pre ++ [a; b]) with (pre ++ [a] ++ [b]) in Heq.
    change (pre' ++ [a'; b']) with (pre' ++ [a'] ++ [b']) in Heq.
    rewrite !app_assoc in Heq.
    apply app_inj_tail in Heq as [Heq <-].
    apply app_inj_tail in Heq as [_ <-].
    split; [done|]. by exists nbs.
  - destruct (exists_last Hpost) as (post' & x & ->).
    change (pre' ++ a' :: b' :: c' :: post' ++ [x])
      with (pre' ++ (a' :: b' :: c' :: post') ++ [x]) in Heq.
    rewrite (app_assoc pre') in Heq.
    apply app_inj_tail in Heq as [Heq _].
    by eapply Hp.
Qed.

Lemma is_middle_path_node_true G R n strong :
  Crossroad.is_middle_path_node G R n strong = Ok true ->
  exists nbs, Graph.neighbors G n = Ok nbs /\ length nbs = 2%nat.
Proof.
  unfold Crossroad.is_middle_path_node.
  destruct (Graph.neighbors G n) as [nbs|]; py_step; [|discriminate].
  destruct (Nat.eqb_spec (length nbs) 2) as [Heq|Hne]; simpl; [|discriminate].
  intros _. by exists nbs.
Qed.

Lemma get_next_node_along_polyline_Some G current pred next nbs :
  Graph.neighbors G current = Ok nbs ->
  Crossroad.get_next_node_along_polyline G current pred = Ok (Some next) ->
  next ∈ nbs /\ next ≠ pred.
Proof.
  unfold Crossroad.get_next_node_along_polyline. intros ->. py_step.
  intros [= Hfind]. apply find_some in Hfind as [Hin Hne].
  split; [by apply list_elem_of_In|]. by apply bool_decide_eq_true in Hne.
Qed.

Lemma follow_polyline_walk G R strong self w fuel : forall path path',
  Crossroad.follow_polyline G R fuel strong self w path = Ok (Crossroad.Walked path') ->
  (2 <= length path)%nat ->
  path `prefix_of` path' /\ (polyline G path -> polyline G path').
Proof.
  induction fuel as [|fuel IH]; intros path path' Hrun Hlen.
  - revert Hrun. simpl.
    destruct (Py.index path _) as [last|]; py_step; [|discriminate].
    destruct (Crossroad.is_middle_path_node G R last strong) as [[]|];
      py_step; try discriminate.
    by intros [= <-].
  - revert Hrun. simpl.
    destruct (Py.index path (Z.of_nat (length path) - 1)) as [last|] eqn:Hlast;
      py_step; [|discriminate].
    destruct (Crossroad.is_middle_path_node G R last strong) as [[]|] eqn:Hmid;
      py_step; try discriminate; [|by intros [= <-]].
    destruct (Py.index path (Z.of_nat (length path) - 2)) as [pred|] eqn:Hpred;
      py_step; [|discriminate].
    destruct (Crossroad.get_next_node_along_polyline G last pred)
      as [[next|]|] eqn:Hnext; py_step; try discriminate.
    destruct (index_last_two path pred last Hlen Hpred Hlast) as (pre & ->).
    apply is_middle_path_node_true in Hmid as (nbs & Hn & Hdeg).
    destruct (get_next_node_along_polyline_Some _ _ _ _ _ Hn Hnext) as [Hin Hne].
    assert (polyline G (pre ++ [pred; last]) ->
            polyline G ((pre ++ [pred; last]) ++ [next])) as Hstep
      by (intros Hp; by eapply polyline_snoc).
    destruct (negb _).
    + intros [= <-]. split; [by apply prefix_app_r|done].
    + intros Hrun. apply IH in Hrun as [Hpre Hpoly].
      * split; [|tauto]. etrans; [|exact Hpre]. by apply prefix_app_r.
      * rewrite length_app. simpl. lia.
Qed.

(** X6. [get_possible_paths(n1, n2)] returns at most two candidate
    paths; each one starts with [n1, n2], never turns back and runs
    through nodes that have exactly two neighbours, each node a
    neighbour of the node before; and the second candidate extends the
    first. *)
Theorem possible_paths_are_polylines G R fuel (self : Region.t) w n1 n2 paths w' :
  Crossroad.get_possible_paths G R fuel self w n1 n2 = Ok (paths, w') ->
  (length paths <= 2)%nat
  /\ Forall (fun p => [n1; n2] `prefix_of` p /\ polyline G p) paths
  /\ (forall p1 p2, paths = [p1; p2] -> p1 `prefix_of` p2).
Proof.
  unfold Crossroad.get_possible_paths.
  destruct (Crossroad.follow_polyline G R fuel false self w [n1; n2])
    as [[path|]|] eqn:Hfirst; py_step; try discriminate.
  2:{ intros [= <- <-]. split; [simpl; lia|]. split; [constructor|]. discriminate. }
  apply follow_polyline_walk in Hfirst as [Hpre Hpoly]; [|simpl; lia].
  specialize (Hpoly (polyline_two G n1 n2)).
  destruct (Py.index path _) as [last|]; py_step; [|discriminate].
  destruct (Crossroad.is_middle_path_node G R last true) as [[]|];
    py_step; try discriminate.
  - destruct (Crossroad.follow_polyline G R fuel true self w path)
      as [[path2|]|] eqn:Hsecond; py_step; try discriminate.
    + apply follow_polyline_walk in Hsecond as [Hpre2 Hpoly2].
      * intros [= <- <-]. split; [simpl; lia|]. split.
        -- constructor; [done|]. constructor; [|constructor].
           split; [by etrans | by apply Hpoly2].
        -- by intros p1 p2 [= <- <-].
      * apply prefix_length in Hpre. simpl in Hpre. lia.
    + intros [= <- <-]. split; [simpl; lia|].
      split; [constructor; [done|constructor]|]. discriminate.
  - intros [= <- <-]. split; [simpl; lia|].
    split; [constructor; [done|constructor]|]. discriminate.
Qed.

Lemma possible_paths_are_polylines_witness :
  Forall (fun p => [0; 1] `prefix_of` p /\ polyline Example.chain p)
         [[0; 1; 2]; [0; 1; 2; 3]]
  /\ [0; 1; 2] `prefix_of` [0; 1; 2; 3].
Proof.
  destruct (possible_paths_are_polylines Example.chain Example.R_chain 10
              {| Region.id := 0; Region.nodes := [0]; Region.edges := [] |}
              Region.empty_world 0 1 [[0; 1; 2]; [0; 1; 2; 3]] Region.empty_world)
    as (_ & Hall & Hnest).
  - vm_compute. reflexivity.
  - split; [exact Hall|]. by apply Hnest.
Defined.

(** X7. When [n2] does not have exactly two neighbours (a junction
    or a dead end), [get_possible_paths(n1, n2)] returns the single
    candidate [[n1, n2]] and prints nothing, whatever the bound on the
    loops. *)
Theorem direction_to_junction_single_candidate G R fuel (self : Region.t) w n1 n2 nbs :
  Graph.neighbors G n2 = Ok nbs ->
  length nbs ≠ 2%nat ->
  Crossroad.get_possible_paths G R fuel self w n1 n2 = Ok ([[n1; n2]], w).
Proof.
  intros Hn Hdeg.
  assert (forall strong, Crossroad.is_middle_path_node G R n2 strong = Ok false) as Hmid.
  { intros strong. unfold Crossroad.is_middle_path_node. rewrite Hn. py_step.
    by destruct (Nat.eqb_spec (length nbs) 2). }
  assert (Crossroad.follow_polyline G R fuel false self w [n1; n2]
          = Ok (Crossroad.Walked [n1; n2])) as Hwalk.
  { destruct fuel; simpl; change (Py.index [n1; n2] 1) with (@Ok node n2);
      py_step; rewrite Hmid; done. }
  unfold Crossroad.get_possible_paths. rewrite Hwalk. py_step.
  change (Py.index [n1; n2] (Z.of_nat (length [n1; n2]) - 1)) with (@Ok node n2).
  py_step. rewrite Hmid. done.
Qed.

Lemma direction_to_junction_single_candidate_witness :
  Crossroad.get_possible_paths Example.G Example.R 10
    {| Region.id := 0; Region.nodes := [3]; Region.edges := [] |}
    Region.empty_world 3 0
  = Ok ([[3; 0]], Region.empty_world).
Proof.
  apply (direction_to_junction_single_candidate Example.G Example.R 10 _ _ 3 0
           [1; 2; 3]).
  - vm_compute. reflexivity.
  - simpl. lia.
Defined.

Section BuilderSeeds.
Variables (G : Graph.t) (U : Util.t) (R : Reliability.t).
Variable is_boundary_node : Region.t -> node -> bool.

Lemma build_crossroads_loop_unreliable fuel : forall ns w acc,
  Forall (fun n => Crossroad.is_reliable_crossroad_node G R n = Ok false) ns ->
  Crossroad.build_crossroads_loop G U R is_boundary_node fuel ns w acc = Ok (acc, w).
Proof.
  induction ns as [|n ns IH]; intros w acc Hns; [done|].
  apply Forall_cons in Hns as [Hn Hns].
  cbn [Crossroad.build_crossroads_loop]. rewrite Hn. py_step.
  destruct (Region.unknown_region_node_in_graph w n); by apply IH.
Qed.
End BuilderSeeds.

(** X8. Every crossroad that [build_crossroads] returns was grown
    from a node of [G.nodes] that [is_reliable_crossroad_node] accepts
    and that was in no known region in the world the loop had reached
    when it came to the node. *)
Theorem kept_crossroads_grow_from_reliable_nodes G U R is_boundary_node fuel w cs w' :
  Crossroad.build_crossroads G U R is_boundary_node fuel w = Ok (cs, w') ->
  Forall (fun c => exists n,
            n ∈ Graph.nodes G
            /\ grown_in_run G U R is_boundary_node fuel w (Graph.nodes G) c n
            /\ Crossroad.is_reliable_crossroad_node G R n = Ok true) cs.
Proof.
  intros Hrun. apply build_crossroads_seeds in Hrun as (seeds & Hf & Hsub).
  apply Forall_forall. intros c Hc.
  apply list_elem_of_lookup in Hc as [i Hi].
  destruct (Forall2_lookup_l _ _ _ _ _ Hf Hi) as (n & Hn & Hg & Hr).
  exists n. split; [|done].
  eapply elem_of_sublist; [|exact Hsub]. by eapply list_elem_of_lookup_2.
Qed.

Lemma kept_crossroads_grow_from_reliable_nodes_witness :
  Forall (fun c => exists n,
            n ∈ Graph.nodes Example.G
            /\ grown_in_run Example.G Example.U Example.R Example.is_boundary_node 10
                 Region.empty_world (Graph.nodes Example.G) c n
            /\ Crossroad.is_reliable_crossroad_node Example.G Example.R n = Ok true)
         [Example.crossroad_0; Example.crossroad_1].
Proof.
  apply (kept_crossroads_grow_from_reliable_nodes Example.G Example.U Example.R
           Example.is_boundary_node 10 Region.empty_world
           [Example.crossroad_0; Example.crossroad_1] Example.final_world).
  vm_compute. reflexivity.
Defined.

(** X9. When [is_reliable_crossroad_node] rejects every node of the
    graph, [build_crossroads] returns no crossroad and leaves the
    regions of the graph as they were. *)
Theorem no_reliable_node_no_crossroad G U R is_boundary_node fuel w :
  Forall (fun n => Crossroad.is_reliable_crossroad_node G R n = Ok false)
         (Graph.nodes G) ->
  Crossroad.build_crossroads G U R is_boundary_node fuel w = Ok ([], w).
Proof.
  intros Hall. unfold Crossroad.build_crossroads.
  by apply build_crossroads_loop_unreliable.
Qed.

Lemma no_reliable_node_no_crossroad_witness :
  Crossroad.build_crossroads Example.G Example.U Example.R_none
    Example.is_boundary_node 10 Region.empty_world
  = Ok ([], Region.empty_world).
Proof.
  apply (no_reliable_node_no_crossroad Example.G Example.U Example.R_none
           Example.is_boundary_node 10 Region.empty_world).
  repeat (constructor; [vm_compute; reflexivity|]). constructor.
Defined.

(** ** The branches of the center and the closest bifurcation *)

Section IndexMore.
Context {A : Type}.

Lemma index_last_inv (l : list A) x :
  Py.index l (Z.of_nat (length l) - 1) = Ok x -> last l = Some x.
Proof.
  intros H. apply index_Ok_lookup in H as (j & Hj & [[? ->]|[? Hlen]]).
  - rewrite last_lookup.
    by replace (Nat.pred (length l)) with (Z.to_nat (Z.of_nat (length l) - 1)) by lia.
  - apply lookup_lt_Some in Hj. lia.
Qed.

Lemma index_last_two_inv (l : list A) a b :
  Py.index l (Z.of_nat (length l) - 2) = Ok a ->
  Py.index l (Z.of_nat (length l) - 1) = Ok b ->
  (exists pre, l = pre ++ [a; b]) \/ (l = [b] /\ a = b).
Proof.
  intros Ha Hb. destruct l as [|x [|y l]].
  - discriminate.
  - right. vm_compute in Ha, Hb. by injection Ha as <-; injection Hb as <-.
  - left. apply index_last_two; [simpl; lia|done|done].
Qed.
End IndexMore.

Section CenterBranches.
Variables (G : Graph.t) (U : Util.t).
Variable is_boundary_node : Region.t -> node -> bool.

Lemma branches_of_border_center self center radius chunk :
  Crossroad.getCenter self = Ok center ->
  Crossroad.branches_of_border G U self center radius center = Ok chunk ->
  center_branches G U self center radius chunk.
Proof.
  intros Hc. unfold Crossroad.branches_of_border.
  rewrite decide_False by (intros Hne; by apply Hne).
  unfold Crossroad.get_open_paths.
  destruct (Graph.neighbors G center) as [nbs|] eqn:Hn; py_step; [|discriminate].
  intros Hm. apply mapM_res_Forall2 in Hm. exists nbs. split; [done|].
  apply Forall2_fmap_l in Hm. eapply Forall2_impl; [exact Hm|].
  intros nb br. unfold Crossroad.branch_of_open_path. simpl.
  destruct (Py.index _ (_ - 2)) as [a|] eqn:Ha; py_step; [|discriminate].
  destruct (Py.index _ (_ - 1)) as [b|] eqn:Hb; py_step; [|discriminate].
  pose proof (index_last_two_inv _ a b Ha Hb) as Hends.
  unfold Crossroad.get_branch_description_from_edge. simpl.
  destruct (Graph.edge G a b) as [e|] eqn:He; py_step; [|discriminate].
  rewrite Hc. py_step. intros [= <-]. simpl. by exists a, b, e.
Qed.
End CenterBranches.

(** X10. When the center is a boundary node,
    [build_branches_description] gives it one branch per neighbour
    whose edge to the center is not part of the region: the branch is
    read at the end of the open path [get_path_to_biffurcation] returns
    for this neighbour and the radius, its angle is the bearing from the
    center to the last node of the path and its name the name of the
    last edge of the path. *)
Theorem branches_of_the_center G U is_boundary_node (self : Region.t)
    (bs : list BranchDescription.t) :
  Crossroad.build_branches_description G U is_boundary_node self = Ok bs ->
  exists center radius chunks,
    Crossroad.getCenter self = Ok center
    /\ Crossroad.get_radius G U is_boundary_node self = Ok radius
    /\ bs = concat chunks
    /\ Forall2 (fun b chunk => b = center -> center_branches G U self center radius chunk)
         (List.filter (is_boundary_node self) (Region.nodes self)) chunks.
Proof.
  unfold Crossroad.build_branches_description.
  destruct (Crossroad.getCenter self) as [center|] eqn:Hc; py_step; [|discriminate].
  destruct (Crossroad.get_radius G U is_boundary_node self) as [radius|] eqn:Hr;
    py_step; [|discriminate].
  intros Hrun. apply build_branches_loop_chunks in Hrun as (chunks & -> & Hf).
  exists center, radius, chunks. split; [done|]. split; [done|]. split; [done|].
  eapply Forall2_impl; [exact Hf|]. intros b chunk Hb ->.
  by apply branches_of_border_center.
Qed.

Lemma branches_of_the_center_witness :
  exists center radius chunks,
    Crossroad.getCenter (Crossroad.region Example.crossroad_0) = Ok center
    /\ Crossroad.get_radius Example.G Example.U Example.is_boundary_node
         (Crossroad.region Example.crossroad_0) = Ok radius
    /\ Crossroad.branches Example.crossroad_0 = concat chunks
    /\ Forall2 (fun b chunk =>
                  b = center ->
                  center_branches Example.G Example.U
                    (Crossroad.region Example.crossroad_0) center radius chunk)
         (List.filter (Example.is_boundary_node (Crossroad.region Example.crossroad_0))
                      (Region.nodes (Crossroad.region Example.crossroad_0))) chunks.
Proof.
  apply (branches_of_the_center Example.G Example.U Example.is_boundary_node
           (Crossroad.region Example.crossroad_0)
           (Crossroad.branches Example.crossroad_0)).
  vm_compute. reflexivity.
Defined.

Section Closest.
Variables (G : Graph.t) (U : Util.t).
Variable point : node.

Local Abbreviation path_of nb := (Util.get_path_to_biffurcation U point nb None).
Local Abbreviation length_of nb := (Util.length U (path_of nb)).

Lemma closest_biffurcation_loop_best : forall nbs result len b,
  (forall nb, nb ∈ nbs -> (0 <= length_of nb)%Q) ->
  (0 <= len)%Q ->
  Crossroad.closest_biffurcation_loop U point nbs result len = Ok b ->
  (b = result /\ forall nb, nb ∈ nbs -> (len <= length_of nb)%Q)
  \/ exists nb,
       nb ∈ nbs /\ last (path_of nb) = Some b /\ (length_of nb < len)%Q
       /\ forall nb', nb' ∈ nbs -> (length_of nb <= length_of nb')%Q.
Proof.
  induction nbs as [|nb nbs IH]; intros result len b Hpos Hlen; simpl.
  - intros [= <-]. left. split; [done|]. by intros nb ?%elem_of_nil.
  - assert (Py.Qltb len 0 = false) as ->.
    { apply not_true_iff_false. rewrite Qltb_lt. by apply Qle_not_lt. }
    cbn [orb].
    assert (forall nb', nb' ∈ nbs -> (0 <= length_of nb')%Q) as Hpos'
      by (intros nb' Hnb'; apply Hpos; by apply list_elem_of_further).
    assert (0 <= length_of nb)%Q as Hnb by (apply Hpos; apply list_elem_of_here).
    destruct (Py.Qltb (length_of nb) len) eqn:Hlt.
    + apply Qltb_lt in Hlt.
      destruct (Py.index _ _) as [lastn|] eqn:Hlast; py_step; [|discriminate].
      apply index_last_inv in Hlast.
      intros Hrun. right.
      destruct (IH _ _ _ Hpos' Hnb Hrun) as [[-> Hmin]|(nb2 & Hin2 & Hl2 & Hlt2 & Hmin2)].
      * exists nb. split; [apply list_elem_of_here|]. split; [done|]. split; [done|].
        intros nb' Hnb'. apply elem_of_cons in Hnb' as [->|Hnb'];
          [apply Qle_refl | by apply Hmin].
      * exists nb2. split; [by apply list_elem_of_further|]. split; [done|].
        split; [by eapply Qlt_trans|].
        intros nb' Hnb'. apply elem_of_cons in Hnb' as [->|Hnb'];
          [by apply Qlt_le_weak | by apply Hmin2].
    + assert (len <= length_of nb)%Q as Hge.
      { apply Qnot_lt_le. intros Hlt'. apply Qltb_lt in Hlt'. congruence. }
      intros Hrun.
      destruct (IH _ _ _ Hpos' Hlen Hrun) as [[-> Hmin]|(nb2 & Hin2 & Hl2 & Hlt2 & Hmin2)].
      * left. split; [done|].
        intros nb' Hnb'. apply elem_of_cons in Hnb' as [->|Hnb']; [done | by apply Hmin].
      * right. exists nb2. split; [by apply list_elem_of_further|]. split; [done|].
        split; [done|].
        intros nb' Hnb'. apply elem_of_cons in Hnb' as [->|Hnb']; [|by apply Hmin2].
        apply Qlt_le_weak. by eapply Qlt_le_trans.
Qed.
End Closest.

(** X11. [get_closest_possible_biffurcation(point)] returns -1 when
    [point] has no neighbour; otherwise, lengths being non-negative, it
    returns the last node of the path to a bifurcation through a
    neighbour of [point] for which this path is a shortest one. *)
Theorem closest_biffurcation_is_nearest G U (point : node) nbs b :
  Graph.neighbors G point = Ok nbs ->
  (forall nb, nb ∈ nbs ->
     (0 <= Util.length U (Util.get_path_to_biffurcation U point nb None))%Q) ->
  Crossroad.get_closest_possible_biffurcation G U point = Ok b ->
  (nbs = [] /\ b = -1)
  \/ exists nb,
       nb ∈ nbs
       /\ last (Util.get_path_to_biffurcation U point nb None) = Some b
       /\ forall nb', nb' ∈ nbs ->
            (Util.length U (Util.get_path_to_biffurcation U point nb None)
             <= Util.length U (Util.get_path_to_biffurcation U point nb' None))%Q.
Proof.
  intros Hn Hpos. unfold Crossroad.get_closest_possible_biffurcation.
  rewrite Hn. py_step.
  destruct nbs as [|nb nbs]; cbn [Crossroad.closest_biffurcation_loop].
  - intros [= <-]. by left.
  - assert (Py.Qltb (-1)%Q 0%Q = true) as -> by (by vm_compute).
    cbn [orb].
    destruct (Py.index _ _) as [lastn|] eqn:Hlast; py_step; [|discriminate].
    apply index_last_inv in Hlast. intros Hrun. right.
    apply closest_biffurcation_loop_best in Hrun
      as [[-> Hmin]|(nb2 & Hin2 & Hl2 & Hlt2 & Hmin2)].
    + exists nb. split; [apply list_elem_of_here|]. split; [done|].
      intros nb' Hnb'. apply elem_of_cons in Hnb' as [->|Hnb'];
        [apply Qle_refl | by apply Hmin].
    + exists nb2. split; [by apply list_elem_of_further|]. split; [done|].
      intros nb' Hnb'. apply elem_of_cons in Hnb' as [->|Hnb'];
        [by apply Qlt_le_weak | by apply Hmin2].
    + intros nb' Hnb'. apply Hpos. by apply list_elem_of_further.
    + apply Hpos. apply list_elem_of_here.
Qed.

Lemma closest_biffurcation_is_nearest_witness :
  (([0] : list node) = [] /\ 0 = -1)
  \/ exists nb,
       nb ∈ [0]
       /\ last (Util.get_path_to_biffurcation Example.U 1 nb None) = Some 0
       /\ forall nb', nb' ∈ [0] ->
            Qle (Util.length Example.U
                   (Util.get_path_to_biffurcation Example.U 1 nb None))
                (Util.length Example.U
                   (Util.get_path_to_biffurcation Example.U 1 nb' None)).
Proof.
  apply (closest_biffurcation_is_nearest Example.G Example.U 1 [0] 0).
  - vm_compute. reflexivity.
  - intros nb Hnb. by vm_compute.
  - vm_compute. reflexivity.
Defined.

(** ** Neighbourhoods and clusters *)

Section Neighborhood.
Variable U : Util.t.

Lemma neighborhood_loop_spec self center radius : forall crossroads result res,
  Crossroad.neighborhood_loop U self center radius crossroads result = Ok res ->
  exists new,
    res = result ++ new
    /\ new `sublist_of` crossroads
    /\ forall c, c ∈ new <-> c ∈ crossroads /\ in_neighborhood U self center radius c.
Proof.
  induction crossroads as [|c0 crossroads IH]; intros result res; simpl.
  - intros [= <-]. exists []. rewrite app_nil_r. split; [done|]. split; [done|].
    intros c. split; [by intros ?%elem_of_nil | by intros [?%elem_of_nil _]].
  - destruct (decide (Region.id (Crossroad.region c0) ≠ Region.id (Crossroad.region self)))
      as [Hid|Hid].
    + rewrite bool_decide_eq_true_2 by done.
      destruct (Crossroad.getCenter (Crossroad.region c0)) as [cc|] eqn:Hcc;
        py_step; [|discriminate].
      destruct (PrimFloat.ltb (Util.distance U center cc) radius) eqn:Hd.
      * intros Hrun. destruct (IH _ _ Hrun) as (new & -> & Hsub & Hiff).
        exists (c0 :: new). rewrite <- app_assoc. split; [done|].
        split; [by apply sublist_skip|].
        intros c. rewrite !elem_of_cons, Hiff. split.
        -- intros [->|[Hin Hn]]; [|by split; [right|]].
           split; [by left|]. split; [done|]. by exists cc.
        -- intros [[->|Hin] Hn]; [by left | by right].
      * intros Hrun. destruct (IH _ _ Hrun) as (new & -> & Hsub & Hiff).
        exists new. split; [done|]. split; [by apply sublist_cons|].
        intros c. rewrite elem_of_cons, Hiff. split; [by intros [? ?]; split; [right|]|].
        intros [[->|Hin] Hn]; [|done]. exfalso.
        destruct Hn as (_ & cc' & Hcc' & Hlt). rewrite Hcc in Hcc'.
        injection Hcc' as <-. congruence.
    + rewrite bool_decide_eq_false_2 by done.
      intros Hrun. destruct (IH _ _ Hrun) as (new & -> & Hsub & Hiff).
      exists new. split; [done|]. split; [by apply sublist_cons|].
      intros c. rewrite elem_of_cons, Hiff. split; [by intros [? ?]; split; [right|]|].
      intros [[->|Hin] Hn]; [|done]. exfalso. by destruct Hn as [Hn _].
Qed.
End Neighborhood.

(** X12. [get_crossroads_in_neighborhood] returns, in the order of
    its argument, exactly the crossroads that have another id than
    [self] and whose center is at a distance below four times the
    radius of [self], the float [get_radius] returns, product and
    comparison being those of floats; in particular it never returns
    [self]. *)
Theorem neighborhood_members G U is_boundary_node (self : Crossroad.t)
    (crossroads res : list Crossroad.t) center r :
  Crossroad.getCenter (Crossroad.region self) = Ok center ->
  Crossroad.get_radius G U is_boundary_node (Crossroad.region self) = Ok r ->
  Crossroad.get_crossroads_in_neighborhood G U is_boundary_node self crossroads = Ok res ->
  res `sublist_of` crossroads
  /\ forall c, c ∈ res
       <-> c ∈ crossroads /\ in_neighborhood U self center (PrimFloat.mul r 4) c.
Proof.
  intros Hc Hr. unfold Crossroad.get_crossroads_in_neighborhood.
  rewrite Hc, Hr. py_step. intros Hrun.
  apply neighborhood_loop_spec in Hrun as (new & -> & Hsub & Hiff). done.
Qed.

Lemma neighborhood_members_witness :
  [Example.crossroad_1] `sublist_of` [Example.crossroad_0; Example.crossroad_1]
  /\ Example.crossroad_0 ∉ [Example.crossroad_1].
Proof.
  destruct (neighborhood_members Example.G Example.U Example.is_boundary_node
              Example.crossroad_0 [Example.crossroad_0; Example.crossroad_1]
              [Example.crossroad_1] 0 1.5) as [Hsub Hiff].
  - reflexivity.
  - vm_compute. reflexivity.
  - vm_compute. reflexivity.
  - split; [exact Hsub|]. intros Hin. apply Hiff in Hin as (_ & Hid & _).
    by apply Hid.
Defined.

(** The radius is the rounded mean: for borders at the distances 0, 1
    and 0 it is 0.3333333333333333, four times the radius is
    1.3333333333333333, and a center at this distance is not in the
    neighbourhood. *)
Example neighborhood_uses_the_rounded_mean :
  Crossroad.get_radius Example.G Example.U_mean Example.is_border_mean
    (Crossroad.region Example.crossroad_mean)
  = Ok 0x1.5555555555555p-2%float
  /\ Crossroad.get_crossroads_in_neighborhood Example.G Example.U_mean
       Example.is_border_mean Example.crossroad_mean
       [Example.crossroad_mean; Example.crossroad_9]
     = Ok [].
Proof. split; vm_compute; reflexivity. Qed.

(** ** The partition into clusters *)

Lemma filter_complement_Permutation {A} (f : A -> bool) (l : list A) :
  List.filter f l ++ List.filter (fun x => negb (f x)) l ≡ₚ l.
Proof.
  induction l as [|x l IH]; simpl; [done|].
  destruct (f x); simpl.
  - by rewrite IH.
  - by rewrite <- Permutation_middle, IH.
Qed.

Lemma concat_Permutation {A} (l1 l2 : list (list A)) :
  l1 ≡ₚ l2 -> concat l1 ≡ₚ concat l2.
Proof.
  induction 1 as [|x l1 l2 _ IH|x y l|l1 l2 l3 _ IH1 _ IH2]; simpl.
  - done.
  - by rewrite IH.
  - rewrite !app_assoc. by rewrite (Permutation_app_comm x y).
  - by etrans.
Qed.





Lemma filter_Forall {A} (P : A -> Prop) (f : A -> bool) (l : list A) :
  Forall P l -> Forall P (List.filter f l).
Proof.
  induction 1 as [|x l Hx _ IH]; simpl; [constructor|].
  destruct (f x); [by constructor | done].
Qed.

Lemma merge_clusters_members cr result cluster out result' cluster' out' :
  Crossroad.merge_clusters cr result cluster out = (result', cluster', out') ->
  members cluster' result' ≡ₚ members cluster result
  /\ (Forall (fun cl => (2 <= length cl)%nat) result ->
      Forall (fun cl => (2 <= length cl)%nat) result').
Proof.
  unfold Crossroad.merge_clusters.
  destruct (List.filter (Crossroad.cr_in cr) result) as [|oc [|? ?]] eqn:Hf; simpl;
    intros [= <- <- <-]; try done.
  split; [|apply filter_Forall].
  unfold members. rewrite <- app_assoc. apply Permutation_app_head.
  change (oc ++ concat (List.filter (fun c => negb (Crossroad.cr_in cr c)) result))
    with (concat (oc :: List.filter (fun c => negb (Crossroad.cr_in cr c)) result)).
  apply concat_Permutation.
  change (oc :: ?l) with ([oc] ++ l). rewrite <- Hf.
  apply filter_complement_Permutation.
Qed.

Section Partition.
Variables (G : Graph.t) (U : Util.t).
Variable is_boundary_node : Region.t -> node -> bool.
Variable B : BranchDescription.ops.

Lemma cluster_loop_partition all crossroad : forall crs visited cluster result out
    visited' cluster' result' out',
  Forall (fun x => x ∈ all) crs ->
  partition_state all visited cluster result ->
  Crossroad.cluster_loop U B crossroad crs visited cluster result out
  = Ok (visited', cluster', result', out') ->
  partition_state all visited' cluster' result'
  /\ (length cluster <= length cluster')%nat.
Proof.
  induction crs as [|cr crs IH];
    intros visited cluster result out visited' cluster' result' out' Hcrs Hinv; simpl.
  - intros [= <- <- <- <-]. done.
  - apply Forall_cons in Hcrs as [Hcr Hcrs].
    destruct (Crossroad.in_same_cluster U B crossroad cr) as [[]|];
      py_step; [| by apply IH | discriminate].
    destruct (Py.mem (Region.id (Crossroad.region cr)) visited) eqn:Hv; simpl.
    + destruct (Crossroad.merge_clusters cr result cluster out)
        as [[result1 cluster1] out1] eqn:Hm.
      intros Hrun.
      pose proof (merge_clusters_members _ _ _ _ _ _ _ Hm) as [Hperm Hsize].
      assert (length cluster <= length cluster1)%nat as Hlen.
      { revert Hm. unfold Crossroad.merge_clusters.
        destruct (negb _); intros [= <- <- <-]; [done|].
        rewrite length_app. lia. }
      apply IH in Hrun as [Hinv' Hlen']; [split; [done|lia] | done |].
      destruct Hinv as (HA & HB & HC). split; [by apply Hsize|].
      split; [by rewrite Hperm | by rewrite Hperm].
    + intros Hrun. apply IH in Hrun as [Hinv' Hlen']; [| done |].
      * split; [done|]. rewrite length_app in Hlen'. simpl in Hlen'. lia.
      * apply bool_decide_eq_false in Hv.
        destruct Hinv as (HA & HB & HC). split; [done|].
        assert (members (cluster ++ [cr]) result ≡ₚ cr :: members cluster result)
          as Hperm.
        { unfold members. rewrite <- app_assoc. simpl.
          by rewrite <- Permutation_middle. }
        split.
        -- rewrite Hperm. constructor.
           ++ split; [done|]. apply elem_of_app. right. apply list_elem_of_here.
           ++ eapply Forall_impl; [exact HB|]. intros x [? ?]. split; [done|].
              apply elem_of_app. by left.
        -- rewrite Hperm, fmap_cons. apply NoDup_cons. split; [|done].
           intros Hin. apply list_elem_of_fmap in Hin as (x & Hx & Hin).
           rewrite Forall_forall in HB. destruct (HB x Hin) as [_ Hvis].
           apply Hv. unfold crossroad_id in *. by rewrite Hx.
Qed.

Lemma get_clusters_loop_partition all : forall todo visited result out result' out',
  Forall (fun x => x ∈ all) todo ->
  partition_state all visited [] result ->
  Crossroad.get_clusters_loop G U is_boundary_node B all todo visited result out
  = Ok (result', out') ->
  exists visited', partition_state all visited' [] result'.
Proof.
  induction todo as [|crossroad todo IH];
    intros visited result out result' out' Htodo Hinv; simpl.
  - intros [= <- <-]. by exists visited.
  - apply Forall_cons in Htodo as [Hc Htodo].
    destruct (Py.mem (Region.id (Crossroad.region crossroad)) visited) eqn:Hv; simpl;
      [by apply IH|].
    apply bool_decide_eq_false in Hv.
    destruct (Crossroad.get_crossroads_in_neighborhood G U is_boundary_node crossroad all)
      as [nb|] eqn:Hnb; py_step; [|discriminate].
    assert (Forall (fun x => x ∈ all) nb) as Hsub.
    { revert Hnb. unfold Crossroad.get_crossroads_in_neighborhood.
      destruct (Crossroad.getCenter _) as [center|]; py_step; [|discriminate].
      destruct (Crossroad.get_radius _ _ _ _) as [r|]; py_step; [|discriminate].
      intros Hrun. apply neighborhood_loop_spec in Hrun as (new & -> & Hs & _).
      apply Forall_forall. intros x Hx. rewrite app_nil_l in Hx.
      by eapply elem_of_sublist. }
    destruct (Crossroad.cluster_loop U B crossroad nb _ _ result out)
      as [[[[visited1 cluster1] result1] out1]|] eqn:Hloop; py_step; [|discriminate].
    apply cluster_loop_partition with (all := all) in Hloop as [Hinv1 Hlen]; [|done|].
    + destruct Hinv1 as (HA & HB & HC).
      destruct (Nat.ltb_spec 1 (length cluster1)) as [Hbig|Hsmall].
      * apply IH; [done|]. split; [|split].
        -- apply Forall_app. split; [done|]. constructor; [lia|constructor].
        -- unfold members in *. simpl. rewrite concat_app. simpl.
           rewrite app_nil_r. by rewrite Permutation_app_comm.
        -- unfold members in *. simpl. rewrite concat_app. simpl.
           rewrite app_nil_r. by rewrite Permutation_app_comm.
      * apply IH; [done|]. split; [done|]. unfold members in *. simpl. split.
        -- by apply Forall_app in HB as [_ HB].
        -- rewrite fmap_app in HC. by apply NoDup_app in HC as (_ & _ & HC).
    + destruct Hinv as (HA & HB & HC). split; [done|].
      unfold members in *. simpl in *. split.
      * constructor.
        -- split; [done|]. apply elem_of_app. right. apply list_elem_of_here.
        -- eapply Forall_impl; [exact HB|]. intros x [? ?]. split; [done|].
           apply elem_of_app. by left.
      * apply NoDup_cons. split; [|done].
        intros Hin. apply list_elem_of_fmap in Hin as (x & Hx & Hin).
        rewrite Forall_forall in HB. destruct (HB x Hin) as [_ Hvis].
        apply Hv. unfold crossroad_id in *. by rewrite Hx.
Qed.

Lemma get_clusters_partition crossroads result out :
  Crossroad.get_clusters G U is_boundary_node B crossroads = Ok (result, out) ->
  exists visited, partition_state crossroads visited [] result.
Proof.
  intros Hrun. unfold Crossroad.get_clusters in Hrun.
  eapply get_clusters_loop_partition; [|  |exact Hrun].
  - by apply Forall_forall.
  - split; [constructor|]. split; [constructor|]. constructor.
Qed.
End Partition.

(** X13. Every cluster that [get_clusters] returns has at least two
    members. *)
Theorem clusters_have_two_members G U is_boundary_node B crossroads result out :
  Crossroad.get_clusters G U is_boundary_node B crossroads = Ok (result, out) ->
  Forall (fun cl => (2 <= length cl)%nat) result.
Proof. intros Hrun. by apply get_clusters_partition in Hrun as (visited & HA & _). Qed.

Lemma clusters_have_two_members_witness :
  Forall (fun cl : list Crossroad.t => (2 <= length cl)%nat)
         [[Example.crossroad_0; Example.crossroad_1]].
Proof.
  apply (clusters_have_two_members Example.G Example.U Example.is_boundary_node
           Example.B [Example.crossroad_0; Example.crossroad_1]
           [[Example.crossroad_0; Example.crossroad_1]] []).
  vm_compute. reflexivity.
Defined.

(** X14. The clusters that [get_clusters] returns are made of
    crossroads of its argument, and no crossroad id occurs twice, be
    it in one cluster or in two. *)
Theorem clusters_are_disjoint G U is_boundary_node B crossroads result out :
  Crossroad.get_clusters G U is_boundary_node B crossroads = Ok (result, out) ->
  (forall cl c, cl ∈ result -> c ∈ cl -> c ∈ crossroads)
  /\ NoDup (crossroad_id <$> concat result).
Proof.
  intros Hrun. apply get_clusters_partition in Hrun as (visited & _ & HB & HC).
  unfold members in *. simpl in *. split; [|done].
  intros cl c Hcl Hc. rewrite Forall_forall in HB.
  apply (HB c). apply list_elem_of_In, in_concat. exists cl.
  split; by apply list_elem_of_In.
Qed.

Lemma clusters_are_disjoint_witness :
  NoDup (crossroad_id <$> concat [[Example.crossroad_0; Example.crossroad_1]]).
Proof.
  apply (clusters_are_disjoint Example.G Example.U Example.is_boundary_node
           Example.B [Example.crossroad_0; Example.crossroad_1]
           [[Example.crossroad_0; Example.crossroad_1]] []).
  vm_compute. reflexivity.
Defined.

Lemma in_same_cluster_true U B (a b : Crossroad.t) :
  Crossroad.in_same_cluster U B a b = Ok true ->
  Crossroad.branches a ≠ [] /\ Crossroad.branches b ≠ [].
Proof.
  unfold Crossroad.in_same_cluster.
  destruct (Crossroad.getCenter (Crossroad.region a)) as [c1|]; py_step; [|discriminate].
  destruct (Crossroad.getCenter (Crossroad.region b)) as [c2|]; py_step; [|discriminate].
  intros [= Hex]. apply existsb_exists in Hex as (b1 & Hb1 & Hex).
  apply existsb_exists in Hex as (b2 & Hb2 & _).
  split; intros Hnil; [rewrite Hnil in Hb1 | rewrite Hnil in Hb2]; done.
Qed.

Section Branchless.
Variables (G : Graph.t) (U : Util.t).
Variable is_boundary_node : Region.t -> node -> bool.
Variable B : BranchDescription.ops.

Local Abbreviation branchy := (fun c : Crossroad.t => Crossroad.branches c ≠ []).

Lemma merge_clusters_branchy cr result cluster out result' cluster' out' :
  Crossroad.merge_clusters cr result cluster out = (result', cluster', out') ->
  Forall (Forall branchy) result ->
  Forall (Forall branchy) result'
  /\ (Forall branchy cluster -> Forall branchy cluster').
Proof.
  unfold Crossroad.merge_clusters. intros Hm Hres.
  destruct (List.filter (Crossroad.cr_in cr) result) as [|oc [|? ?]] eqn:Hf;
    simpl in Hm; injection Hm as <- <- <-; try (split; [done|done]).
  assert (Forall branchy oc) as Hoc.
  { rewrite Forall_forall in Hres. apply Hres.
    assert (oc ∈ List.filter (Crossroad.cr_in cr) result) as Hin
      by (rewrite Hf; apply list_elem_of_here).
    apply list_elem_of_In, filter_In in Hin as [Hin _]. by apply list_elem_of_In. }
  split; [by apply filter_Forall|].
  intros Hcl. apply Forall_app. done.
Qed.

Lemma cluster_loop_branchy crossroad : forall crs visited cluster result out
    visited' cluster' result' out',
  Forall (Forall branchy) result ->
  Forall branchy (drop 1 cluster) ->
  head cluster = Some crossroad ->
  Crossroad.cluster_loop U B crossroad crs visited cluster result out
  = Ok (visited', cluster', result', out') ->
  Forall (Forall branchy) result'
  /\ Forall branchy (drop 1 cluster')
  /\ head cluster' = Some crossroad
  /\ (cluster' = cluster \/ branchy crossroad).
Proof.
  induction crs as [|cr crs IH];
    intros visited cluster result out visited' cluster' result' out' Hres Hcl Hhd; simpl.
  - intros [= <- <- <- <-]. repeat split; try done. by left.
  - destruct (Crossroad.in_same_cluster U B crossroad cr) as [[]|] eqn:Hsame;
      py_step; [| by apply IH | discriminate].
    apply in_same_cluster_true in Hsame as [Hb1 Hb2].
    destruct cluster as [|c0 cluster]; [discriminate|]. injection Hhd as ->.
    destruct (negb _).
    + intros Hrun. apply IH in Hrun as (? & ? & ? & _); try done.
      * repeat split; try done. by right.
      * simpl. apply Forall_app. split; [done|]. by constructor.
    + destruct (Crossroad.merge_clusters cr result (crossroad :: cluster) out)
        as [[result1 cluster1] out1] eqn:Hm.
      pose proof Hm as Hm'. apply merge_clusters_branchy in Hm' as (Hres1 & Hall); [|done].
      assert (Forall branchy cluster1 /\ head cluster1 = Some crossroad) as [Hc1 Hh1].
      { split; [apply Hall; by constructor|].
        revert Hm. unfold Crossroad.merge_clusters.
        by destruct (negb _); intros [= <- <- <-]. }
      intros Hrun. apply IH in Hrun as (? & ? & ? & _); try done.
      * repeat split; try done. by right.
      * destruct cluster1; [done|]. simpl. by apply Forall_cons in Hc1 as [_ ?].
Qed.

Lemma get_clusters_loop_branchy all : forall todo visited result out result' out',
  Forall (Forall branchy) result ->
  Crossroad.get_clusters_loop G U is_boundary_node B all todo visited result out
  = Ok (result', out') ->
  Forall (Forall branchy) result'.
Proof.
  induction todo as [|crossroad todo IH];
    intros visited result out result' out' Hres; simpl.
  - by intros [= <- <-].
  - destruct (negb _); [|by apply IH].
    destruct (Crossroad.get_crossroads_in_neighborhood G U is_boundary_node crossroad all)
      as [nb|]; py_step; [|discriminate].
    destruct (Crossroad.cluster_loop U B crossroad nb _ _ result out)
      as [[[[visited1 cluster1] result1] out1]|] eqn:Hloop; py_step; [|discriminate].
    apply cluster_loop_branchy in Hloop as (Hres1 & Hcl1 & Hhd & Hcase);
      [|done|constructor|done].
    destruct (Nat.ltb_spec 1 (length cluster1)) as [Hbig|Hsmall]; [|by apply IH].
    apply IH. apply Forall_app. split; [done|]. constructor; [|constructor].
    destruct Hcase as [->|Hb]; [simpl in Hbig; lia|].
    destruct cluster1 as [|c0 cluster1]; [done|]. injection Hhd as ->.
    by constructor.
Qed.
End Branchless.

(** X15. A crossroad without branch is never a member of a cluster
    that [get_clusters] returns. *)
Theorem clustered_crossroads_have_branches G U is_boundary_node B crossroads result out :
  Crossroad.get_clusters G U is_boundary_node B crossroads = Ok (result, out) ->
  forall cl c, cl ∈ result -> c ∈ cl -> Crossroad.branches c ≠ [].
Proof.
  intros Hrun cl c Hcl Hc. unfold Crossroad.get_clusters in Hrun.
  apply get_clusters_loop_branchy in Hrun; [|constructor].
  rewrite Forall_forall in Hrun. specialize (Hrun cl Hcl).
  rewrite Forall_forall in Hrun. by apply Hrun.
Qed.

Lemma clustered_crossroads_have_branches_witness :
  Crossroad.branches Example.crossroad_1 ≠ [].
Proof.
  apply (clustered_crossroads_have_branches Example.G Example.U
           Example.is_boundary_node Example.B
           [Example.crossroad_0; Example.crossroad_1]
           [[Example.crossroad_0; Example.crossroad_1]] []
           eq_refl [Example.crossroad_0; Example.crossroad_1] Example.crossroad_1).
  - apply list_elem_of_here.
  - apply list_elem_of_further, list_elem_of_here.
Defined.

Section NoSimilar.
Variables (G : Graph.t) (U : Util.t).
Variable is_boundary_node : Region.t -> node -> bool.
Variable B : BranchDescription.ops.

Lemma cluster_loop_none crossroad : forall crs visited cluster result out,
  Forall (fun cr => Crossroad.in_same_cluster U B crossroad cr = Ok false) crs ->
  Crossroad.cluster_loop U B crossroad crs visited cluster result out
  = Ok (visited, cluster, result, out).
Proof.
  induction crs as [|cr crs IH]; intros visited cluster result out Hcrs; simpl; [done|].
  apply Forall_cons in Hcrs as [-> Hcrs]. py_step. by apply IH.
Qed.

Lemma get_clusters_loop_none all : forall todo visited,
  Forall (fun c => exists nb,
            Crossroad.get_crossroads_in_neighborhood G U is_boundary_node c all = Ok nb
            /\ Forall (fun cr => Crossroad.in_same_cluster U B c cr = Ok false) nb) todo ->
  Crossroad.get_clusters_loop G U is_boundary_node B all todo visited [] []
  = Ok ([], []).
Proof.
  induction todo as [|c todo IH]; intros visited Htodo; simpl; [done|].
  apply Forall_cons in Htodo as [(nb & Hnb & Hfalse) Htodo].
  destruct (negb _); [|by apply IH].
  rewrite Hnb. py_step. rewrite cluster_loop_none by done. py_step.
  simpl. by apply IH.
Qed.
End NoSimilar.

(** X16. When [in_same_cluster] holds for no pair of crossroads,
    [get_clusters] returns no cluster and prints nothing. *)
Theorem no_similar_branch_no_cluster G U is_boundary_node B crossroads :
  (forall c, c ∈ crossroads ->
     exists nb,
       Crossroad.get_crossroads_in_neighborhood G U is_boundary_node c crossroads
       = Ok nb) ->
  (forall c c', c ∈ crossroads -> c' ∈ crossroads ->
     Crossroad.in_same_cluster U B c c' = Ok false) ->
  Crossroad.get_clusters G U is_boundary_node B crossroads = Ok ([], []).
Proof.
  intros Hnb Hfalse. unfold Crossroad.get_clusters.
  apply get_clusters_loop_none. apply Forall_forall. intros c Hc.
  destruct (Hnb c Hc) as [nb Hrun]. exists nb. split; [done|].
  apply Forall_forall. intros cr Hcr. apply Hfalse; [done|].
  revert Hrun. unfold Crossroad.get_crossroads_in_neighborhood.
  destruct (Crossroad.getCenter _) as [center|]; py_step; [|discriminate].
  destruct (Crossroad.get_radius _ _ _ _) as [r|]; py_step; [|discriminate].
  intros Hrun. apply neighborhood_loop_spec in Hrun as (new & -> & Hs & _).
  rewrite app_nil_l in Hcr. by eapply elem_of_sublist.
Qed.

Lemma no_similar_branch_no_cluster_witness :
  Crossroad.get_clusters Example.G Example.U Example.is_boundary_node Example.B_none
    [Example.crossroad_0; Example.crossroad_1]
  = Ok ([], []).
Proof.
  apply (no_similar_branch_no_cluster Example.G Example.U Example.is_boundary_node
           Example.B_none [Example.crossroad_0; Example.crossroad_1]).
  - intros c Hc.
    apply elem_of_cons in Hc as [->|Hc];
      [|apply list_elem_of_singleton in Hc as ->];
      eexists; vm_compute; reflexivity.
  - intros c c' Hc Hc'.
    apply elem_of_cons in Hc as [->|Hc];
      [|apply list_elem_of_singleton in Hc as ->];
      (apply elem_of_cons in Hc' as [->|Hc'];
       [|apply list_elem_of_singleton in Hc' as ->]);
      vm_compute; reflexivity.
Defined.

(** ** The structure of the connection graph *)

Section DictMore.
Context {K V : Type} `{EqDecision K}.
Implicit Types (d : list (K * V)) (k : K) (v : V).

Lemma key_get d k : k ∈ d.*1 -> exists v, Py.get d k = Some v.
Proof.
  intros Hk. destruct (Py.get d k) as [v|] eqn:Hg; [by exists v|].
  by apply get_None_not_key in Hg.
Qed.

Lemma get_key d k v : Py.get d k = Some v -> k ∈ d.*1.
Proof.
  intros Hg. apply get_Some_elem_of in Hg. apply list_elem_of_fmap. by exists (k, v).
Qed.

Lemma get_set d k v k' :
  Py.get (Py.set d k v) k' = if decide (k = k') then Some v else Py.get d k'.
Proof.
  destruct (decide (k = k')) as [<-|Hne]; [apply get_set_eq | by apply get_set_ne].
Qed.

Lemma set_set d k v v' : Py.set (Py.set d k v) k v' = Py.set d k v'.
Proof.
  induction d as [|[k0 v0] d IH]; simpl.
  - by rewrite decide_True.
  - destruct (decide (k0 = k)) as [->|Hne]; simpl.
    + by rewrite decide_True.
    + rewrite decide_False by done. by rewrite IH.
Qed.

End DictMore.

(** [if not k in d: d[k] = []] followed by [d[k].append(x)]. *)
Lemma setdefault_append {K V} `{EqDecision K} (d : list (K * list V)) k (x : V) :
  match Py.get (if negb (Py.contains d k) then Py.set d k [] else d) k with
  | Some l => Py.set (if negb (Py.contains d k) then Py.set d k [] else d) k (l ++ [x])
  | None => if negb (Py.contains d k) then Py.set d k [] else d
  end
  = Py.set d k (default [] (Py.get d k) ++ [x]).
Proof.
  unfold Py.contains. destruct (Py.get d k) as [l|] eqn:Hg; simpl.
  - by rewrite Hg.
  - rewrite get_set_eq. by rewrite set_set.
Qed.


Section Index.
Variable regions : list (Z * CrossroadConnections.region).

Lemma add_node_region_get m rid n n' :
  Py.get (CrossroadConnections.add_node_region m rid n) n'
  = if decide (n = n') then Some (default [] (Py.get m n) ++ [rid])
    else Py.get m n'.
Proof.
  unfold CrossroadConnections.add_node_region, Py.contains.
  destruct (Py.get m n) as [l|] eqn:Hg; simpl.
  - rewrite Hg. apply get_set.
  - rewrite get_set_eq. rewrite get_set. simpl.
    destruct (decide (n = n')) as [<-|Hne]; [done|]. by rewrite get_set_ne.
Qed.

Lemma add_node_region_indexed m rid n n' rid' :
  indexed (CrossroadConnections.add_node_region m rid n) n' rid'
  <-> indexed m n' rid' \/ (n' = n /\ rid' = rid).
Proof.
  unfold indexed. rewrite add_node_region_get.
  destruct (decide (n = n')) as [<-|Hne].
  - split.
    + intros (rs & [= <-] & Hin). apply elem_of_app in Hin as [Hin|Hin].
      * left. destruct (Py.get m n) as [l|]; [by exists l|].
        by apply elem_of_nil in Hin.
      * right. by apply list_elem_of_singleton in Hin.
    + intros [(rs & Hg & Hin)|[_ ->]]; eexists; (split; [done|]).
      * rewrite Hg. apply elem_of_app. by left.
      * apply elem_of_app. right. apply list_elem_of_here.
  - split; [by left|]. intros [?|[? _]]; [done|congruence].
Qed.

Lemma add_node_region_NoDup m rid n :
  NoDup m.*1 -> NoDup (CrossroadConnections.add_node_region m rid n).*1.
Proof.
  intros Hnd. unfold CrossroadConnections.add_node_region.
  assert (NoDup (if negb (Py.contains m n) then Py.set m n [] else m).*1) as Hnd'.
  { destruct (negb _); [by apply NoDup_keys_set|done]. }
  destruct (Py.get _ n); [by apply NoDup_keys_set|done].
Qed.

Lemma add_nodes_indexed rid : forall ns m n' rid',
  indexed (fold_left (fun m n => CrossroadConnections.add_node_region m rid n) ns m)
          n' rid'
  <-> indexed m n' rid' \/ (rid' = rid /\ n' ∈ ns).
Proof.
  induction ns as [|n ns IH]; intros m n' rid'; simpl.
  - split; [by left|]. intros [?|[_ ?%elem_of_nil]]; done.
  - rewrite IH, add_node_region_indexed, elem_of_cons. tauto.
Qed.

Lemma add_nodes_NoDup rid : forall ns m,
  NoDup m.*1 ->
  NoDup (fold_left (fun m n => CrossroadConnections.add_node_region m rid n) ns m).*1.
Proof.
  induction ns as [|n ns IH]; intros m Hnd; simpl; [done|].
  apply IH. by apply add_node_region_NoDup.
Qed.

Lemma index_nodes_indexed : forall rids m m',
  CrossroadConnections.index_nodes regions rids m = Ok m' ->
  (forall n rid,
     indexed m' n rid
     <-> indexed m n rid
         \/ (rid ∈ rids
             /\ exists r, Py.get regions rid = Some r
                          /\ n ∈ CrossroadConnections.nodes r))
  /\ (NoDup m.*1 -> NoDup m'.*1).
Proof.
  induction rids as [|rid0 rids IH]; intros m m'; simpl.
  - intros [= <-]. split; [|done]. intros n rid. split; [by left|].
    intros [?|[?%elem_of_nil _]]; done.
  - destruct (Py.getitem regions rid0) as [r0|] eqn:Hr0; py_step; [|discriminate].
    apply getitem_Ok in Hr0. intros Hrun. apply IH in Hrun as [Hiff Hnd].
    split; [|by intros ?; apply Hnd, add_nodes_NoDup].
    intros n rid. rewrite Hiff, add_nodes_indexed, elem_of_cons. split.
    + intros [[?|[-> Hn]]|(Hin & r & Hr & Hn)].
      * by left.
      * right. split; [by left|]. by exists r0.
      * right. split; [by right|]. by exists r.
    + intros [?|([->|Hin] & r & Hr & Hn)].
      * by left; left.
      * left. right. split; [done|]. congruence.
      * right. split; [done|]. by exists r.
Qed.

Lemma index_nodes_total : forall rids m,
  Forall (fun rid => rid ∈ regions.*1) rids ->
  exists m', CrossroadConnections.index_nodes regions rids m = Ok m'.
Proof.
  induction rids as [|rid rids IH]; intros m Hall; simpl; [by exists m|].
  apply Forall_cons in Hall as [Hrid Hall].
  destruct (key_get _ _ Hrid) as [r Hr]. unfold Py.getitem. rewrite Hr. py_step.
  by apply IH.
Qed.

Lemma classify_total : forall rids crs lks,
  Forall (fun rid => rid ∈ regions.*1) rids ->
  exists crs' lks', CrossroadConnections.classify regions rids crs lks = Ok (crs', lks').
Proof.
  induction rids as [|rid rids IH]; intros crs lks Hall; simpl; [by exists crs, lks|].
  apply Forall_cons in Hall as [Hrid Hall].
  destruct (key_get _ _ Hrid) as [r Hr]. unfold Py.getitem. rewrite Hr. py_step.
  destruct (CrossroadConnections.is_crossroad r);
    [|destruct (CrossroadConnections.is_link r)]; by apply IH.
Qed.

Lemma classify_members : forall rids crs lks crs' lks',
  CrossroadConnections.classify regions rids crs lks = Ok (crs', lks') ->
  (forall rid,
     rid ∈ crs'
     <-> rid ∈ crs
         \/ (rid ∈ rids
             /\ exists r, Py.get regions rid = Some r
                          /\ CrossroadConnections.is_crossroad r = true))
  /\ (forall rid,
        rid ∈ lks'
        <-> rid ∈ lks
            \/ (rid ∈ rids
                /\ exists r, Py.get regions rid = Some r
                             /\ CrossroadConnections.is_crossroad r = false
                             /\ CrossroadConnections.is_link r = true)).
Proof.
  induction rids as [|rid0 rids IH]; intros crs lks crs' lks'; simpl.
  - intros [= <- <-]. split; intros rid; (split; [by left|]);
      intros [?|[?%elem_of_nil _]]; done.
  - destruct (Py.getitem regions rid0) as [r0|] eqn:Hr0; py_step; [|discriminate].
    apply getitem_Ok in Hr0.
    set (E := fun rid => exists r, Py.get regions rid = Some r
                          /\ CrossroadConnections.is_crossroad r = true).
    set (L := fun rid => exists r, Py.get regions rid = Some r
                          /\ CrossroadConnections.is_crossroad r = false
                          /\ CrossroadConnections.is_link r = true).
    destruct (CrossroadConnections.is_crossroad r0) eqn:Hc;
      [|destruct (CrossroadConnections.is_link r0) eqn:Hl];
      intros Hrun; apply IH in Hrun as [Hcrs Hlks].
    + assert (E rid0) as HE by (by exists r0).
      assert (~ L rid0) as HL by (intros (r & Hr & ? & _); congruence).
      split; intros rid; [rewrite Hcrs | rewrite Hlks];
        rewrite ?elem_of_app, ?list_elem_of_singleton, elem_of_cons;
        fold (E rid); fold (L rid);
        (destruct (decide (rid = rid0)) as [->|?]; tauto).
    + assert (~ E rid0) as HE by (intros (r & Hr & ?); congruence).
      assert (L rid0) as HL by (by exists r0).
      split; intros rid; [rewrite Hcrs | rewrite Hlks];
        rewrite ?elem_of_app, ?list_elem_of_singleton, elem_of_cons;
        fold (E rid); fold (L rid);
        (destruct (decide (rid = rid0)) as [->|?]; tauto).
    + assert (~ E rid0) as HE by (intros (r & Hr & ?); congruence).
      assert (~ L rid0) as HL by (intros (r & Hr & _ & ?); congruence).
      split; intros rid; [rewrite Hcrs | rewrite Hlks];
        rewrite ?elem_of_app, ?list_elem_of_singleton, elem_of_cons;
        fold (E rid); fold (L rid);
        (destruct (decide (rid = rid0)) as [->|?]; tauto).
Qed.
End Index.


Lemma adj_has_append adj1 r n r2 n' :
  adj_has (Py.set adj1 r (default [] (Py.get adj1 r) ++ [n])) r2 n'
  <-> adj_has adj1 r2 n' \/ (r2 = r /\ n' = n).
Proof.
  unfold adj_has. rewrite get_set.
  destruct (decide (r = r2)) as [<-|Hne].
  - split.
    + intros (ns & [= <-] & Hin). apply elem_of_app in Hin as [Hin|Hin].
      * left. destruct (Py.get adj1 r) as [l|]; [by exists l|].
        by apply elem_of_nil in Hin.
      * right. by apply list_elem_of_singleton in Hin.
    + intros [(ns & Hns & Hin)|[_ ->]]; eexists; (split; [done|]).
      * rewrite Hns. apply elem_of_app. by left.
      * apply elem_of_app. right. apply list_elem_of_here.
  - split; [by left|]. intros [?|[? _]]; [done|congruence].
Qed.

Section AdjacencyFacts.
Variables crossroads links : list Z.

Local Abbreviation typology := (CrossroadConnections.get_typology crossroads links).
Local Abbreviation add_loop := (CrossroadConnections.add_adjacencies_loop crossroads links).
Local Abbreviation add := (CrossroadConnections.add_adjacencies crossroads links).
Local Abbreviation build := (CrossroadConnections.build_adjacencies crossroads links).

Lemma add_adjacencies_loop_cons r1 n r rs adj1 :
  add_loop r1 n (r :: rs) adj1
  = if bool_decide (r ≠ r1) && bool_decide (typology r1 ≠ typology r)
    then add_loop r1 n rs (Py.set adj1 r (default [] (Py.get adj1 r) ++ [n]))
    else add_loop r1 n rs adj1.
Proof.
  cbn [CrossroadConnections.add_adjacencies_loop].
  destruct (_ && _); [|done]. by rewrite setdefault_append.
Qed.

Lemma add_adjacencies_loop_has r1 n : forall rs adj1 r2 n',
  adj_has (add_loop r1 n rs adj1) r2 n'
  <-> adj_has adj1 r2 n'
      \/ (n' = n /\ r2 ∈ rs /\ r2 ≠ r1 /\ typology r1 ≠ typology r2).
Proof.
  induction rs as [|r rs IH]; intros adj1 r2 n'.
  - simpl. split; [by left|]. intros [?|(_ & ?%elem_of_nil & _)]; done.
  - rewrite add_adjacencies_loop_cons, elem_of_cons.
    destruct (decide (r ≠ r1)) as [Hr|Hr];
      [rewrite (bool_decide_eq_true_2 _ Hr) | rewrite (bool_decide_eq_false_2 _ Hr)];
      [destruct (decide (typology r1 ≠ typology r)) as [Ht|Ht];
       [rewrite (bool_decide_eq_true_2 _ Ht) | rewrite (bool_decide_eq_false_2 _ Ht)]|];
      cbn [andb]; rewrite IH.
    + rewrite adj_has_append. split.
      * intros [[?|[-> ->]]|(-> & ? & ? & ?)]; [by left| |].
        -- right. split; [done|]. split; [by left|done].
        -- right. split; [done|]. split; [by right|done].
      * intros [?|(-> & [->|?] & ? & ?)].
        -- by left; left.
        -- by left; right.
        -- right. done.
    + split.
      * intros [?|(-> & ? & ? & ?)]; [by left|].
        right. split; [done|]. split; [by right|done].
      * intros [?|(-> & [->|?] & ? & ?)]; [by left|done|].
        right. done.
    + split.
      * intros [?|(-> & ? & ? & ?)]; [by left|].
        right. split; [done|]. split; [by right|done].
      * intros [?|(-> & [->|?] & ? & ?)]; [by left| |].
        -- exfalso. by apply Hr.
        -- right. done.
Qed.

Lemma add_adjacencies_loop_nonempty r1 n : forall rs adj1,
  nonempty_values adj1 -> nonempty_values (add_loop r1 n rs adj1).
Proof.
  induction rs as [|r rs IH]; intros adj1 Hne; [done|].
  rewrite add_adjacencies_loop_cons.
  destruct (_ && _); [|by apply IH]. apply IH.
  apply Forall_set; [done|]. simpl. by destruct (default [] (Py.get adj1 r)).
Qed.

Lemma add_adjacencies_eq A r1 n rs :
  add A r1 n rs = Py.set A r1 (add_loop r1 n rs (default [] (Py.get A r1))).
Proof.
  unfold CrossroadConnections.add_adjacencies, Py.contains.
  destruct (Py.get A r1) as [adj1|] eqn:Hg; simpl.
  - by rewrite Hg.
  - rewrite get_set_eq. by rewrite set_set.
Qed.

Lemma adjacent_default A r1 r2 n :
  adj_has (default [] (Py.get A r1)) r2 n <-> adjacent A r1 r2 n.
Proof.
  unfold adjacent. destruct (Py.get A r1) as [adj1|]; simpl.
  - split; [by exists adj1 | by intros (? & [= <-] & ?)].
  - split; [by intros (? & ? & ?) | by intros (? & ? & ?)].
Qed.

Lemma add_adjacencies_adjacent A r1 n rs r1' r2' n' :
  adjacent (add A r1 n rs) r1' r2' n'
  <-> adjacent A r1' r2' n'
      \/ (r1' = r1 /\ n' = n /\ r2' ∈ rs /\ r2' ≠ r1 /\ typology r1 ≠ typology r2').
Proof.
  rewrite add_adjacencies_eq. unfold adjacent at 1. rewrite get_set.
  destruct (decide (r1 = r1')) as [<-|Hne].
  - split.
    + intros (adj1 & [= <-] & Hhas).
      apply add_adjacencies_loop_has in Hhas as [Hhas|?]; [|by right].
      left. by apply adjacent_default.
    + intros Hcase. eexists. split; [done|].
      apply add_adjacencies_loop_has.
      destruct Hcase as [?|(_ & ?)]; [|by right]. left. by apply adjacent_default.
  - split; [by left|]. intros [?|(? & _)]; [done|congruence].
Qed.

Lemma add_adjacencies_key A r1 n rs r :
  is_Some (Py.get (add A r1 n rs) r) <-> is_Some (Py.get A r) \/ r = r1.
Proof.
  rewrite add_adjacencies_eq, get_set.
  destruct (decide (r1 = r)) as [<-|Hne].
  - split; [by right | by intros _; eexists].
  - split; [by left|]. intros [?|?]; [done|congruence].
Qed.

Lemma add_adjacencies_nonempty A r1 n rs :
  Forall (fun e => nonempty_values e.2) A ->
  Forall (fun e => nonempty_values e.2) (add A r1 n rs).
Proof.
  intros Hinv. rewrite add_adjacencies_eq. apply Forall_set; [done|]. simpl.
  apply add_adjacencies_loop_nonempty.
  destruct (Py.get A r1) as [adj1|] eqn:Hg; simpl; [|constructor].
  rewrite Forall_forall in Hinv. apply (Hinv (r1, adj1)). by apply get_Some_elem_of.
Qed.

Lemma add_adjacencies_fold n rs : forall rs0 A,
  let A' := fold_left (fun A r1 => add A r1 n rs) rs0 A in
  (forall r1 r2 n',
     adjacent A' r1 r2 n'
     <-> adjacent A r1 r2 n'
         \/ (r1 ∈ rs0 /\ n' = n /\ r2 ∈ rs /\ r2 ≠ r1 /\ typology r1 ≠ typology r2))
  /\ (forall r, is_Some (Py.get A' r) <-> is_Some (Py.get A r) \/ r ∈ rs0)
  /\ (Forall (fun e => nonempty_values e.2) A ->
      Forall (fun e => nonempty_values e.2) A').
Proof.
  induction rs0 as [|r0 rs0 IH]; intros A; simpl.
  - split; [|split; [|done]].
    + intros r1 r2 n'. split; [by left|]. intros [?|(?%elem_of_nil & _)]; done.
    + intros r. split; [by left|]. intros [?|?%elem_of_nil]; done.
  - destruct (IH (add A r0 n rs)) as (Hadj & Hkey & Hne). split; [|split].
    + intros r1 r2 n'. rewrite Hadj, add_adjacencies_adjacent, elem_of_cons. split.
      * intros [[?|(-> & ?)]|(? & ?)]; [by left| |].
        -- right. split; [by left|done].
        -- right. split; [by right|done].
      * intros [?|([->|?] & ?)]; [by left; left| |by right].
        left. right. done.
    + intros r. rewrite Hkey, add_adjacencies_key, elem_of_cons. tauto.
    + intros Hinv. by apply Hne, add_adjacencies_nonempty.
Qed.

Lemma build_adjacencies_fold : forall rbn A,
  let A' := fold_left
              (fun adjacencies '(n, rs) =>
                 fold_left (fun adjacencies r1 => add adjacencies r1 n rs)
                           rs adjacencies) rbn A in
  (forall r1 r2 n,
     adjacent A' r1 r2 n
     <-> adjacent A r1 r2 n
         \/ (exists rs, (n, rs) ∈ rbn /\ r1 ∈ rs /\ r2 ∈ rs
                        /\ r2 ≠ r1 /\ typology r1 ≠ typology r2))
  /\ (forall r, is_Some (Py.get A' r)
                <-> is_Some (Py.get A r) \/ exists n rs, (n, rs) ∈ rbn /\ r ∈ rs)
  /\ (Forall (fun e => nonempty_values e.2) A ->
      Forall (fun e => nonempty_values e.2) A').
Proof.
  induction rbn as [|[n0 rs0] rbn IH]; intros A; simpl.
  - split; [|split; [|done]].
    + intros r1 r2 n. split; [by left|]. intros [?|(? & ?%elem_of_nil & _)]; done.
    + intros r. split; [by left|]. intros [?|(? & ? & ?%elem_of_nil & _)]; done.
  - destruct (IH (fold_left (fun adjacencies r1 => add adjacencies r1 n0 rs0) rs0 A))
      as (Hadj & Hkey & Hne).
    destruct (add_adjacencies_fold n0 rs0 rs0 A) as (Hadj0 & Hkey0 & Hne0).
    split; [|split].
    + intros r1 r2 n. rewrite Hadj, Hadj0. split.
      * intros [[?|(? & -> & ?)]|(rs & Hin & ?)]; [by left| |].
        -- right. exists rs0. split; [apply list_elem_of_here|done].
        -- right. exists rs. split; [by apply list_elem_of_further|done].
      * intros [?|(rs & Hin & ? & ?)]; [by left; left|].
        apply elem_of_cons in Hin as [[= -> ->]|Hin].
        -- left. right. done.
        -- right. by exists rs.
    + intros r. rewrite Hkey, Hkey0. split.
      * intros [[?|?]|(n & rs & Hin & ?)]; [by left| |].
        -- right. exists n0, rs0. split; [apply list_elem_of_here|done].
        -- right. exists n, rs. split; [by apply list_elem_of_further|done].
      * intros [?|(n & rs & Hin & ?)]; [by left; left|].
        apply elem_of_cons in Hin as [[= -> ->]|Hin].
        -- left. by right.
        -- right. by exists n, rs.
    + intros Hinv. by apply Hne, Hne0.
Qed.

Lemma build_adjacencies_spec rbn :
  NoDup rbn.*1 ->
  (forall r1 r2 n,
     adjacent (build rbn) r1 r2 n
     <-> indexed rbn n r1 /\ indexed rbn n r2
         /\ r2 ≠ r1 /\ typology r1 ≠ typology r2)
  /\ (forall r, is_Some (Py.get (build rbn) r) <-> exists n, indexed rbn n r)
  /\ Forall (fun e => nonempty_values e.2) (build rbn).
Proof.
  intros Hnd. unfold CrossroadConnections.build_adjacencies.
  destruct (build_adjacencies_fold rbn []) as (Hadj & Hkey & Hne).
  split; [|split; [|by apply Hne; constructor]].
  - intros r1 r2 n. rewrite Hadj. unfold indexed. split.
    + intros [(? & ? & ?)|(rs & Hin & ? & ? & ?)]; [done|].
      apply elem_of_get in Hin; [|done].
      split; [by exists rs|]. split; [by exists rs|]. done.
    + intros ((rs & Hg & ?) & (rs' & Hg' & ?) & ?). right.
      rewrite Hg in Hg'. injection Hg' as <-. exists rs.
      split; [by apply get_Some_elem_of|done].
  - intros r. rewrite Hkey. unfold indexed. split.
    + intros [[? ?]|(n & rs & Hin & ?)]; [done|].
      exists n, rs. split; [by apply elem_of_get|done].
    + intros (n & rs & Hg & ?). right. exists n, rs.
      split; [by apply get_Some_elem_of|done].
Qed.
End AdjacencyFacts.

Section InitFacts.
Variable regions : list (Z * CrossroadConnections.region).
Variable threshold : float.

Lemma init_index s :
  CrossroadConnections.init regions threshold = Ok s ->
  NoDup (CrossroadConnections.regionsByNode s).*1
  /\ forall n rid,
       indexed (CrossroadConnections.regionsByNode s) n rid
       <-> exists r, Py.get regions rid = Some r /\ n ∈ CrossroadConnections.nodes r.
Proof.
  intros Hinit. apply init_connected in Hinit as (_ & _ & _ & Hidx & _).
  apply index_nodes_indexed in Hidx as [Hiff Hnd].
  split; [apply Hnd; constructor|].
  intros n rid. rewrite Hiff. split.
  - intros [(rs & ? & _)|(_ & ?)]; done.
  - intros (r & Hr & Hn). right. split; [by eapply get_key|]. by exists r.
Qed.

Lemma init_kinds s :
  CrossroadConnections.init regions threshold = Ok s ->
  (forall rid,
     rid ∈ CrossroadConnections.crossroads s
     <-> exists r, Py.get regions rid = Some r
                   /\ CrossroadConnections.is_crossroad r = true)
  /\ (forall rid,
        rid ∈ CrossroadConnections.links s
        <-> exists r, Py.get regions rid = Some r
                      /\ CrossroadConnections.is_crossroad r = false
                      /\ CrossroadConnections.is_link r = true).
Proof.
  intros Hinit. apply init_connected in Hinit as (_ & _ & Hcl & _).
  apply classify_members in Hcl as [Hcrs Hlks].
  split; intros rid; [rewrite Hcrs | rewrite Hlks]; split.
  - intros [?%elem_of_nil|(_ & ?)]; done.
  - intros (r & Hr & ?). right. split; [by eapply get_key|]. by exists r.
  - intros [?%elem_of_nil|(_ & ?)]; done.
  - intros (r & Hr & ?). right. split; [by eapply get_key|]. by exists r.
Qed.

Lemma init_adjacent s :
  CrossroadConnections.init regions threshold = Ok s ->
  (forall r1 r2 n,
     adjacent (CrossroadConnections.adjacencies s) r1 r2 n
     <-> indexed (CrossroadConnections.regionsByNode s) n r1
         /\ indexed (CrossroadConnections.regionsByNode s) n r2
         /\ r2 ≠ r1
         /\ CrossroadConnections.get_typology (CrossroadConnections.crossroads s)
              (CrossroadConnections.links s) r1
            ≠ CrossroadConnections.get_typology (CrossroadConnections.crossroads s)
                (CrossroadConnections.links s) r2)
  /\ (forall r, is_Some (Py.get (CrossroadConnections.adjacencies s) r)
                <-> exists n, indexed (CrossroadConnections.regionsByNode s) n r)
  /\ Forall (fun e => nonempty_values e.2) (CrossroadConnections.adjacencies s).
Proof.
  intros Hinit. pose proof (init_index s Hinit) as [Hnd _].
  apply init_connected in Hinit as (_ & _ & _ & _ & -> & _).
  by apply build_adjacencies_spec.
Qed.
End InitFacts.

(** X17. After the constructor of [CrossroadConnections],
    [regionsByNode[n]] contains the id [rid] exactly when [n] is a node
    of the region [regions[rid]]. *)
Theorem nodes_index_round_trip regions threshold s n rid :
  CrossroadConnections.init regions threshold = Ok s ->
  indexed (CrossroadConnections.regionsByNode s) n rid
  <-> exists r, Py.get regions rid = Some r /\ n ∈ CrossroadConnections.nodes r.
Proof. intros Hinit. by apply (init_index _ _ s Hinit). Qed.

Lemma nodes_index_round_trip_witness :
  indexed (CrossroadConnections.regionsByNode Example.triangle_state) 2 0
  <-> exists r, Py.get Example.triangle_regions 0 = Some r
                /\ 2 ∈ CrossroadConnections.nodes r.
Proof.
  apply (nodes_index_round_trip Example.triangle_regions 2 Example.triangle_state 2 0).
  vm_compute. reflexivity.
Defined.

(** X18. After the constructor, [n] is in [adjacencies[r1][r2]]
    exactly when [r1] and [r2] are two different regions of different
    typologies that both have the node [n]; so the adjacency is
    symmetric. *)
Theorem adjacency_through_shared_nodes regions threshold s r1 r2 n :
  CrossroadConnections.init regions threshold = Ok s ->
  (adjacent (CrossroadConnections.adjacencies s) r1 r2 n
   <-> r1 ≠ r2
       /\ CrossroadConnections.get_typology (CrossroadConnections.crossroads s)
            (CrossroadConnections.links s) r1
          ≠ CrossroadConnections.get_typology (CrossroadConnections.crossroads s)
              (CrossroadConnections.links s) r2
       /\ (exists ra, Py.get regions r1 = Some ra /\ n ∈ CrossroadConnections.nodes ra)
       /\ (exists rb, Py.get regions r2 = Some rb /\ n ∈ CrossroadConnections.nodes rb))
  /\ (adjacent (CrossroadConnections.adjacencies s) r1 r2 n
      <-> adjacent (CrossroadConnections.adjacencies s) r2 r1 n).
Proof.
  intros Hinit.
  pose proof (init_index _ _ s Hinit) as [_ Hidx].
  pose proof (init_adjacent _ _ s Hinit) as (Hadj & _ & _).
  split.
  - rewrite Hadj, !Hidx. split.
    + intros (? & ? & ? & ?). by repeat split.
    + intros (? & ? & ? & ?). by repeat split.
  - rewrite !Hadj. split; intros (? & ? & ? & ?); by repeat split.
Qed.

Lemma adjacency_through_shared_nodes_witness :
  adjacent (CrossroadConnections.adjacencies Example.triangle_state) 0 3 2
  <-> adjacent (CrossroadConnections.adjacencies Example.triangle_state) 3 0 2.
Proof.
  apply (adjacency_through_shared_nodes Example.triangle_regions 2
           Example.triangle_state 0 3 2).
  vm_compute. reflexivity.
Defined.

Section Totality.
Variable regions : list (Z * CrossroadConnections.region).
Variable threshold : float.
Variable regionsByNode : list (node * list Z).
Variable adjacencies : list (Z * list (Z * list node)).

Local Abbreviation shared := (CrossroadConnections.nodes_shared_with regionsByNode).
Local Abbreviation path_in_link :=
  (CrossroadConnections.get_path_in_link regions regionsByNode).
Local Abbreviation of_link :=
  (CrossroadConnections.connections_of_link regions threshold regionsByNode).
Local Abbreviation of_crossroad :=
  (CrossroadConnections.connections_of_crossroad regions threshold regionsByNode adjacencies).
Local Abbreviation initial_loop :=
  (CrossroadConnections.compute_initial_connections_loop regions threshold
     regionsByNode adjacencies).

(** The only exception of the connection builder is [KeyError]. *)
Lemma nodes_shared_with_raises cr : forall ns e,
  shared cr ns = Raise e -> e = KeyError.
Proof.
  induction ns as [|n ns IH]; intros e; simpl; [discriminate|].
  unfold Py.getitem. destruct (Py.get regionsByNode n); py_step; [|by intros [= <-]].
  destruct (shared cr ns) as [rest|e']; py_step; [discriminate|].
  intros [= <-]. by apply IH.
Qed.

Lemma get_path_in_link_raises l cr1 cr2 e :
  path_in_link l cr1 cr2 = Raise e -> e = KeyError.
Proof.
  unfold CrossroadConnections.get_path_in_link, Py.getitem.
  destruct (Py.get regions l) as [rl|]; py_step; [|by intros [= <-]].
  destruct (shared cr1 _) as [cr1n|e1] eqn:H1; py_step;
    [|intros [= <-]; by eapply nodes_shared_with_raises].
  destruct (shared cr2 _) as [cr2n|e2] eqn:H2; py_step; [discriminate|].
  intros [= <-]. by eapply nodes_shared_with_raises.
Qed.

Lemma connections_of_link_raises cr l : forall cr2s acc e,
  of_link cr l cr2s acc = Raise e -> e = KeyError.
Proof.
  induction cr2s as [|cr2 cr2s IH]; intros acc e; simpl; [discriminate|].
  unfold Py.getitem at 1 2.
  destruct (Py.get regions cr) as [r|]; py_step; [|by intros [= <-]].
  destruct (Py.get regions cr2) as [r2|]; py_step; [|by intros [= <-]].
  destruct (_ <? _); [|by apply IH].
  destruct (path_in_link l cr cr2) as [[path d]|e'] eqn:Hp; py_step;
    [|intros [= <-]; by eapply get_path_in_link_raises].
  destruct (PrimFloat.ltb _ _); by apply IH.
Qed.

Lemma connections_of_crossroad_raises cr : forall ls acc e,
  of_crossroad cr ls acc = Raise e -> e = KeyError.
Proof.
  induction ls as [|l ls IH]; intros acc e; simpl; [discriminate|].
  unfold Py.getitem.
  destruct (Py.get adjacencies l) as [adjl|]; py_step; [|by intros [= <-]].
  destruct (of_link cr l adjl.*1 acc) as [acc1|e'] eqn:Hl; py_step; [by apply IH|].
  intros [= <-]. by eapply connections_of_link_raises.
Qed.

Lemma initial_loop_missing_key cr : forall crs acc,
  cr ∈ crs -> Py.get adjacencies cr = None ->
  initial_loop crs acc = Raise KeyError.
Proof.
  induction crs as [|cr0 crs IH]; intros acc Hin Hnone; [by apply elem_of_nil in Hin|].
  simpl. unfold Py.getitem.
  destruct (Py.get adjacencies cr0) as [adjcr|] eqn:Hg; py_step; [|done].
  apply elem_of_cons in Hin as [->|Hin]; [congruence|].
  destruct (of_crossroad cr0 adjcr.*1 acc) as [acc1|e] eqn:Hc; py_step; [by apply IH|].
  f_equal. by eapply connections_of_crossroad_raises.
Qed.

(** Every region met by the loops is known. *)
Hypothesis adjacent_known : forall r adj1 r2,
  Py.get adjacencies r = Some adj1 -> r2 ∈ adj1.*1 ->
  is_Some (Py.get adjacencies r2) /\ is_Some (Py.get regions r2).
Hypothesis nodes_indexed : forall rid r n,
  Py.get regions rid = Some r -> n ∈ CrossroadConnections.nodes r ->
  is_Some (Py.get regionsByNode n).

Lemma nodes_shared_with_total cr : forall ns,
  Forall (fun n => is_Some (Py.get regionsByNode n)) ns ->
  exists l, shared cr ns = Ok l.
Proof.
  induction ns as [|n ns IH]; intros Hns; simpl; [by eexists|].
  apply Forall_cons in Hns as [[rs Hrs] Hns].
  unfold Py.getitem. rewrite Hrs. py_step.
  destruct (IH Hns) as [rest ->]. py_step. by eexists.
Qed.

Lemma get_path_in_link_total l cr1 cr2 :
  is_Some (Py.get regions l) -> exists p, path_in_link l cr1 cr2 = Ok p.
Proof.
  intros [rl Hrl]. unfold CrossroadConnections.get_path_in_link, Py.getitem.
  rewrite Hrl. py_step.
  assert (Forall (fun n => is_Some (Py.get regionsByNode n))
                 (CrossroadConnections.nodes rl)) as Hns.
  { apply Forall_forall. intros n Hn. by eapply nodes_indexed. }
  destruct (nodes_shared_with_total cr1 _ Hns) as [l1 ->]. py_step.
  destruct (nodes_shared_with_total cr2 _ Hns) as [l2 ->]. py_step. by eexists.
Qed.

Lemma connections_of_link_total cr l : forall cr2s acc,
  is_Some (Py.get regions cr) -> is_Some (Py.get regions l) ->
  Forall (fun cr2 => is_Some (Py.get regions cr2)) cr2s ->
  exists acc', of_link cr l cr2s acc = Ok acc'.
Proof.
  intros cr2s acc [r Hr] Hl. revert acc.
  induction cr2s as [|cr2 cr2s IH]; intros acc Hall; simpl; [by eexists|].
  apply Forall_cons in Hall as [[r2 Hr2] Hall].
  unfold Py.getitem at 1 2. rewrite Hr, Hr2. py_step.
  destruct (_ <? _); [|by apply IH].
  destruct (get_path_in_link_total l cr cr2 Hl) as [[path d] ->]. py_step.
  destruct (PrimFloat.ltb _ _); by apply IH.
Qed.

Lemma connections_of_crossroad_total cr : forall ls acc,
  is_Some (Py.get regions cr) ->
  Forall (fun l => is_Some (Py.get adjacencies l) /\ is_Some (Py.get regions l)) ls ->
  exists acc', of_crossroad cr ls acc = Ok acc'.
Proof.
  intros ls acc Hcr. revert acc.
  induction ls as [|l ls IH]; intros acc Hall; simpl; [by eexists|].
  apply Forall_cons in Hall as [[[adjl Hadjl] Hl] Hall].
  unfold Py.getitem. rewrite Hadjl. py_step.
  destruct (connections_of_link_total cr l adjl.*1 acc Hcr Hl) as [acc1 ->].
  { apply Forall_forall. intros cr2 Hcr2. by eapply adjacent_known. }
  py_step. by apply IH.
Qed.

Lemma initial_loop_total : forall crs acc,
  Forall (fun cr => is_Some (Py.get adjacencies cr) /\ is_Some (Py.get regions cr)) crs ->
  exists acc', initial_loop crs acc = Ok acc'.
Proof.
  induction crs as [|cr crs IH]; intros acc Hall; simpl; [by eexists|].
  apply Forall_cons in Hall as [[[adjcr Hadj] Hcr] Hall].
  unfold Py.getitem. rewrite Hadj. py_step.
  destruct (connections_of_crossroad_total cr adjcr.*1 acc Hcr) as [acc1 ->].
  { apply Forall_forall. intros l Hl. by eapply adjacent_known. }
  py_step. by apply IH.
Qed.
End Totality.

Section InitRuns.
Variable regions : list (Z * CrossroadConnections.region).
Variable threshold : float.

(** The first steps of the constructor never fail: the kinds, the index
    of the nodes and the adjacencies, with what they hold. *)
Lemma init_structure_steps :
  exists crs lks rbn,
    CrossroadConnections.classify regions regions.*1 [] [] = Ok (crs, lks)
    /\ CrossroadConnections.index_nodes regions regions.*1 [] = Ok rbn
    /\ (forall rid,
          rid ∈ crs <-> exists r, Py.get regions rid = Some r
                                  /\ CrossroadConnections.is_crossroad r = true)
    /\ (forall n rid,
          indexed rbn n rid
          <-> exists r, Py.get regions rid = Some r
                        /\ n ∈ CrossroadConnections.nodes r)
    /\ (forall r, is_Some (Py.get (CrossroadConnections.build_adjacencies crs lks rbn) r)
                  <-> exists n, indexed rbn n r)
    /\ (forall r adj1 r2,
          Py.get (CrossroadConnections.build_adjacencies crs lks rbn) r = Some adj1 ->
          r2 ∈ adj1.*1 ->
          exists n, adjacent (CrossroadConnections.build_adjacencies crs lks rbn) r r2 n
                    /\ indexed rbn n r /\ indexed rbn n r2).
Proof.
  assert (Forall (fun rid => rid ∈ regions.*1) regions.*1) as Hkeys
    by (by apply Forall_forall).
  destruct (classify_total regions regions.*1 [] [] Hkeys) as (crs & lks & Hcl).
  destruct (index_nodes_total regions regions.*1 [] Hkeys) as (rbn & Hidx).
  exists crs, lks, rbn. split; [done|]. split; [done|].
  apply classify_members in Hcl as [Hcrs _].
  apply index_nodes_indexed in Hidx as [Hiff Hnd].
  specialize (Hnd (NoDup_nil_2)).
  destruct (build_adjacencies_spec crs lks rbn Hnd) as (Hadj & Hkey & Hne).
  split; [|split; [|split; [done|]]].
  - intros rid. rewrite Hcrs. split.
    + intros [?%elem_of_nil|(_ & ?)]; done.
    + intros (r & Hr & ?). right. split; [by eapply get_key|]. by exists r.
  - intros n rid. rewrite Hiff. split.
    + intros [(rs & ? & _)|(_ & ?)]; done.
    + intros (r & Hr & Hn). right. split; [by eapply get_key|]. by exists r.
  - intros r adj1 r2 Hg Hr2.
    destruct (key_get _ _ Hr2) as [ns Hns].
    assert (ns ≠ []) as Hnonempty.
    { rewrite Forall_forall in Hne.
      pose proof (Hne (r, adj1) (get_Some_elem_of _ _ _ Hg)) as Hadj1.
      unfold nonempty_values in Hadj1. rewrite Forall_forall in Hadj1.
      apply (Hadj1 (r2, ns)). by apply get_Some_elem_of. }
    destruct ns as [|n ns]; [done|].
    assert (adjacent (CrossroadConnections.build_adjacencies crs lks rbn) r r2 n) as Ha.
    { exists adj1. split; [done|]. exists (n :: ns). split; [done|].
      apply list_elem_of_here. }
    exists n. split; [done|]. by apply Hadj in Ha as (? & ? & _).
Qed.
End InitRuns.

(** X19. When every crossroad region has at least one node, the
    constructor of [CrossroadConnections] raises no exception: every
    look-up it makes in [regions], [regionsByNode] and [adjacencies]
    finds its key (the methods of the regions are total functions
    here). *)
Theorem init_succeeds regions threshold :
  (forall rid r,
     Py.get regions rid = Some r ->
     CrossroadConnections.is_crossroad r = true ->
     CrossroadConnections.nodes r ≠ []) ->
  exists s, CrossroadConnections.init regions threshold = Ok s.
Proof.
  intros Hnodes.
  destruct (init_structure_steps regions)
    as (crs & lks & rbn & Hcl & Hidx & Hcrs & Hiff & Hkey & Hlinked).
  unfold CrossroadConnections.init. rewrite Hcl. py_step. rewrite Hidx. py_step.
  unfold CrossroadConnections.compute_connected_crossroads,
    CrossroadConnections.compute_initial_connections.
  destruct (initial_loop_total regions threshold rbn
              (CrossroadConnections.build_adjacencies crs lks rbn)) with (crs := crs)
    (acc := @nil (Z * Z * CrossroadConnections.evidence)) as [initial ->].
  - intros r adj1 r2 Hg Hr2.
    destruct (Hlinked r adj1 r2 Hg Hr2) as (n & _ & _ & Hn2).
    split; [apply Hkey; by exists n|].
    apply Hiff in Hn2 as (rb & -> & _). by eexists.
  - intros rid r n Hr Hn.
    assert (indexed rbn n rid) as (rs & -> & _) by (apply Hiff; by exists r).
    by eexists.
  - apply Forall_forall. intros cr Hcr. apply Hcrs in Hcr as (r & Hr & Hc).
    split; [|by eexists]. apply Hkey.
    pose proof (Hnodes cr r Hr Hc) as Hne.
    destruct (CrossroadConnections.nodes r) as [|n ns] eqn:Hns; [done|].
    exists n. apply Hiff. exists r. split; [done|]. rewrite Hns. apply list_elem_of_here.
  - py_step. by eexists.
Qed.

Lemma init_succeeds_witness :
  exists s, CrossroadConnections.init (Example.pair_regions 15) 2 = Ok s.
Proof.
  apply (init_succeeds (Example.pair_regions 15) 2).
  intros rid r Hget Hc. unfold Example.pair_regions in Hget. cbn [Py.get] in Hget.
  repeat case_decide; simplify_eq; done.
Defined.

(** X20. When a crossroad region has no node, the constructor of
    [CrossroadConnections] raises [KeyError]: the region has no entry
    in [adjacencies], which [compute_initial_connections] reads. *)
Theorem init_raises_on_empty_crossroad regions threshold rid r :
  Py.get regions rid = Some r ->
  CrossroadConnections.is_crossroad r = true ->
  CrossroadConnections.nodes r = [] ->
  CrossroadConnections.init regions threshold = Raise KeyError.
Proof.
  intros Hr Hc Hempty.
  destruct (init_structure_steps regions)
    as (crs & lks & rbn & Hcl & Hidx & Hcrs & Hiff & Hkey & _).
  unfold CrossroadConnections.init. rewrite Hcl. py_step. rewrite Hidx. py_step.
  unfold CrossroadConnections.compute_connected_crossroads,
    CrossroadConnections.compute_initial_connections.
  rewrite (initial_loop_missing_key regions threshold rbn _ rid); [done| |].
  - apply Hcrs. by exists r.
  - destruct (Py.get (CrossroadConnections.build_adjacencies crs lks rbn) rid)
      as [adj1|] eqn:Hg; [|done]. exfalso.
    assert (is_Some (Py.get (CrossroadConnections.build_adjacencies crs lks rbn) rid))
      as Hsome by (rewrite Hg; by eexists).
    apply Hkey in Hsome as (n & Hn). apply Hiff in Hn as (r' & Hr' & Hn).
    rewrite Hr in Hr'. injection Hr' as <-. rewrite Hempty in Hn.
    by apply elem_of_nil in Hn.
Qed.

Lemma init_raises_on_empty_crossroad_witness :
  CrossroadConnections.init [(0, Example.crossroad_region 0 [] 10)] 2
  = Raise KeyError.
Proof.
  apply (init_raises_on_empty_crossroad [(0, Example.crossroad_region 0 [] 10)] 2
           0 (Example.crossroad_region 0 [] 10)); reflexivity.
Defined.

Section Candidates.
Variable regions : list (Z * CrossroadConnections.region).
Variable threshold : float.
Variable regionsByNode : list (node * list Z).
Variable adjacencies : list (Z * list (Z * list node)).
Variable crossroads : list Z.

Local Abbreviation of_link :=
  (CrossroadConnections.connections_of_link regions threshold regionsByNode).
Local Abbreviation of_crossroad :=
  (CrossroadConnections.connections_of_crossroad regions threshold regionsByNode adjacencies).
Local Abbreviation initial_loop :=
  (CrossroadConnections.compute_initial_connections_loop regions threshold
     regionsByNode adjacencies).
Local Abbreviation candidate :=
  (candidate regions threshold regionsByNode adjacencies crossroads).

Lemma connections_of_link_candidates cr l : forall cr2s acc acc',
  cr ∈ crossroads -> linked adjacencies cr l ->
  Forall (linked adjacencies l) cr2s ->
  Forall candidate acc ->
  of_link cr l cr2s acc = Ok acc' ->
  Forall candidate acc'.
Proof.
  intros cr2s acc acc' Hcr Hl. revert acc acc'.
  induction cr2s as [|cr2 cr2s IH]; intros acc acc' Hall Hacc; simpl.
  - by intros [= <-].
  - apply Forall_cons in Hall as [Hcr2 Hall].
    destruct (Py.getitem regions cr) as [r|] eqn:Hr; py_step; [|discriminate].
    destruct (Py.getitem regions cr2) as [r2|] eqn:Hr2; py_step; [|discriminate].
    destruct (_ <? _); [|by apply IH].
    destruct (CrossroadConnections.get_path_in_link _ _ _ _ _)
      as [[path d]|] eqn:Hp; py_step; [|discriminate].
    destruct (PrimFloat.ltb _ _) eqn:Hd; [|by apply IH].
    apply IH; [done|]. apply Forall_app. split; [done|].
    constructor; [|constructor]. split; [done|]. split; [done|]. split; [done|].
    exists r, r2, d. simpl. by rewrite <- !getitem_Ok.
Qed.

Lemma connections_of_crossroad_candidates cr : forall ls acc acc',
  cr ∈ crossroads ->
  Forall (linked adjacencies cr) ls ->
  Forall candidate acc ->
  of_crossroad cr ls acc = Ok acc' ->
  Forall candidate acc'.
Proof.
  intros ls acc acc' Hcr. revert acc acc'.
  induction ls as [|l ls IH]; intros acc acc' Hall Hacc; simpl.
  - by intros [= <-].
  - apply Forall_cons in Hall as [Hl Hall].
    destruct (Py.getitem adjacencies l) as [adjl|] eqn:Hg; py_step; [|discriminate].
    apply getitem_Ok in Hg.
    destruct (of_link cr l adjl.*1 acc) as [acc1|] eqn:Hrun; py_step; [|discriminate].
    apply IH; [done|].
    eapply connections_of_link_candidates; [done|done| |done|exact Hrun].
    apply Forall_forall. intros cr2 Hcr2. by exists adjl.
Qed.

Lemma initial_loop_candidates : forall crs acc acc',
  Forall (fun cr => cr ∈ crossroads) crs ->
  Forall candidate acc ->
  initial_loop crs acc = Ok acc' ->
  Forall candidate acc'.
Proof.
  induction crs as [|cr crs IH]; intros acc acc' Hall Hacc; simpl.
  - by intros [= <-].
  - apply Forall_cons in Hall as [Hcr Hall].
    destruct (Py.getitem adjacencies cr) as [adjcr|] eqn:Hg; py_step; [|discriminate].
    apply getitem_Ok in Hg.
    destruct (of_crossroad cr adjcr.*1 acc) as [acc1|] eqn:Hrun; py_step; [|discriminate].
    apply IH; [done|].
    eapply connections_of_crossroad_candidates; [done| |done|exact Hrun].
    apply Forall_forall. intros l Hl. by exists adjcr.
Qed.

Lemma connected_crossroads_candidates connected a b evs :
  CrossroadConnections.compute_connected_crossroads regions threshold
    regionsByNode adjacencies crossroads = Ok connected ->
  (a, b, evs) ∈ connected ->
  evs ≠ []
  /\ forall path l, (path, l) ∈ evs -> candidate (a, b, (path, l)).
Proof.
  intros Hrun Hin.
  pose proof (compute_connected_crossroads_ordered _ _ _ _ _ _ Hrun) as [_ Hnd].
  revert Hrun Hin Hnd.
  unfold CrossroadConnections.compute_connected_crossroads,
    CrossroadConnections.compute_initial_connections.
  destruct (initial_loop crossroads []) as [initial|] eqn:Hi; py_step; [|discriminate].
  intros [= <-]. rewrite connections_fmap_id. intros Hin Hnd.
  apply (elem_of_get _ _ _ Hnd) in Hin. rewrite merge_connection_get in Hin.
  simpl in Hin.
  assert (evs = snd <$> of_pair (a, b) initial /\ evs ≠ []) as [-> Hne].
  { destruct (snd <$> of_pair (a, b) initial); [discriminate|].
    by injection Hin as <-. }
  split; [done|]. intros path l Hev.
  apply list_elem_of_fmap in Hev as ([[a' b'] e] & He & Hc). simpl in He. subst e.
  apply list_elem_of_In, filter_In in Hc as [Hc Hk].
  apply bool_decide_eq_true in Hk. simpl in Hk. injection Hk as -> ->.
  apply initial_loop_candidates in Hi; [|by apply Forall_forall|constructor].
  rewrite Forall_forall in Hi. apply Hi. by apply list_elem_of_In.
Qed.
End Candidates.

Lemma init_linked regions threshold s r1 r2 :
  CrossroadConnections.init regions threshold = Ok s ->
  linked (CrossroadConnections.adjacencies s) r1 r2 ->
  exists n, adjacent (CrossroadConnections.adjacencies s) r1 r2 n.
Proof.
  intros Hinit (adj1 & Hg & Hr2).
  pose proof (init_adjacent _ _ s Hinit) as (_ & _ & Hne).
  destruct (key_get _ _ Hr2) as [ns Hns].
  rewrite Forall_forall in Hne.
  pose proof (Hne (r1, adj1) (get_Some_elem_of _ _ _ Hg)) as Hadj1.
  unfold nonempty_values in Hadj1. rewrite Forall_forall in Hadj1.
  pose proof (Hadj1 (r2, ns) (get_Some_elem_of _ _ _ Hns)) as Hnonempty.
  destruct ns as [|n ns]; [done|].
  exists n, adj1. split; [done|]. exists (n :: ns). split; [done|].
  apply list_elem_of_here.
Qed.

Lemma connection_evidence regions threshold s a b evs :
  CrossroadConnections.init regions threshold = Ok s ->
  (a, b, evs) ∈ CrossroadConnections.connected_crossroads s ->
  evs ≠ []
  /\ a ∈ CrossroadConnections.crossroads s
  /\ forall path l,
       (path, l) ∈ evs ->
       (exists n, adjacent (CrossroadConnections.adjacencies s) a l n)
       /\ (exists n, adjacent (CrossroadConnections.adjacencies s) l b n)
       /\ short_path regions threshold (CrossroadConnections.regionsByNode s)
            a b path l.
Proof.
  intros Hinit Hin.
  pose proof (init_connected _ _ _ Hinit) as (_ & _ & _ & _ & _ & Hconn).
  destruct (connected_crossroads_candidates _ _ _ _ _ _ _ _ _ Hconn Hin)
    as [Hne Hcand].
  split; [done|]. split.
  - destruct evs as [|[path l] evs]; [done|].
    by destruct (Hcand path l (list_elem_of_here _ _)) as (? & _).
  - intros path l Hev. destruct (Hcand path l Hev) as (_ & Hal & Hlb & Hshort).
    simpl in *. split; [by eapply init_linked|]. split; [by eapply init_linked|done].
Qed.

(** X21. Every stored connection [(a, b, evidence)] starts at a
    crossroad [a] and has at least one piece of evidence; each piece
    [(path, l)] comes from a region [l] that shares a node with [a] and
    a node with [b], and [path] is the path [get_path_in_link(l, a, b)]
    gives, of a length below the float product
    [max(max_branch_width) * connection_threshold]. *)
Theorem stored_connection_evidence regions threshold s a b evs :
  CrossroadConnections.init regions threshold = Ok s ->
  (a, b, evs) ∈ CrossroadConnections.connected_crossroads s ->
  evs ≠ []
  /\ a ∈ CrossroadConnections.crossroads s
  /\ forall path l,
       (path, l) ∈ evs ->
       (exists n, adjacent (CrossroadConnections.adjacencies s) a l n)
       /\ (exists n, adjacent (CrossroadConnections.adjacencies s) l b n)
       /\ short_path regions threshold (CrossroadConnections.regionsByNode s)
            a b path l.
Proof. apply connection_evidence. Qed.

Lemma stored_connection_evidence_witness :
  [([2; 3], 3)] ≠ []
  /\ 0 ∈ CrossroadConnections.crossroads Example.triangle_state
  /\ forall path l,
       (path, l) ∈ [([2; 3], 3)] ->
       (exists n, adjacent (CrossroadConnections.adjacencies Example.triangle_state) 0 l n)
       /\ (exists n, adjacent (CrossroadConnections.adjacencies Example.triangle_state) l 1 n)
       /\ short_path Example.triangle_regions 2
            (CrossroadConnections.regionsByNode Example.triangle_state) 0 1 path l.
Proof.
  apply (stored_connection_evidence Example.triangle_regions 2 Example.triangle_state
           0 1 [([2; 3], 3)]).
  - vm_compute. reflexivity.
  - apply list_elem_of_further, list_elem_of_here.
Defined.


Lemma get_typology_crossroad crossroads links r :
  CrossroadConnections.get_typology crossroads links r
  = CrossroadConnections.typology_crossroad <-> r ∈ crossroads.
Proof.
  unfold CrossroadConnections.get_typology, Py.mem.
  destruct (decide (r ∈ crossroads)) as [Hin|Hnin].
  - by rewrite bool_decide_eq_true_2.
  - rewrite bool_decide_eq_false_2 by done.
    split; [|done]. by destruct (bool_decide (r ∈ links)).
Qed.

Lemma get_typology_link crossroads links r :
  CrossroadConnections.get_typology crossroads links r
  = CrossroadConnections.typology_link <-> ((r ∉ crossroads) /\ r ∈ links).
Proof.
  unfold CrossroadConnections.get_typology, Py.mem.
  destruct (decide (r ∈ crossroads)) as [Hin|Hnin].
  - rewrite bool_decide_eq_true_2 by done. split; [done|]. by intros [? _].
  - rewrite bool_decide_eq_false_2 by done.
    destruct (decide (r ∈ links)) as [Hl|Hl].
    + by rewrite bool_decide_eq_true_2.
    + rewrite bool_decide_eq_false_2 by done. split; [done|]. by intros [_ ?].
Qed.

(** X22. When every region is a crossroad or a link, both ends of
    every stored connection are crossroads and every piece of its
    evidence comes from a link. *)
Theorem connections_join_crossroads_through_links regions threshold s a b evs :
  CrossroadConnections.init regions threshold = Ok s ->
  Forall (fun e => (CrossroadConnections.is_crossroad e.2
                    || CrossroadConnections.is_link e.2) = true) regions ->
  (a, b, evs) ∈ CrossroadConnections.connected_crossroads s ->
  a ∈ CrossroadConnections.crossroads s
  /\ b ∈ CrossroadConnections.crossroads s
  /\ Forall (fun e => e.2 ∈ CrossroadConnections.links s
                      /\ e.2 ∉ CrossroadConnections.crossroads s) evs.
Proof.
  intros Hinit Hkinds Hin.
  destruct (connection_evidence _ _ _ _ _ _ Hinit Hin) as (Hne & Ha & Hev).
  pose proof (init_index _ _ s Hinit) as [_ Hidx].
  pose proof (init_kinds _ _ s Hinit) as [Hcrs Hlks].
  pose proof (init_adjacent _ _ s Hinit) as (Hadj & _ & _).
  assert (forall r n, indexed (CrossroadConnections.regionsByNode s) n r ->
            r ∈ CrossroadConnections.crossroads s
            \/ ((r ∉ CrossroadConnections.crossroads s)
                /\ r ∈ CrossroadConnections.links s)) as Hkind.
  { intros r n Hr. apply Hidx in Hr as (rr & Hrr & _).
    rewrite Forall_forall in Hkinds.
    pose proof (Hkinds (r, rr) (get_Some_elem_of _ _ _ Hrr)) as Hk. simpl in Hk.
    destruct (CrossroadConnections.is_crossroad rr) eqn:Hc.
    - left. apply Hcrs. by exists rr.
    - right. split.
      + intros Hin'. apply Hcrs in Hin' as (rr' & Hrr' & Hc'). congruence.
      + apply Hlks. by exists rr. }
  assert (forall path l, (path, l) ∈ evs ->
            (l ∈ CrossroadConnections.links s
             /\ l ∉ CrossroadConnections.crossroads s)
            /\ b ∈ CrossroadConnections.crossroads s) as Hall.
  { intros path l Hpl. destruct (Hev path l Hpl) as ((n1 & H1) & (n2 & H2) & _).
    apply Hadj in H1 as (_ & Hl & _ & Ht1). apply Hadj in H2 as (_ & Hb & _ & Ht2).
    pose proof (proj2 (get_typology_crossroad _ (CrossroadConnections.links s) a) Ha)
      as Hta.
    destruct (Hkind l n1 Hl) as [Hlc|[Hlc Hll]].
    { apply (get_typology_crossroad _ (CrossroadConnections.links s)) in Hlc.
      congruence. }
    split; [done|].
    destruct (Hkind b n2 Hb) as [?|Hbl]; [done|].
    apply get_typology_link in Hbl.
    assert (CrossroadConnections.get_typology (CrossroadConnections.crossroads s)
              (CrossroadConnections.links s) l = CrossroadConnections.typology_link)
      as Htl by (by apply get_typology_link).
    congruence. }
  split; [done|]. split.
  - destruct evs as [|[path l] evs]; [done|].
    by destruct (Hall path l (list_elem_of_here _ _)) as [_ ?].
  - apply Forall_forall. intros [path l] Hpl. by destruct (Hall path l Hpl) as [? _].
Qed.

Lemma connections_join_crossroads_through_links_witness :
  0 ∈ CrossroadConnections.crossroads Example.triangle_state
  /\ 1 ∈ CrossroadConnections.crossroads Example.triangle_state
  /\ Forall (fun e : CrossroadConnections.evidence =>
               e.2 ∈ CrossroadConnections.links Example.triangle_state
               /\ e.2 ∉ CrossroadConnections.crossroads Example.triangle_state)
            [([2; 3], 3)].
Proof.
  apply (connections_join_crossroads_through_links Example.triangle_regions 2
           Example.triangle_state 0 1 [([2; 3], 3)]).
  - vm_compute. reflexivity.
  - repeat constructor.
  - apply list_elem_of_further, list_elem_of_here.
Defined.

(** ** Walks of the search for cycles *)

(** ** [get_connected_crossroads] *)

Lemma get_connected_crossroads_spec s a b ev :
  (b, ev) ∈ CrossroadConnections.get_connected_crossroads s a
  <-> (a, b, ev) ∈ CrossroadConnections.connected_crossroads s
      \/ (b ≠ a /\ (b, a, ev) ∈ CrossroadConnections.connected_crossroads s).
Proof.
  unfold CrossroadConnections.get_connected_crossroads.
  rewrite list_elem_of_In, in_flat_map. split.
  - intros ([[c0 c1] c2] & Hc & Hin). apply list_elem_of_In in Hc.
    destruct (decide (c0 = a)) as [->|H0].
    + rewrite bool_decide_eq_true_2 in Hin by done.
      destruct Hin as [[= -> ->]|[]]. by left.
    + rewrite bool_decide_eq_false_2 in Hin by done.
      destruct (decide (c1 = a)) as [->|H1].
      * rewrite bool_decide_eq_true_2 in Hin by done.
        destruct Hin as [[= -> ->]|[]]. by right.
      * rewrite bool_decide_eq_false_2 in Hin by done. destruct Hin.
  - intros [Hc|[Hne Hc]].
    + exists (a, b, ev). split; [by apply list_elem_of_In|].
      rewrite bool_decide_eq_true_2 by done. by left.
    + exists (b, a, ev). split; [by apply list_elem_of_In|].
      rewrite bool_decide_eq_false_2 by done.
      rewrite bool_decide_eq_true_2 by done. by left.
Qed.

(** X23. [get_connected_crossroads] is symmetric: [b] is reported
    as connected to [a] with some evidence exactly when [a] is reported
    as connected to [b] with the same evidence. *)
Theorem get_connected_crossroads_symmetric s a b ev :
  (b, ev) ∈ CrossroadConnections.get_connected_crossroads s a
  <-> (a, ev) ∈ CrossroadConnections.get_connected_crossroads s b.
Proof.
  rewrite !get_connected_crossroads_spec.
  destruct (decide (a = b)) as [->|Hne]; [done|].
  split; (intros [?|[_ ?]]; [right; split; [done|done] | by left]).
Qed.

(** ** The search for cycles *)

Section Search.
Variable s : CrossroadConnections.t.

Lemma extend_path_spec p start : forall nexts results new_paths results' new_paths',
  head p = Some start ->
  CrossroadConnections.extend_path p nexts results new_paths
  = Ok (results', new_paths') ->
  exists rs nps,
    results' = results ++ rs /\ new_paths' = new_paths ++ nps
    /\ Forall (fun c => exists next, c = p ++ [next] /\ next ∈ nexts
                                   /\ accepted p next /\ next.1 = start.1) rs
    /\ Forall (fun c => exists next, c = p ++ [next] /\ next ∈ nexts
                                   /\ accepted p next /\ next.1 ≠ start.1) nps.
Proof.
  intros nexts results new_paths results' new_paths' Hstart. revert results new_paths.
  induction nexts as [|next nexts IH]; intros results new_paths; simpl.
  - intros [= <- <-]. exists [], []. by rewrite !app_nil_r.
  - assert (forall (P : CrossroadConnections.cycle -> Z * list CrossroadConnections.evidence -> Prop) l,
              Forall (fun c => exists nx, c = p ++ [nx] /\ nx ∈ nexts /\ P c nx) l ->
              Forall (fun c => exists nx, c = p ++ [nx] /\ nx ∈ next :: nexts /\ P c nx) l)
      as Hweak.
    { intros P l Hl. eapply Forall_impl; [exact Hl|].
      intros c (nx & ? & ? & ?). exists nx. split; [done|].
      split; [by apply list_elem_of_further|done]. }
    destruct (Nat.eqb_spec (length p) 1) as [Hone|Hmore]; py_step.
    + rewrite (index_head _ _ Hstart). py_step.
      destruct (decide (next.1 = start.1)) as [Heq|Hne].
      * rewrite bool_decide_eq_true_2 by done. intros Hrun.
        destruct (IH _ _ Hrun) as (rs & nps & -> & -> & Hrs & Hnps).
        exists ((p ++ [next]) :: rs), nps. rewrite <- app_assoc.
        split; [done|]. split; [done|]. split.
        -- constructor; [|by apply (Hweak (fun c nx => accepted p nx /\ nx.1 = start.1))].
           exists next. split; [done|]. split; [apply list_elem_of_here|].
           split; [by left|done].
        -- by apply (Hweak (fun c nx => accepted p nx /\ nx.1 ≠ start.1)).
      * rewrite bool_decide_eq_false_2 by done. intros Hrun.
        destruct (IH _ _ Hrun) as (rs & nps & -> & -> & Hrs & Hnps).
        exists rs, ((p ++ [next]) :: nps). rewrite <- app_assoc.
        split; [done|]. split; [done|]. split.
        -- by apply (Hweak (fun c nx => accepted p nx /\ nx.1 = start.1)).
        -- constructor; [|by apply (Hweak (fun c nx => accepted p nx /\ nx.1 ≠ start.1))].
           exists next. split; [done|]. split; [apply list_elem_of_here|].
           split; [by left|done].
    + destruct (Py.index p (-2)) as [before|] eqn:Hbefore; py_step; [|discriminate].
      apply index_minus_2 in Hbefore as [Hbefore Hlen].
      destruct (decide (before.1 ≠ next.1)) as [Hb|Hb];
        [rewrite (bool_decide_eq_true_2 _ Hb) | rewrite (bool_decide_eq_false_2 _ Hb)];
        cbn [andb].
      2:{ intros Hrun. destruct (IH _ _ Hrun) as (rs & nps & -> & -> & Hrs & Hnps).
          exists rs, nps. split; [done|]. split; [done|]. split.
          - by apply (Hweak (fun c nx => accepted p nx /\ nx.1 = start.1)).
          - by apply (Hweak (fun c nx => accepted p nx /\ nx.1 ≠ start.1)). }
      destruct (CrossroadConnections.contains_link next.2 p) eqn:Hlink; cbn [negb].
      { intros Hrun. destruct (IH _ _ Hrun) as (rs & nps & -> & -> & Hrs & Hnps).
        exists rs, nps. split; [done|]. split; [done|]. split.
        - by apply (Hweak (fun c nx => accepted p nx /\ nx.1 = start.1)).
        - by apply (Hweak (fun c nx => accepted p nx /\ nx.1 ≠ start.1)). }
      assert (accepted p next) as Hacc by (right; by exists before).
      rewrite (index_head _ _ Hstart). py_step.
      destruct (decide (next.1 = start.1)) as [Heq|Hne].
      * rewrite bool_decide_eq_true_2 by done. intros Hrun.
        destruct (IH _ _ Hrun) as (rs & nps & -> & -> & Hrs & Hnps).
        exists ((p ++ [next]) :: rs), nps. rewrite <- app_assoc.
        split; [done|]. split; [done|]. split.
        -- constructor; [|by apply (Hweak (fun c nx => accepted p nx /\ nx.1 = start.1))].
           exists next. split; [done|]. split; [apply list_elem_of_here|done].
        -- by apply (Hweak (fun c nx => accepted p nx /\ nx.1 ≠ start.1)).
      * rewrite bool_decide_eq_false_2 by done. intros Hrun.
        destruct (IH _ _ Hrun) as (rs & nps & -> & -> & Hrs & Hnps).
        exists rs, ((p ++ [next]) :: nps). rewrite <- app_assoc.
        split; [done|]. split; [done|]. split.
        -- by apply (Hweak (fun c nx => accepted p nx /\ nx.1 = start.1)).
        -- constructor; [|by apply (Hweak (fun c nx => accepted p nx /\ nx.1 ≠ start.1))].
           exists next. split; [done|]. split; [apply list_elem_of_here|done].
Qed.

Lemma extend_path_total p : forall nexts results new_paths,
  p ≠ [] ->
  exists out, CrossroadConnections.extend_path p nexts results new_paths = Ok out.
Proof.
  intros nexts results new_paths Hp. revert results new_paths.
  destruct p as [|start p]; [done|].
  assert (Py.index (start :: p) 0 = Ok start) as Hstart by (by apply index_head).
  induction nexts as [|next nexts IH]; intros results new_paths;
    cbn [CrossroadConnections.extend_path]; [by eexists|].
  destruct (Nat.eqb_spec (length (start :: p)) 1) as [Hone|Hmore]; py_step.
  - rewrite Hstart. py_step. destruct (bool_decide _); apply IH.
  - destruct (Py.index (start :: p) (-2)) as [before|] eqn:Hbefore; py_step.
    + destruct (_ && _); [|apply IH]. rewrite Hstart. py_step.
      destruct (bool_decide _); apply IH.
    + exfalso. destruct p as [|y p]; [simpl in Hmore; lia|].
      assert (Py.index (start :: y :: p) (-2) = Ok ((start :: y :: p) !!! (length p)))
        as Hok.
      { apply index_minus_2. split; [|simpl; lia].
        simpl length. replace (S (S (length p)) - 2)%nat with (length p) by lia.
        apply list_lookup_lookup_total_lt. simpl. lia. }
      congruence.
Qed.

Lemma extend_paths_spec : forall paths results new_paths results' new_paths',
  CrossroadConnections.extend_paths s paths results new_paths
  = Ok (results', new_paths') ->
  exists rs nps,
    results' = results ++ rs /\ new_paths' = new_paths ++ nps
    /\ Forall (fun c => exists p, p ∈ paths /\ extension s p c /\ closed c) rs
    /\ Forall (fun c => exists p, p ∈ paths /\ extension s p c) nps.
Proof.
  induction paths as [|p paths IH]; intros results new_paths results' new_paths'; simpl.
  - intros [= <- <-]. exists [], []. by rewrite !app_nil_r.
  - destruct (Py.index p (-1)) as [lastp|] eqn:Hlast; py_step; [|discriminate].
    apply index_minus_1 in Hlast.
    destruct (CrossroadConnections.extend_path p _ results new_paths)
      as [[results1 new_paths1]|] eqn:Hp; py_step; [|discriminate].
    intros Hrun. destruct (IH _ _ _ _ Hrun) as (rs & nps & -> & -> & Hrs & Hnps).
    destruct p as [|start p0] eqn:Hpeq; [discriminate|]. rewrite <- Hpeq in *.
    assert (head p = Some start) as Hstart by (by rewrite Hpeq).
    destruct (extend_path_spec p start _ _ _ _ _ Hstart Hp)
      as (rs1 & nps1 & -> & -> & Hrs1 & Hnps1).
    exists (rs1 ++ rs), (nps1 ++ nps). rewrite !app_assoc.
    split; [done|]. split; [done|]. split; apply Forall_app; split.
    + eapply Forall_impl; [exact Hrs1|]. intros c (next & -> & Hin & Hacc & Heq).
      exists p. split; [apply list_elem_of_here|]. split.
      * by exists next, lastp.
      * exists start, next. split; [by rewrite Hpeq|]. split; [apply last_snoc|done].
    + eapply Forall_impl; [exact Hrs|]. intros c (p' & ? & ?).
      exists p'. split; [by apply list_elem_of_further|done].
    + eapply Forall_impl; [exact Hnps1|]. intros c (next & -> & Hin & Hacc & Hne).
      exists p. split; [apply list_elem_of_here|]. by exists next, lastp.
    + eapply Forall_impl; [exact Hnps|]. intros c (p' & ? & ?).
      exists p'. split; [by apply list_elem_of_further|done].
Qed.

Lemma extend_paths_total : forall paths results new_paths,
  Forall (fun p => p ≠ []) paths ->
  exists out, CrossroadConnections.extend_paths s paths results new_paths = Ok out.
Proof.
  induction paths as [|p paths IH]; intros results new_paths Hall; simpl; [by eexists|].
  apply Forall_cons in Hall as [Hp Hall].
  destruct (exists_last Hp) as (p0 & lastp & Hpeq).
  assert (Py.index p (-1) = Ok lastp) as ->
    by (apply index_minus_1; rewrite Hpeq; apply last_snoc).
  py_step.
  destruct (extend_path_total p
              (CrossroadConnections.get_connected_crossroads s lastp.1)
              results new_paths Hp) as [[results1 new_paths1] ->].
  py_step. by apply IH.
Qed.

Lemma cycles_steps_inv (Inv : nat -> CrossroadConnections.cycle -> Prop) :
  (forall k p c, Inv k p -> extension s p c -> Inv (S k) c) ->
  forall steps k paths results out,
    Forall (Inv k) paths ->
    Forall (fun c => exists j, (1 <= j <= k)%nat /\ Inv j c /\ closed c) results ->
    CrossroadConnections.cycles_steps s steps paths results = Ok out ->
    Forall (fun c => exists j, (1 <= j <= k + steps)%nat /\ Inv j c /\ closed c) out.
Proof.
  intros Hstep. induction steps as [|steps IH]; intros k paths results out Hpaths Hres.
  - simpl. intros [= <-]. eapply Forall_impl; [exact Hres|].
    intros c (j & ? & ?). exists j. split; [lia|done].
  - simpl.
    destruct (CrossroadConnections.extend_paths s paths results [])
      as [[results1 new_paths]|] eqn:Hext; py_step; [|discriminate].
    apply extend_paths_spec in Hext as (rs & nps & -> & -> & Hrs & Hnps).
    intros Hrun. apply (IH (S k)) in Hrun.
    + eapply Forall_impl; [exact Hrun|]. intros c (j & ? & ?). exists j.
      split; [lia|done].
    + rewrite app_nil_l. eapply Forall_impl; [exact Hnps|].
      intros c (p & Hp & Hext). rewrite Forall_forall in Hpaths.
      by eapply Hstep; [apply Hpaths|].
    + apply Forall_app. split.
      * eapply Forall_impl; [exact Hres|]. intros c (j & ? & ?). exists j.
        split; [lia|done].
      * eapply Forall_impl; [exact Hrs|]. intros c (p & Hp & Hext & Hcl).
        exists (S k). split; [lia|]. split; [|done].
        rewrite Forall_forall in Hpaths. by eapply Hstep; [apply Hpaths|].
Qed.

Lemma cycles_steps_total : forall steps paths results,
  Forall (fun p => p ≠ []) paths ->
  exists out, CrossroadConnections.cycles_steps s steps paths results = Ok out.
Proof.
  induction steps as [|steps IH]; intros paths results Hall; simpl; [by eexists|].
  destruct (extend_paths_total paths results [] Hall) as [[results1 new_paths] Hext].
  rewrite Hext. py_step. apply IH.
  apply extend_paths_spec in Hext as (rs & nps & _ & -> & _ & Hnps).
  rewrite app_nil_l. eapply Forall_impl; [exact Hnps|].
  intros c (p & _ & next & lastp & -> & _). by destruct p.
Qed.
End Search.



Lemma contains_link_disjoint (e : list CrossroadConnections.evidence)
    (p : CrossroadConnections.cycle) :
  CrossroadConnections.contains_link e p = false ->
  Forall (fun x => links_disjoint x.2 e) p.
Proof.
  unfold CrossroadConnections.contains_link. intros Hno.
  apply Forall_forall. intros x Hx l Hl Hle.
  apply list_elem_of_fmap in Hl as (ev & -> & Hev).
  apply not_true_iff_false in Hno. apply Hno.
  apply existsb_exists. exists x. split; [by apply list_elem_of_In|].
  apply existsb_exists. exists ev. split; [by apply list_elem_of_In|].
  by apply bool_decide_eq_true_2.
Qed.

Lemma search_walk_start s cr : search_walk s cr 0 [(cr, [])].
Proof.
  split; [done|]. split; [done|]. split; [|split].
  - intros i x y Hx Hy. destruct i; discriminate.
  - intros i j x y Hij Hx Hy. destruct j; [lia|discriminate].
  - intros i x z Hx Hz. discriminate.
Qed.

Lemma search_walk_step s cr k p c :
  search_walk s cr k p -> extension s p c -> search_walk s cr (S k) c.
Proof.
  intros (Hlen & Hhead & Hwalk & Hlinks & Hback)
         (next & lastp & -> & Hlast & Hnext & Hacc).
  assert (p !! k = Some lastp) as Hk.
  { rewrite last_lookup in Hlast. by rewrite Hlen in Hlast. }
  split; [rewrite length_app; simpl; lia|]. split; [|split; [|split]].
  - destruct p; [discriminate|done].
  - intros i x y Hx Hy. apply lookup_snoc_Some in Hy as [[Hlt Hy]|[Heq <-]].
    + apply lookup_snoc_Some in Hx as [[_ Hx]|[? _]]; [|lia]. by apply (Hwalk i x y).
    + apply lookup_snoc_Some in Hx as [[_ Hx]|[? _]]; [|lia].
      assert (i = k) as Hik by lia. rewrite Hik in Hx.
      assert (Some x = Some lastp) as [= ->]
        by (etrans; [symmetry; exact Hx|exact Hk]).
      done.
  - intros i j x y Hij Hx Hy. apply lookup_snoc_Some in Hy as [[Hlt Hy]|[Heq <-]].
    + apply lookup_snoc_Some in Hx as [[_ Hx]|[? _]]; [|lia]. by apply (Hlinks i j x y).
    + apply lookup_snoc_Some in Hx as [[_ Hx]|[? _]]; [|lia].
      destruct Hacc as [Hone|(before & _ & _ & _ & Hno)].
      * destruct p as [|x0 [|? ?]]; try discriminate.
        injection Hhead as ->. destruct i; [|discriminate].
        injection Hx as <-. intros l Hl. by apply elem_of_nil in Hl.
      * apply contains_link_disjoint in Hno. rewrite Forall_forall in Hno.
        apply (Hno x). by eapply list_elem_of_lookup_2.
  - intros i x z Hx Hz. apply lookup_snoc_Some in Hz as [[Hlt Hz]|[Heq <-]].
    + apply lookup_snoc_Some in Hx as [[_ Hx]|[? _]]; [|lia]. by apply (Hback i x z).
    + apply lookup_snoc_Some in Hx as [[_ Hx]|[? _]]; [|lia].
      destruct Hacc as [Hone|(before & Hbefore & _ & Hne & _)]; [lia|].
      replace (length p - 2)%nat with i in Hbefore by lia.
      assert (Some x = Some before) as [= ->]
        by (etrans; [symmetry; exact Hx|exact Hbefore]).
      done.
Qed.

Lemma get_cycles_from_crossroad_search s cr (max_length : Z) cycles :
  CrossroadConnections.get_cycles_from_crossroad s cr max_length = Ok cycles ->
  Forall (fun c => exists k, (1 <= k <= Z.to_nat max_length)%nat
                             /\ search_walk s cr k c /\ closed c) cycles.
Proof.
  intros Hrun. unfold CrossroadConnections.get_cycles_from_crossroad in Hrun.
  apply (cycles_steps_inv s (search_walk s cr)) with (k := 0%nat) in Hrun.
  - done.
  - apply search_walk_step.
  - constructor; [apply search_walk_start|constructor].
  - constructor.
Qed.

Lemma collect_cycles_members s (max_length : Z) : forall crs results out,
  CrossroadConnections.collect_cycles s crs max_length results = Ok out ->
  forall c, c ∈ out ->
    c ∈ results
    \/ exists cr found,
         cr ∈ crs
         /\ CrossroadConnections.get_cycles_from_crossroad s cr max_length = Ok found
         /\ c ∈ found.
Proof.
  induction crs as [|cr crs IH]; intros results out; simpl.
  - intros [= <-] c Hc. by left.
  - destruct (CrossroadConnections.get_cycles_from_crossroad s cr max_length)
      as [found|] eqn:Hf; py_step; [|discriminate].
    intros Hrun c Hc. destruct (IH _ _ Hrun c Hc) as [Hin|(cr' & found' & ? & ? & ?)].
    + apply elem_of_app in Hin as [?|?]; [by left|].
      right. exists cr, found. split; [apply list_elem_of_here|done].
    + right. exists cr', found'. split; [by apply list_elem_of_further|done].
Qed.

Lemma get_cycles_members s (max_length : Z) cycles c :
  CrossroadConnections.get_cycles s max_length = Ok cycles ->
  c ∈ cycles ->
  exists cr k,
    cr ∈ CrossroadConnections.crossroads s
    /\ (1 <= k <= Z.to_nat max_length)%nat
    /\ search_walk s cr k c /\ closed c.
Proof.
  unfold CrossroadConnections.get_cycles.
  destruct (CrossroadConnections.collect_cycles _ _ _ _) as [results|] eqn:Hc;
    py_step; [|discriminate].
  intros [= <-] Hin.
  assert (c ∈ results) as Hres.
  { unfold CrossroadConnections.get_unique_cycles in Hin.
    destruct (unique_loop_app results [] []) as (new & Heq & Hsub).
    rewrite Heq in Hin. simpl in Hin. by eapply elem_of_sublist. }
  destruct (collect_cycles_members _ _ _ _ _ Hc c Hres)
    as [?%elem_of_nil|(cr & found & Hcr & Hf & Hcf)]; [done|].
  apply get_cycles_from_crossroad_search in Hf. rewrite Forall_forall in Hf.
  destruct (Hf c Hcf) as (k & ? & ? & ?). by exists cr, k.
Qed.

Lemma search_walk_closed_at s cr k c :
  search_walk s cr k c -> closed c -> closed_at cr c.
Proof.
  intros (_ & Hhead & _) (x & y & Hx & Hy & Hxy). split; [done|].
  rewrite Hhead in Hx. injection Hx as <-. destruct y as [y ev]. simpl in Hxy.
  subst y. by exists ev.
Qed.

(** X24. [get_cycles] raises no exception, whatever the connections
    and the bound: the walks it indexes with [p[-1]], [p[-2]] and [p[0]]
    are never empty, and [p[-2]] is read on walks of two entries or
    more only. *)
Theorem get_cycles_never_raises s (max_length : Z) :
  exists cycles, CrossroadConnections.get_cycles s max_length = Ok cycles.
Proof.
  unfold CrossroadConnections.get_cycles.
  assert (forall crs results,
            exists out, CrossroadConnections.collect_cycles s crs max_length results
                        = Ok out) as Hcollect.
  { induction crs as [|cr crs IH]; intros results; simpl; [by eexists|].
    unfold CrossroadConnections.get_cycles_from_crossroad.
    destruct (cycles_steps_total s (Z.to_nat max_length) [[(cr, [])]] [])
      as [found ->]; [by repeat constructor|].
    py_step. apply IH. }
  destruct (Hcollect (CrossroadConnections.crossroads s) []) as [results ->].
  py_step. by eexists.
Qed.

(** X25. Every cycle that [get_cycles] returns starts at
    [(cr, [])] for a crossroad [cr] of the object and ends at [cr];
    each of its entries after the first is a connection of the crossroad
    of the entry before; and it has at least 2 and at most
    [max_length + 1] entries. *)
Theorem cycles_are_closed_walks s (max_length : Z) cycles :
  CrossroadConnections.get_cycles s max_length = Ok cycles ->
  Forall (fun c => exists cr,
            cr ∈ CrossroadConnections.crossroads s
            /\ closed_at cr c /\ connected_walk s c
            /\ (2 <= length c <= Z.to_nat max_length + 1)%nat) cycles.
Proof.
  intros Hrun. apply Forall_forall. intros c Hc.
  destruct (get_cycles_members _ _ _ _ Hrun Hc) as (cr & k & Hcr & Hk & Hw & Hcl).
  exists cr. split; [done|]. split; [by eapply search_walk_closed_at|].
  destruct Hw as (Hlen & _ & Hwalk & _). split; [done|]. lia.
Qed.

Lemma cycles_are_closed_walks_witness :
  Forall (fun c => exists cr,
            cr ∈ CrossroadConnections.crossroads Example.triangle_state
            /\ closed_at cr c /\ connected_walk Example.triangle_state c
            /\ (2 <= length c <= Z.to_nat 5 + 1)%nat)
         [Example.triangle_cycle].
Proof.
  apply (cycles_are_closed_walks Example.triangle_state 5 [Example.triangle_cycle]).
  vm_compute. reflexivity.
Defined.

(** X26. In a cycle that [get_cycles] returns, no link is used by
    the evidence of two different entries. *)
Theorem cycles_use_each_link_once s (max_length : Z) cycles :
  CrossroadConnections.get_cycles s max_length = Ok cycles ->
  Forall link_simple cycles.
Proof.
  intros Hrun. apply Forall_forall. intros c Hc.
  destruct (get_cycles_members _ _ _ _ Hrun Hc) as (cr & k & _ & _ & Hw & _).
  by destruct Hw as (_ & _ & _ & ? & _).
Qed.

Lemma cycles_use_each_link_once_witness :
  Forall link_simple [Example.triangle_cycle].
Proof.
  apply (cycles_use_each_link_once Example.triangle_state 5 [Example.triangle_cycle]).
  vm_compute. reflexivity.
Defined.

Lemma connected_step_differs s a b ev :
  (forall x y e, (x, y, e) ∈ CrossroadConnections.connected_crossroads s -> x ≠ y) ->
  (b, ev) ∈ CrossroadConnections.get_connected_crossroads s a -> b ≠ a.
Proof.
  intros Hself Hin. apply get_connected_crossroads_spec in Hin as [Hin|[? _]]; [|done].
  intros ->. by eapply Hself.
Qed.

Lemma closed_walk_three_crossroads s cr k c :
  (forall x y e, (x, y, e) ∈ CrossroadConnections.connected_crossroads s -> x ≠ y) ->
  (1 <= k)%nat -> search_walk s cr k c -> closed c ->
  (4 <= length c)%nat /\ (3 <= size (cycle_ids c))%nat.
Proof.
  intros Hself Hk (Hlen & Hhead & Hwalk & _ & Hback) (x & y & Hx & Hy & Hxy).
  destruct c as [|x0 [|x1 c]]; simpl in Hlen; try lia.
  simpl in Hx. injection Hx as <-.
  assert (x1.1 ≠ x0.1) as H10.
  { destruct x1 as [b ev]. eapply connected_step_differs; [done|].
    by apply (Hwalk 0%nat x0 (b, ev)). }
  destruct c as [|x2 c].
  { simpl in Hy. injection Hy as <-. done. }
  assert (x2.1 ≠ x1.1) as H21.
  { destruct x2 as [b ev]. eapply connected_step_differs; [done|].
    by apply (Hwalk 1%nat x1 (b, ev)). }
  assert (x2.1 ≠ x0.1) as H20 by (by apply (Hback 0%nat x0 x2)).
  destruct c as [|x3 c].
  { simpl in Hy. injection Hy as <-. done. }
  split; [simpl; lia|].
  rewrite <- (size_three x0.1 x1.1 x2.1) by done.
  apply subseteq_size. unfold cycle_ids. intros w.
  rewrite !elem_of_union, !elem_of_singleton, elem_of_list_to_set. simpl.
  rewrite !elem_of_cons. tauto.
Qed.

Lemma init_no_self_connection regions threshold s x y e :
  CrossroadConnections.init regions threshold = Ok s ->
  (x, y, e) ∈ CrossroadConnections.connected_crossroads s -> x ≠ y.
Proof.
  intros Hinit Hin.
  apply init_connected in Hinit as (_ & _ & _ & _ & _ & Hconn).
  apply compute_connected_crossroads_ordered in Hconn as [Hord _].
  rewrite Forall_forall in Hord.
  destruct (Hord _ Hin) as (ra & rb & Ha & Hb & Hlt). simpl in *.
  intros ->. assert (ra = rb) as -> by congruence. lia.
Qed.

(** X27. On an object built by the constructor, every cycle that
    [get_cycles] returns has at least four entries and goes through at
    least three different crossroads; so no cycle is returned for a
    bound below 3. *)
Theorem cycles_visit_three_crossroads regions threshold s (max_length : Z) cycles :
  CrossroadConnections.init regions threshold = Ok s ->
  CrossroadConnections.get_cycles s max_length = Ok cycles ->
  Forall (fun c => (4 <= length c)%nat /\ (3 <= size (cycle_ids c))%nat) cycles
  /\ (max_length < 3 -> cycles = []).
Proof.
  intros Hinit Hrun.
  assert (forall c, c ∈ cycles ->
            ((4 <= length c)%nat /\ (3 <= size (cycle_ids c))%nat)
            /\ (length c <= Z.to_nat max_length + 1)%nat) as Hall.
  { intros c Hc.
    destruct (get_cycles_members _ _ _ _ Hrun Hc) as (cr & k & _ & Hk & Hw & Hcl).
    split.
    - apply (closed_walk_three_crossroads s cr k c); [|lia|exact Hw|exact Hcl].
      intros x y e. by apply (init_no_self_connection regions threshold).
    - destruct Hw as (Hlen & _). lia. }
  split.
  - apply Forall_forall. intros c Hc. by destruct (Hall c Hc).
  - intros Hshort. destruct cycles as [|c cycles]; [done|].
    destruct (Hall c (list_elem_of_here _ _)) as [[? _] ?]. lia.
Qed.

Lemma cycles_visit_three_crossroads_witness :
  Forall (fun c => (4 <= length c)%nat /\ (3 <= size (cycle_ids c))%nat)
         [Example.triangle_cycle].
Proof.
  apply (cycles_visit_three_crossroads Example.triangle_regions 2
           Example.triangle_state 5 [Example.triangle_cycle]).
  - vm_compute. reflexivity.
  - vm_compute. reflexivity.
Defined.

(** ** The command line script *)

Lemma elem_of_when e b es :
  e ∈ Script.when b es <-> b = true /\ e ∈ es.
Proof.
  destruct b; simpl; [by split; [|intros [_ ?]]|].
  split; [by intros ?%elem_of_nil | by intros [? _]].
Qed.

Lemma elem_of_with_file e o es :
  e ∈ Script.with_file o es <-> exists file, o = Some file /\ e ∈ es file.
Proof.
  destruct o as [file|]; simpl.
  - split; [by exists file | by intros (? & [= <-] & ?)].
  - split; [by intros ?%elem_of_nil | by intros (? & ? & _)].
Qed.

(** X28. The script saves the GraphML file exactly when
    [--to-graphml] is given together with [--verbose]: the call to
    [save_graphml] is in the body of [if verbose:].  The GEXF file is
    written whenever [--to-gexf] is given. *)
Theorem graphml_saved_only_when_verbose (a : Script.args) file :
  (Script.SaveGraphml file ∈ Script.main a
   <-> Script.to_graphml a = Some file /\ Script.verbose a = true)
  /\ (Script.WriteGexf file ∈ Script.main a <-> Script.to_gexf a = Some file).
Proof.
  unfold Script.main. split.
  - rewrite !elem_of_app, !elem_of_with_file. split.
    + intros H.
      repeat match goal with
             | H : _ \/ _ |- _ => destruct H as [H|H]
             end.
      all: try (apply elem_of_when in H as [_ H]).
      all: repeat match goal with
             | H : _ ∈ _ ++ _ |- _ => apply elem_of_app in H as [H|H]
             | H : _ ∈ Script.when _ _ |- _ => apply elem_of_when in H as [? H]
             | H : _ ∈ _ :: _ |- _ => apply elem_of_cons in H as [H|H]
             | H : _ ∈ [] |- _ => by apply elem_of_nil in H
             | H : _ ∈ match ?x with _ => _ end |- _ => destruct x
             | H : _ ∈ (if ?x then _ else _) |- _ => destruct x
             | H : exists _, _ |- _ => destruct H as (? & ? & H)
             end; try discriminate.
      injection H as <-. done.
    + intros [Hg Hv]. do 14 right. exists file. split; [done|].
      rewrite Hv. simpl. do 2 apply list_elem_of_further. apply list_elem_of_here.
  - rewrite !elem_of_app, !elem_of_with_file. split.
    + intros H.
      repeat match goal with
             | H : _ \/ _ |- _ => destruct H as [H|H]
             end.
      all: try (apply elem_of_when in H as [_ H]).
      all: repeat match goal with
             | H : _ ∈ _ ++ _ |- _ => apply elem_of_app in H as [H|H]
             | H : _ ∈ Script.when _ _ |- _ => apply elem_of_when in H as [? H]
             | H : _ ∈ _ :: _ |- _ => apply elem_of_cons in H as [H|H]
             | H : _ ∈ [] |- _ => by apply elem_of_nil in H
             | H : _ ∈ match ?x with _ => _ end |- _ => destruct x
             | H : _ ∈ (if ?x then _ else _) |- _ => destruct x
             | H : exists _, _ |- _ => destruct H as (? & ? & H)
             end; try discriminate.
      injection H as <-. done.
    + intros Hg. do 13 right. left. exists file. split; [done|].
      apply elem_of_app. right. apply list_elem_of_further, list_elem_of_here.
Qed.

Lemma split_after_prefix (l1 l2 pre post : list Script.event) e :
  Forall (fun x => is_output x = false) l1 ->
  is_output e = true ->
  l1 ++ l2 = pre ++ e :: post ->
  exists pre', pre = l1 ++ pre' /\ l2 = pre' ++ e :: post.
Proof.
  revert pre. induction l1 as [|x l1 IH]; intros pre Hl1 He Heq.
  - by exists pre.
  - apply Forall_cons in Hl1 as [Hx Hl1].
    destruct pre as [|y pre]; simpl in Heq.
    + injection Heq as -> _. congruence.
    + injection Heq as -> Heq.
      destruct (IH pre Hl1 He Heq) as (pre' & -> & ->). by exists pre'.
Qed.

Lemma when_no_output b es :
  Forall (fun x => is_output x = false) es ->
  Forall (fun x => is_output x = false) (Script.when b es).
Proof. intros H. destruct b; [done|constructor]. Qed.

(** X29. Without [--skip-processing], every text, JSON, GEXF or
    GraphML output and every display of the regions comes after the
    call to [seg.process()]. *)
Theorem outputs_follow_processing (a : Script.args) pre e post :
  Script.skip_processing a = false ->
  Script.main a = pre ++ e :: post ->
  is_output e = true ->
  Script.Process ∈ pre.
Proof.
  intros Hskip Hmain He. unfold Script.main in Hmain. rewrite Hskip in Hmain.
  apply split_after_prefix in Hmain as (pre1 & -> & Hmain); [|by apply when_no_output; repeat constructor|done].
  apply split_after_prefix in Hmain as (pre2 & -> & Hmain); [| |done].
  2:{ destruct (Script.from_graphml a); [by repeat constructor|].
      repeat (apply Forall_app; split); try apply when_no_output; by repeat constructor. }
  apply split_after_prefix in Hmain as (pre3 & -> & Hmain);
    [|by apply when_no_output; repeat constructor|done].
  apply split_after_prefix in Hmain as (pre4 & -> & Hmain); [| |done].
  2:{ apply Forall_app. split; [apply when_no_output|]; by repeat constructor. }
  apply split_after_prefix in Hmain as (pre5 & -> & Hmain); [| |done].
  2:{ apply when_no_output.
      repeat (apply Forall_app; split); try apply when_no_output; by repeat constructor. }
  apply split_after_prefix in Hmain as (pre6 & -> & Hmain); [| |done].
  2:{ apply when_no_output. apply Forall_app.
      split; [apply when_no_output|]; by repeat constructor. }
  assert (e ∈ pre6 ++ e :: post) as Hin
    by (apply elem_of_app; right; apply list_elem_of_here).
  rewrite <- Hmain in Hin. clear Hmain.
  assert ((Script.display a || Script.display_segmentation a || Script.to_text a
           || Script.to_text_all a || Script.given (Script.to_gexf a)
           || Script.given (Script.to_json a) || Script.given (Script.to_json_all a)
           || Script.given (Script.to_graphml a) || Script.display_main_crossroad a)
          = true) as ->.
  { rewrite !elem_of_app, !elem_of_with_file, !elem_of_when in Hin.
    repeat match goal with
           | H : _ \/ _ |- _ => destruct H as [H|H]
           | H : _ /\ _ |- _ => destruct H as [? H]
           | H : exists _, _ |- _ => destruct H as (? & ? & H)
           end.
    all: match goal with
         | H : _ = true |- _ => rewrite H
         | H : _ = Some _ |- _ => rewrite H
         end; simpl; by rewrite ?orb_true_r. }
  simpl. rewrite !elem_of_app. do 5 right. left. right. apply list_elem_of_here.
Qed.

Lemma outputs_follow_processing_witness :
  Script.Process
  ∈ [Script.GraphFromPoint; Script.RemoveFootwaysAndParkings; Script.GetUndirected;
     Script.Segmentation 2 10; Script.Process].
Proof.
  apply (outputs_follow_processing Example.json_args _ (Script.ToJson "out.json" false) []).
  - reflexivity.
  - vm_compute. reflexivity.
  - reflexivity.
Defined.

